(** * Texar: Transformer decoder and paired text data

    A shallow embedding of

    - [texar/modules/decoders/transformer_decoders.py]
      (class [TransformerDecoder]: the decoder stack, the training pass,
      the incremental step function, greedy and beam decoding), and
    - [texar/data/data/paired_text_data.py]
      (class [PairedTextData]: [make_vocab] and [_make_data]),

    together with the properties of the two modules that the specification
    states, and with further properties read off the two files: the edge
    cases of the stack, of the step function and of greedy decoding, and
    the ways the construction of [PairedTextData] ends.

    Tensors are nested lists: a rank-3 float tensor [batch, length, depth]
    is a [list (list (list R))], a rank-2 id tensor [batch, length] a
    [list (list Z)].  The scalar type [R] (float32 in the program) and its
    operations are kept abstract in the class [Scalar]; trained weights,
    random dropout draws and the helpers of the toolkit that live in other
    files are fields of the record [network]. *)

From Stdlib Require Import ZArith Lia.
From stdpp Require Import base option list gmap strings.

Local Open Scope Z_scope.

(** ** Python exceptions and the result monad *)

Inductive exn : Type :=
  | AssertionError
  | KeyError
  | ValueError
  | TypeError
  | AttributeError
  | InvalidArgumentError.

(** A computation returns a value, raises, or (for [tf.while_loop] run with
    a bounded number of unfoldings) runs out of fuel. *)
Inductive result (A : Type) : Type :=
  | Done (a : A)
  | Raise (e : exn)
  | OutOfFuel.
Arguments Done {A} a.
Arguments Raise {A} e.
Arguments OutOfFuel {A}.

#[global] Instance result_ret : MRet result := λ A a, Done a.
#[global] Instance result_bind : MBind result := λ A B f m,
  match m with
  | Done a => f a
  | Raise e => Raise e
  | OutOfFuel => OutOfFuel
  end.

#[global] Instance result_fmap : FMap result := λ A B f m,
  match m with
  | Done a => Done (f a)
  | Raise e => Raise e
  | OutOfFuel => OutOfFuel
  end.

(** [assert e]: raises [AssertionError] when [e] is falsy. *)
Definition py_assert (e : bool) : result unit :=
  if e then Done tt else Raise AssertionError.

(** ** Scalars *)

Class Scalar (R : Type) : Type := {
  rzero : R;
  radd : R → R → R;
  rsub : R → R → R;
  rmul : R → R → R;
  rdiv : R → R → R;
  (** strict comparison [x < y] *)
  rltb : R → R → bool;
  (** [n ** 0.5] for the integer [n] *)
  rsqrt : nat → R;
  (** [x ** y] *)
  rpow : R → R → R;
  (** conversion of an integer *)
  rofZ : Z → R;
  (** [tf.reduce_logsumexp] of one row *)
  logsumexp : list R → R;
}.

(** ** Tensors as nested lists *)

Section Tensors.
Context {R : Type} `{Scalar R}.

Definition vec_add (u v : list R) : list R := zip_with radd u v.

(** [x + y] for two rank-3 tensors of one shape. *)
Definition tensor3_add (x y : list (list (list R))) : list (list (list R)) :=
  zip_with (zip_with vec_add) x y.

(** [x + p] where [p] has shape [1, length, depth] and is broadcast over
    the batch axis; a length-1 axis of [x] against a length-0 axis of
    [p] broadcasts to length 0, as [zip_with] does. *)
Definition tensor3_add_broadcast (x : list (list (list R))) (p : list (list R))
  : list (list (list R)) :=
  map (λ s, zip_with vec_add s p) x.

(** [x * c] for a scalar [c]. *)
Definition tensor3_scale (x : list (list (list R))) (c : R) : list (list (list R)) :=
  map (map (map (λ v, rmul v c))) x.

(** A function applied to the last axis at every [batch, position]. *)
Definition per_position (f : list R → list R) (x : list (list (list R)))
  : list (list (list R)) :=
  map (map f) x.

(** [tf.argmax(row)]: index of the first largest entry. *)
Fixpoint argmax_from (best : R) (besti : nat) (i : nat) (row : list R) : nat :=
  match row with
  | [] => besti
  | x :: row' =>
      if rltb best x then argmax_from x i (S i) row'
      else argmax_from best besti (S i) row'
  end.

Definition tf_argmax (row : list R) : nat :=
  match row with
  | [] => 0%nat
  | x :: row' => argmax_from x 0%nat 1%nat row'
  end.

(** [sum_j u_j * v_j] *)
Definition dot (u v : list R) : R :=
  foldr radd rzero (zip_with rmul u v).
End Tensors.

(** [tf.concat([a, b], axis=1)]: the batch sizes must agree. *)
Definition tf_concat_axis1 {A} (a b : list (list A)) : result (list (list A)) :=
  if decide (length a = length b) then Done (zip_with app a b)
  else Raise InvalidArgumentError.

(** [tf.squeeze(x, axis=[1])]: axis 1 must have size 1. *)
Definition tf_squeeze_axis1 {A} (x : list (list A)) : result (list A) :=
  from_option Done (Raise InvalidArgumentError)
    (mapM (λ s, match s with [a] => Some a | _ => None end) x).

(** Cast to int32, two's complement wrap-around. *)
Definition to_int32 (z : Z) : Z := (z + 2^31) `mod` 2^32 - 2^31.

(** [l[i]] with a default for an index out of range (the value the GPU
    kernels of [tf.gather] store there). *)
Definition lookupZ {A} (d : A) (l : list A) (i : Z) : A :=
  if bool_decide (0 ≤ i) then default d (l !! Z.to_nat i) else d.

(** [ids[:, -1:]] *)
Definition last_column {A} (ids : list (list A)) : list (list A) :=
  map (λ row, drop (length row - 1) row) ids.

(** [shape_list(x)[1]] *)
Definition axis1_length {A} (x : list (list A)) : nat :=
  match x with
  | [] => 0%nat
  | s :: _ => length s
  end.

(** Sequence length (axis 1) of every batch item. *)
Definition has_length {A} (n : nat) (x : list (list A)) : Prop :=
  Forall (λ s, length s = n) x.

(** [tf.while_loop(cond, body, loop_vars)]: the condition is tested before
    every execution of the body.  The result carries the number of times
    the body ran. *)
Fixpoint while_loop {St} (fuel : nat) (cond : St → bool) (body : St → result St)
    (s : St) : result (nat * St) :=
  match fuel with
  | O => OutOfFuel
  | S fuel' =>
      if cond s then
        s' ← body s;
        '(n, s'') ← while_loop fuel' cond body s';
        Done (S n, s'')
      else Done (0%nat, s)
  end.

(** The state after [t] executions of a loop body. *)
Fixpoint run_body {St} (body : St → result St) (t : nat) (s : St) : result St :=
  match t with
  | O => Done s
  | S t' => s' ← body s; run_body body t' s'
  end.

(** [for i in range(start, start + count)] threading a state. *)
Fixpoint for_range {St} (body : nat → St → result St) (start count : nat) (s : St)
  : result St :=
  match count with
  | O => Done s
  | S count' => s' ← body start s; for_range body (S start) count' s'
  end.

(** ** The decoder's data *)

(** Variable scopes of the decoder stack: the sub-layers of block [i] and
    the top level (embedding dropout, final normalisation). *)
Inductive scope : Type :=
  | SelfAttention (i : nat)
  | EncdecAttention (i : nat)
  | Poswise (i : nat)
  | Top.

(** The embedding matrix [vocab_size, channels]; the static number of
    columns is kept beside the rows. *)
Record embedding_matrix (R : Type) : Type := {
  emb_table : list (list R);
  emb_dim : nat;
}.
Arguments emb_table {R} _.
Arguments emb_dim {R} _.

(** The hyperparameters the decoder reads ([initializer],
    [position_embedder], [poswise_feedforward] and [name] configure the
    collaborators held in [network]). *)
Record hparams (R : Type) : Type := {
  sampling_method : string;
  multiply_embedding_mode : string;
  share_embed_and_transform : bool;
  transform_with_bias : bool;
  num_heads : nat;
  num_blocks : nat;
  maximum_decode_length : Z;
  embedding_dropout : R;
  attention_dropout : R;
  residual_dropout : R;
  num_units : nat;
  eos_idx : Z;
  bos_idx : Z;
  beam_width : Z;
  alpha : R;
}.
Arguments sampling_method {R} _.
Arguments multiply_embedding_mode {R} _.
Arguments share_embed_and_transform {R} _.
Arguments transform_with_bias {R} _.
Arguments num_heads {R} _.
Arguments num_blocks {R} _.
Arguments maximum_decode_length {R} _.
Arguments embedding_dropout {R} _.
Arguments attention_dropout {R} _.
Arguments residual_dropout {R} _.
Arguments num_units {R} _.
Arguments eos_idx {R} _.
Arguments bos_idx {R} _.
Arguments beam_width {R} _.
Arguments alpha {R} _.

(** Hyperparameters with one entry replaced. *)
Definition with_multiply_embedding_mode {R} (mode : string) (h : hparams R)
  : hparams R := {|
  sampling_method := sampling_method h;
  multiply_embedding_mode := mode;
  share_embed_and_transform := share_embed_and_transform h;
  transform_with_bias := transform_with_bias h;
  num_heads := num_heads h;
  num_blocks := num_blocks h;
  maximum_decode_length := maximum_decode_length h;
  embedding_dropout := embedding_dropout h;
  attention_dropout := attention_dropout h;
  residual_dropout := residual_dropout h;
  num_units := num_units h;
  eos_idx := eos_idx h;
  bos_idx := bos_idx h;
  beam_width := beam_width h;
  alpha := alpha h;
|}.

Definition with_bos_idx {R} (bos : Z) (h : hparams R) : hparams R := {|
  sampling_method := sampling_method h;
  multiply_embedding_mode := multiply_embedding_mode h;
  share_embed_and_transform := share_embed_and_transform h;
  transform_with_bias := transform_with_bias h;
  num_heads := num_heads h;
  num_blocks := num_blocks h;
  maximum_decode_length := maximum_decode_length h;
  embedding_dropout := embedding_dropout h;
  attention_dropout := attention_dropout h;
  residual_dropout := residual_dropout h;
  num_units := num_units h;
  eos_idx := eos_idx h;
  bos_idx := bos;
  beam_width := beam_width h;
  alpha := alpha h;
|}.

(** One layer's entry of the cache: four sequences [batch, seen, depth]. *)
Record layer_cache (R : Type) : Type := {
  self_keys : list (list (list R));
  self_values : list (list (list R));
  memory_keys : list (list (list R));
  memory_values : list (list (list R));
}.
Arguments self_keys {R} _.
Arguments self_values {R} _.
Arguments memory_keys {R} _.
Arguments memory_values {R} _.

(** The cache dictionary: the keys ['memory'] and
    ['encoder_decoder_attention_bias'], and one entry ['layer_l'] for each
    block, here keyed by [l]. *)
Record cache (R Bias : Type) : Type := {
  cache_memory : list (list (list R));
  cache_encoder_decoder_attention_bias : Bias;
  cache_layers : gmap nat (layer_cache R);
}.
Arguments cache_memory {R Bias} _.
Arguments cache_encoder_decoder_attention_bias {R Bias} _.
Arguments cache_layers {R Bias} _.

(** Trained weights, random draws and the toolkit's helpers that the
    decoder calls.  [run] numbers the executions of one graph op: 0 for a
    single forward pass, the iteration inside [tf.while_loop]. *)
Record network (R Bias : Type) : Type := {
  (** [layers.layer_normalize], applied to the last axis *)
  layer_normalize : scope → list R → list R;
  (** the dense projections of queries, keys and values *)
  dense_q : scope → list R → list R;
  dense_k : scope → list R → list R;
  dense_v : scope → list R → list R;
  (** the attention kernel for one query: run, scope, bias, dropout rate,
      batch index, query position, query, keys and values of the batch
      item *)
  attention_kernel : nat → scope → option Bias → R → nat → nat →
                     list R → list (list R) → list (list R) → list R;
  (** [FeedForwardNetwork] of a block at one position: run, block, batch
      index, position *)
  poswise_network : nat → nat → nat → nat → list R → list R;
  (** one entry after [tf.layers.dropout] in training: run, scope, rate,
      the three indices of the entry *)
  dropout_entry : nat → scope → R → nat → nat → nat → R → R;
  (** the position signal: length, channels, position *)
  position_signal : nat → nat → nat → list R;
  (** [attentions.attention_bias_lower_triangle] *)
  attention_bias_lower_triangle : nat → Bias;
  (** [tf.shape(bias)[0]] *)
  bias_batch_size : Bias → nat;
  (** [tf.gather(bias, indices)] along the batch axis *)
  bias_gather : list nat → Bias → Bias;
  (** the variable ['affine_bias'] *)
  affine_bias : nat → R;
  (** kernel columns and bias of the [tf.layers.Dense] output layer *)
  dense_kernel : nat → list R;
  dense_bias : nat → R;
  (** [is_train_mode(mode)], [is_train_mode_py(mode)] *)
  is_train_mode : option string → bool;
  is_train_mode_py : option string → bool;
  (** the value of [tf.multinomial(logits, 1).squeeze(axis=1)] at a step,
      where the tensor class has a method [squeeze] *)
  multinomial_squeeze : Z → list (list R) → option (list Z);
}.
Arguments layer_normalize {R Bias} _.
Arguments dense_q {R Bias} _.
Arguments dense_k {R Bias} _.
Arguments dense_v {R Bias} _.
Arguments attention_kernel {R Bias} _.
Arguments poswise_network {R Bias} _.
Arguments dropout_entry {R Bias} _.
Arguments position_signal {R Bias} _.
Arguments attention_bias_lower_triangle {R Bias} _.
Arguments bias_batch_size {R Bias} _.
Arguments bias_gather {R Bias} _.
Arguments affine_bias {R Bias} _.
Arguments dense_kernel {R Bias} _.
Arguments dense_bias {R Bias} _.
Arguments is_train_mode {R Bias} _.
Arguments is_train_mode_py {R Bias} _.
Arguments multinomial_squeeze {R Bias} _.

(** The network with another attention kernel, everything else kept. *)
Definition with_attention_kernel {R Bias}
    (kernel : nat → scope → option Bias → R → nat → nat →
              list R → list (list R) → list (list R) → list R)
    (net : network R Bias) : network R Bias := {|
  layer_normalize := layer_normalize net;
  dense_q := dense_q net;
  dense_k := dense_k net;
  dense_v := dense_v net;
  attention_kernel := kernel;
  poswise_network := poswise_network net;
  dropout_entry := dropout_entry net;
  position_signal := position_signal net;
  attention_bias_lower_triangle := attention_bias_lower_triangle net;
  bias_batch_size := bias_batch_size net;
  bias_gather := bias_gather net;
  affine_bias := affine_bias net;
  dense_kernel := dense_kernel net;
  dense_bias := dense_bias net;
  is_train_mode := is_train_mode net;
  is_train_mode_py := is_train_mode_py net;
  multinomial_squeeze := multinomial_squeeze net;
|}.

(** Two attention kernels that can differ only where a cross-attention
    (scope [EncdecAttention]) is given a bias other than [bias]. *)
Definition same_kernel_at_cross_bias {R Bias} (bias : Bias)
    (k k' : nat → scope → option Bias → R → nat → nat →
            list R → list (list R) → list (list R) → list R) : Prop :=
  ∀ run sc b rate batch pos q keys values,
    (∀ i, sc = EncdecAttention i → b = Some bias) →
    k run sc b rate batch pos q keys values
      = k' run sc b rate batch pos q keys values.

(** ** The Transformer decoder *)

Module TransformerDecoder.
Section Decoder.
Context {R : Type} `{Scalar R} {Bias : Type}.
Variable net : network R Bias.
Variable hp : hparams R.
(** [self._embedding] *)
Variable embedding : embedding_matrix R.

(** [self._vocab_size = self._embedding.get_shape().as_list()[0]] *)
Definition _vocab_size : nat := length (emb_table embedding).

(** [tf.nn.embedding_lookup(params, ids)] on a rank-2 tensor of ids. *)
Definition tf_nn_embedding_lookup (ids : list (list Z)) : list (list (list R)) :=
  map (map (lookupZ (replicate (emb_dim embedding) rzero) (emb_table embedding))) ids.

(** [tf.layers.dropout(x, rate, training)]: the identity unless training,
    where every entry is dropped or rescaled by a random draw. *)
Definition tf_layers_dropout (run : nat) (sc : scope) (rate : R) (training : bool)
    (x : list (list (list R))) : list (list (list R)) :=
  if training then
    imap (λ b, imap (λ i, imap (λ j v, dropout_entry net run sc rate b i j v))) x
  else x.

(** Modelled from the spec: [self.position_embedder(length, channels)];
    the position embedders
    ([texar/modules/embedders/position_embedders.py]) are not among the
    sources.  PositionSignal "produces per-position embedding vectors
    (sinusoidal or learned) for a given sequence length and channel
    depth".  The result has shape [1, length, channels]; the leading axis
    is dropped here. *)
Definition position_embedder (length channels : nat) : list (list R) :=
  map (position_signal net length channels) (seq 0 length).

(** Modelled from the spec: the attention of every query of [Q] over the
    keys and values of its batch item, "given queries/keys/values and a
    bias mask, returns attended outputs". *)
Definition attend (run : nat) (sc : scope) (bias : option Bias) (rate : R)
    (Q K V : list (list (list R))) : list (list (list R)) :=
  imap (λ b, imap (λ i q,
    attention_kernel net run sc bias rate b i q
      (default [] (K !! b)) (default [] (V !! b)))) Q.

(** Modelled from the spec: [attentions.multihead_attention(queries,
    memory_attention_bias, memory, num_heads, num_units, dropout_rate,
    cache)]; [texar/utils/transformer_attentions.py] is not among the
    sources.  AttentionPrimitive is "scaled dot-product multi-head
    attention over a bias-masked score matrix; supports an optional
    incremental cache of previously computed keys/values for
    self-attention and memory (cross) attention"; "when a cache is
    supplied, the self-attention step appends the current step's key/value
    to the cache's stored sequence before computing attention"; "memory
    keys/values are computed once and reused unchanged across steps".
    The layer's cache entry is a dictionary that the call updates in
    place; here the updated entry is returned beside the output. *)
Definition multihead_attention (run : nat) (sc : scope)
    (queries : list (list (list R))) (memory : option (list (list (list R))))
    (memory_attention_bias : option Bias) (dropout_rate : R)
    (lc : option (layer_cache R))
  : result (list (list (list R)) * option (layer_cache R)) :=
  let Q := per_position (dense_q net sc) queries in
  match memory with
  | None =>
      let K := per_position (dense_k net sc) queries in
      let V := per_position (dense_v net sc) queries in
      match lc with
      | Some c =>
          K ← tf_concat_axis1 (self_keys c) K;
          V ← tf_concat_axis1 (self_values c) V;
          Done (attend run sc memory_attention_bias dropout_rate Q K V,
                Some {| self_keys := K; self_values := V;
                        memory_keys := memory_keys c;
                        memory_values := memory_values c |})
      | None =>
          Done (attend run sc memory_attention_bias dropout_rate Q K V, None)
      end
  | Some m =>
      match lc with
      | Some c =>
          if decide (axis1_length (memory_keys c) = 0%nat) then
            let K := per_position (dense_k net sc) m in
            let V := per_position (dense_v net sc) m in
            Done (attend run sc memory_attention_bias dropout_rate Q K V,
                  Some {| self_keys := self_keys c; self_values := self_values c;
                          memory_keys := K; memory_values := V |})
          else
            Done (attend run sc memory_attention_bias dropout_rate Q
                    (memory_keys c) (memory_values c), Some c)
      | None =>
          let K := per_position (dense_k net sc) m in
          let V := per_position (dense_v net sc) m in
          Done (attend run sc memory_attention_bias dropout_rate Q K V, None)
      end
  end.

(** [cache[layer_name] if cache is not None else None] *)
Definition get_layer_cache (c : option (cache R Bias)) (i : nat)
  : result (option (layer_cache R)) :=
  match c with
  | Some c =>
      match cache_layers c !! i with
      | Some lc => Done (Some lc)
      | None => Raise KeyError
      end
  | None => Done None
  end.

(** The entry ['layer_i'] is shared between the cache and the attention
    call: what the call stores in it is seen through the cache. *)
Definition put_layer_cache (c : option (cache R Bias)) (i : nat)
    (lc : option (layer_cache R)) : option (cache R Bias) :=
  match c, lc with
  | Some c, Some lc =>
      Some {| cache_memory := cache_memory c;
              cache_encoder_decoder_attention_bias :=
                cache_encoder_decoder_attention_bias c;
              cache_layers := <[i := lc]> (cache_layers c) |}
  | _, _ => c
  end.

(** The body of [for i in range(self._hparams.num_blocks)]. *)
Definition stack_layer (run : nat) (encoder_output : option (list (list (list R))))
    (decoder_self_attention_bias encoder_decoder_attention_bias : option Bias)
    (mode : option string) (i : nat)
    (st : list (list (list R)) * option (cache R Bias))
  : result (list (list (list R)) * option (cache R Bias)) :=
  let '(x, c) := st in
  layer_cache ← get_layer_cache c i;
  '(selfatt_output, layer_cache) ←
    multihead_attention run (SelfAttention i)
      (per_position (layer_normalize net (SelfAttention i)) x)
      None decoder_self_attention_bias (attention_dropout hp) layer_cache;
  let c := put_layer_cache c i layer_cache in
  let x := tensor3_add x
    (tf_layers_dropout run (SelfAttention i) (residual_dropout hp)
       (is_train_mode net mode) selfatt_output) in
  x ← match encoder_output with
      | Some m =>
          '(encdec_output, _) ←
            multihead_attention run (EncdecAttention i)
              (per_position (layer_normalize net (EncdecAttention i)) x)
              (Some m) encoder_decoder_attention_bias (attention_dropout hp) None;
          Done (tensor3_add x
            (tf_layers_dropout run (EncdecAttention i) (residual_dropout hp)
               (is_train_mode net mode) encdec_output))
      | None => Done x
      end;
  let sub_output :=
    tf_layers_dropout run (Poswise i) (residual_dropout hp) (is_train_mode net mode)
      (imap (λ b, imap (λ p, poswise_network net run i b p))
         (per_position (layer_normalize net (Poswise i)) x)) in
  Done (tensor3_add x sub_output, c).

(** [_self_attention_stack].  The function returns the stack's output; the
    cache it was given is returned here as well, with the updates the
    attention calls made to it. *)
Definition _self_attention_stack (run : nat) (inputs : list (list (list R)))
    (encoder_output : option (list (list (list R))))
    (decoder_self_attention_bias encoder_decoder_attention_bias : option Bias)
    (c : option (cache R Bias)) (mode : option string)
  : result (list (list (list R)) * option (cache R Bias)) :=
  let inputs := tf_layers_dropout run Top (embedding_dropout hp)
                  (is_train_mode net mode) inputs in
  encoder_decoder_attention_bias ←
    match c with
    | Some c' => Done (Some (cache_encoder_decoder_attention_bias c'))
    | None =>
        _ ← py_assert (bool_decide (is_Some decoder_self_attention_bias));
        Done encoder_decoder_attention_bias
    end;
  '(x, c) ← for_range
    (stack_layer run encoder_output decoder_self_attention_bias
       encoder_decoder_attention_bias mode)
    0 (num_blocks hp) (inputs, c);
  Done (per_position (layer_normalize net Top) x, c).

(** [_build_output_layer]: with shared weights the logits of a position
    are its products with the rows of the embedding matrix (the two
    reshapes flatten and restore the leading axes around [tf.matmul]),
    plus the bias variable when there is one; otherwise a dense layer of
    [_vocab_size] units. *)
Definition _build_output_layer (outputs : list (list (list R))) : list (list (list R)) :=
  if share_embed_and_transform hp then
    per_position (λ h,
      let logits := map (dot h) (emb_table embedding) in
      if transform_with_bias hp then imap (λ j v, radd v (affine_bias net j)) logits
      else logits) outputs
  else
    per_position (λ h,
      map (λ j,
        let v := dot h (dense_kernel net j) in
        if transform_with_bias hp then radd v (dense_bias net j) else v)
        (seq 0 _vocab_size)) outputs.

Definition output_layer := _build_output_layer.

(** [_prepare_tokens_to_embeds] *)
Definition _prepare_tokens_to_embeds (tokens : list (list Z)) : list (list (list R)) :=
  tf_nn_embedding_lookup tokens.

(** The class [NotImplementedError] is an object, hence truthy. *)
Definition NotImplementedError_truthy : bool := true.

(** [_symbols_to_logits_fn(embedding_fn, max_length)] and its [_impl]. *)
Definition _symbols_to_logits_fn (embedding_fn : list (list Z) → list (list (list R)))
    (max_length : Z) (ids : list (list Z)) (step : Z) (c : cache R Bias)
  : result (list (list R) * cache R Bias) :=
  let channels := emb_dim embedding in
  let timing_signal := position_embedder (Z.to_nat max_length) channels in
  (* _impl *)
  let ids := last_column ids in
  let inputs := embedding_fn ids in
  inputs ←
    (if String.eqb (multiply_embedding_mode hp) "sqrt_depth" then
       Done (tensor3_scale inputs (rsqrt (emb_dim embedding)))
     else
       _ ← py_assert NotImplementedError_truthy; Done inputs);
  let inputs := tensor3_add_broadcast inputs
                  (take 1 (drop (Z.to_nat step) timing_signal)) in
  '(outputs, c') ← _self_attention_stack (Z.to_nat step) inputs
                     (Some (cache_memory c)) None None (Some c) None;
  let logits := output_layer outputs in
  logits ← tf_squeeze_axis1 logits;
  Done (logits, default c c').

(** [_init_cache] *)
Definition _init_cache (memory : list (list (list R)))
    (encoder_decoder_attention_bias : Bias) : cache R Bias :=
  let batch_size := length memory in
  {| cache_memory := memory;
     cache_encoder_decoder_attention_bias := encoder_decoder_attention_bias;
     cache_layers :=
       foldl (λ m l,
                <[l := {| self_keys := replicate batch_size [];
                          self_values := replicate batch_size [];
                          memory_keys := replicate batch_size [];
                          memory_values := replicate batch_size [] |}]> m)
             ∅ (seq 0 (num_blocks hp)) |}.

(** The loop variables of [_greedy_decode]. *)
Record loop_vars : Type := {
  lv_step : Z;
  lv_finished : list bool;
  lv_next_id : list (list Z);
  lv_decoded_ids : list (list Z);
  lv_cache : cache R Bias;
  lv_log_prob : list R;
}.

(** [tf.gather_nd(log_probs, indices)] for index pairs [(b, id)]. *)
Definition tf_gather_nd (log_probs : list (list R)) (indices : list (Z * Z)) : list R :=
  map (λ '(b, i), lookupZ rzero (lookupZ [] log_probs b) i) indices.

(** [_greedy_decode._body] *)
Definition _body (symbols_to_logits_fn :
      list (list Z) → Z → cache R Bias → result (list (list R) * cache R Bias))
    (batch_size : nat) (eos : Z) (v : loop_vars) : result loop_vars :=
  '(logits, c) ← symbols_to_logits_fn (lv_next_id v) (lv_step v) (lv_cache v);
  let log_probs := map (λ row, map (λ x, rsub x (logsumexp row)) row) logits in
  next_id ←
    (if String.eqb (sampling_method hp) "argmax" then
       Done (map (λ row, to_int32 (Z.of_nat (tf_argmax row))) logits)
     else if String.eqb (sampling_method hp) "sample" then
       from_option Done (Raise AttributeError)
         (multinomial_squeeze net (lv_step v) logits)
     else
       (* [next_id] is still [batch, 1]: [tf.stack] below rejects it *)
       Raise ValueError);
  let finished := zip_with orb (lv_finished v)
                    (map (λ t, bool_decide (t = eos)) next_id) in
  let log_prob_indices := zip (map Z.of_nat (seq 0 batch_size)) next_id in
  let log_prob := zip_with radd (lv_log_prob v)
                    (tf_gather_nd log_probs log_prob_indices) in
  let next_id := map (λ t, [t]) next_id in
  decoded_ids ← tf_concat_axis1 (lv_decoded_ids v) next_id;
  Done {| lv_step := lv_step v + 1;
          lv_finished := finished;
          lv_next_id := next_id;
          lv_decoded_ids := decoded_ids;
          lv_cache := c;
          lv_log_prob := log_prob |}.

(** The loop variables with other finished flags. *)
Definition with_finished (finished : list bool) (v : loop_vars) : loop_vars :=
  {| lv_step := lv_step v;
     lv_finished := finished;
     lv_next_id := lv_next_id v;
     lv_decoded_ids := lv_decoded_ids v;
     lv_cache := lv_cache v;
     lv_log_prob := lv_log_prob v |}.

(** [_greedy_decode.is_not_finished] *)
Definition is_not_finished (decode_length : Z) (v : loop_vars) : bool :=
  bool_decide (lv_step v < decode_length) && negb (forallb id (lv_finished v)).

(** The initial loop variables of [_greedy_decode]. *)
Definition greedy_init (start_tokens : list Z) (memory : list (list (list R)))
    (encoder_decoder_attention_bias : Bias) : loop_vars :=
  let batch_size := length start_tokens in
  {| lv_step := 0;
     lv_finished := replicate batch_size false;
     lv_next_id := map (λ t, [t]) start_tokens;
     lv_decoded_ids := replicate batch_size [];
     lv_cache := _init_cache memory encoder_decoder_attention_bias;
     lv_log_prob := replicate batch_size rzero |}.

(** The [tf.while_loop] of [_greedy_decode], unfolded at most [fuel]
    times. *)
Definition greedy_loop (fuel : nat)
    (embedding_fn : list (list Z) → list (list (list R)))
    (start_tokens : list Z) (eos decode_length : Z)
    (memory : list (list (list R))) (encoder_decoder_attention_bias : Bias)
  : result (nat * loop_vars) :=
  while_loop fuel (is_not_finished decode_length)
    (_body (_symbols_to_logits_fn embedding_fn (decode_length + 1))
       (length start_tokens) eos)
    (greedy_init start_tokens memory encoder_decoder_attention_bias).

(** The loop variables of [_greedy_decode] after [t] executions of the
    body. *)
Definition greedy_steps (t : nat)
    (embedding_fn : list (list Z) → list (list (list R)))
    (start_tokens : list Z) (eos decode_length : Z)
    (memory : list (list (list R))) (encoder_decoder_attention_bias : Bias)
  : result loop_vars :=
  run_body
    (_body (_symbols_to_logits_fn embedding_fn (decode_length + 1))
       (length start_tokens) eos)
    t (greedy_init start_tokens memory encoder_decoder_attention_bias).

(** [_greedy_decode].  The loop cannot run longer than [decode_length]
    iterations, which bounds the unfoldings it is given. *)
Definition _greedy_decode (embedding_fn : list (list Z) → list (list (list R)))
    (start_tokens : list Z) (eos decode_length : Z)
    (memory : list (list (list R))) (encoder_decoder_attention_bias : Bias)
  : result (list (list (list Z)) * list (list R)) :=
  '(_, v) ← greedy_loop (S (Z.to_nat decode_length)) embedding_fn start_tokens
              eos decode_length memory encoder_decoder_attention_bias;
  let outputs := map (λ row, [row]) (lv_decoded_ids v) in
  let log_prob := map (λ x, [x]) (lv_log_prob v) in
  Done (outputs, log_prob).

(** [beam_search.beam_search(symbols_to_logits_fn, initial_ids, beam_size,
    decode_length, vocab_size, alpha, states, eos_id)], which lives in
    [texar/utils/beam_search.py]. *)
Variable beam_search :
  (list (list Z) → Z → cache R Bias → result (list (list R) * cache R Bias)) →
  list Z → Z → Z → nat → R → cache R Bias → Z →
  result (list (list (list Z)) * list (list R)).

(** [_beam_decode] *)
Definition _beam_decode (embedding_fn : list (list Z) → list (list (list R)))
    (start_tokens : list Z) (eos : Z)
    (memory : list (list (list R))) (encoder_decoder_attention_bias : Bias)
    (decode_length : Z) (beam_width : Z)
  : result (list (list (list Z)) * list (list R)) :=
  let c := _init_cache memory encoder_decoder_attention_bias in
  let symbols_to_logits_fn := _symbols_to_logits_fn embedding_fn (decode_length + 1) in
  '(outputs, log_probs) ←
    beam_search symbols_to_logits_fn start_tokens beam_width decode_length
      _vocab_size (alpha hp) c eos;
  let outputs := map (map (drop 1)) outputs in
  Done (outputs, log_probs).

(** What [_build] returns: [(logits, preds)] in training, the dictionary
    [{'sampled_ids', 'log_probs'}] otherwise. *)
Inductive build_output : Type :=
  | LogitsPreds (logits : list (list (list R))) (preds : list (list Z))
  | Predictions (sampled_ids : list (list (list Z))) (log_probs : list (list R)).

(** [tf.fill([n], v)] *)
Definition tf_fill {A} (n : nat) (v : A) : list A := replicate n v.

(** [_build] (the bookkeeping of [self._built] is left out). *)
Definition _build (encoder_output : option (list (list (list R))))
    (encoder_decoder_attention_bias : option Bias)
    (decoder_input : option (list (list Z))) (mode : option string)
  : result build_output :=
  if is_train_mode_py net mode then
    decoder_input ← from_option Done (Raise ValueError) decoder_input;
    let decoder_self_attention_bias :=
      attention_bias_lower_triangle net (axis1_length decoder_input) in
    let target_inputs := tf_nn_embedding_lookup decoder_input in
    let target_inputs :=
      if String.eqb (multiply_embedding_mode hp) "sqrt_depth" then
        tensor3_scale target_inputs (rsqrt (emb_dim embedding))
      else target_inputs in
    let lengths := axis1_length target_inputs in
    let channels := emb_dim embedding in
    let pos_embeds := position_embedder lengths channels in
    let inputs := tensor3_add_broadcast target_inputs pos_embeds in
    '(decoder_output, _) ←
      _self_attention_stack 0 inputs encoder_output
        (Some decoder_self_attention_bias) encoder_decoder_attention_bias
        None mode;
    let logits := output_layer decoder_output in
    let preds := map (map (λ row, to_int32 (Z.of_nat (tf_argmax row)))) logits in
    Done (LogitsPreds logits preds)
  else
    bias ← from_option Done (Raise ValueError) encoder_decoder_attention_bias;
    memory ← from_option Done (Raise ValueError) encoder_output;
    let batch_size := bias_batch_size net bias in
    let beam_width := beam_width hp in
    let maximum_decode_length := maximum_decode_length hp in
    let start_tokens := tf_fill batch_size 1 in
    '(sampled_ids, log_probs) ←
      (if bool_decide (beam_width ≤ 1) then
         _greedy_decode _prepare_tokens_to_embeds start_tokens (eos_idx hp)
           maximum_decode_length memory bias
       else
         _beam_decode _prepare_tokens_to_embeds start_tokens (eos_idx hp)
           memory bias maximum_decode_length beam_width);
    Done (Predictions sampled_ids log_probs).
End Decoder.
End TransformerDecoder.

(** ** Beam search

    The module [texar/utils/beam_search.py] is not among the sources: the
    search is modelled from the description of BeamDecoder in the
    specification. *)

Module BeamSearch.
Section Beam.
Context {R : Type} `{Scalar R} {Bias : Type}.
Variable net : network R Bias.

(** Modelled from the spec: a live hypothesis, "a (token sequence,
    cumulative log-probability, finished-flag) tuple per beam slot"; the
    start token comes first, and the flag is the list the hypothesis is
    kept in. *)
Record hypothesis : Type := {
  hyp_tokens : list Z;
  hyp_log_prob : R;
}.

(** Modelled from the spec: a continuation of a live hypothesis, with the
    row of the flattened batch it extends, its tokens, log-probability and
    penalised score. *)
Record candidate : Type := {
  cand_parent : nat;
  cand_tokens : list Z;
  cand_log_prob : R;
  cand_score : R;
}.

(** Modelled from the spec: the state of the search, per batch item the
    live hypotheses and the retired ones with their final scores; the
    cache has one row of its batch dimension for every live hypothesis,
    item after item. *)
Record beam_state : Type := {
  bs_step : Z;
  bs_alive : list (list hypothesis);
  bs_finished : list (list candidate);
  bs_cache : cache R Bias;
}.

(** Modelled from the spec: the length penalty
    [((5 + length) / 6) ** alpha]. *)
Definition length_penalty (alpha : R) (length : nat) : R :=
  rpow (rdiv (radd (rofZ 5) (rofZ (Z.of_nat length))) (rofZ 6)) alpha.

(** Modelled from the spec: "gather along batch dimension by parent
    index", the rows [indices] of a tensor. *)
Definition gather {A} (indices : list nat) (x : list (list A)) : list (list A) :=
  map (λ i, default [] (x !! i)) indices.

(** Modelled from the spec: the four tensors of a layer reindexed. *)
Definition gather_layer (indices : list nat) (lc : layer_cache R) : layer_cache R :=
  {| self_keys := gather indices (self_keys lc);
     self_values := gather indices (self_values lc);
     memory_keys := gather indices (memory_keys lc);
     memory_values := gather indices (memory_values lc) |}.

(** Modelled from the spec: "cache entries must be reindexed each step",
    every entry along its batch dimension. *)
Definition gather_cache (indices : list nat) (c : cache R Bias) : cache R Bias :=
  {| cache_memory := gather indices (cache_memory c);
     cache_encoder_decoder_attention_bias :=
       bias_gather net indices (cache_encoder_decoder_attention_bias c);
     cache_layers := gather_layer indices <$> cache_layers c |}.

(** Modelled from the spec: "keep the top [beam_width] hypotheses by
    penalized score", best first. *)
Fixpoint top_k (k : nat) (cands : list candidate) : list candidate :=
  match k with
  | O => []
  | S k' =>
      let i := tf_argmax (map cand_score cands) in
      match cands !! i with
      | Some c => c :: top_k k' (delete i cands)
      | None => []
      end
  end.

(** Modelled from the spec: "expand every live hypothesis by all
    vocabulary continuations, add log-probabilities, apply a length
    penalty", for the hypothesis in row [parent]. *)
Definition expand (vocab_size : nat) (alpha : R) (parent : nat) (h : hypothesis)
    (log_probs : list R) : list candidate :=
  imap (λ v lp,
    let tokens := hyp_tokens h ++ [Z.of_nat v] in
    let log_prob := radd (hyp_log_prob h) lp in
    {| cand_parent := parent;
       cand_tokens := tokens;
       cand_log_prob := log_prob;
       cand_score := rdiv log_prob (length_penalty alpha (length tokens - 1)) |})
    (take vocab_size log_probs).

(** Modelled from the spec: the hypothesis "ends with the end token". *)
Definition ends_with (eos : Z) (c : candidate) : bool :=
  bool_decide (last (cand_tokens c) = Some eos).

(** Modelled from the spec: one step for the batch items from row
    [offset] of the flattened batch on; of the kept candidates, those that
    "end with the end token" are retired, the others stay live. *)
Fixpoint advance (beam_size vocab_size : nat) (alpha : R) (eos : Z)
    (log_probs : list (list R)) (offset : nat)
    (alive : list (list hypothesis)) (finished : list (list candidate))
  : list (list candidate) * list (list candidate) :=
  match alive with
  | [] => ([], finished)
  | hyps :: alive' =>
      let candidates :=
        concat (imap (λ j h,
          expand vocab_size alpha (offset + j) h
            (default [] (log_probs !! (offset + j)%nat))) hyps) in
      let kept := top_k beam_size candidates in
      let retired := filter (λ c, ends_with eos c = true) kept in
      let live := filter (λ c, ends_with eos c = false) kept in
      let '(lives, finished') :=
        advance beam_size vocab_size alpha eos log_probs
          (offset + length hyps) alive' (tail finished) in
      (live :: lives, (default [] (head finished) ++ retired) :: finished')
  end.

(** Modelled from the spec: one iteration of the search, a call of the
    step function on all live hypotheses. *)
Definition beam_step
    (symbols_to_logits_fn :
      list (list Z) → Z → cache R Bias → result (list (list R) * cache R Bias))
    (beam_size vocab_size : nat) (alpha : R) (eos : Z) (s : beam_state)
  : result beam_state :=
  let flat := concat (bs_alive s) in
  '(logits, c) ← symbols_to_logits_fn (map hyp_tokens flat) (bs_step s) (bs_cache s);
  let log_probs := map (λ row, map (λ x, rsub x (logsumexp row)) row) logits in
  let '(lives, finished) :=
    advance beam_size vocab_size alpha eos log_probs 0
      (bs_alive s) (bs_finished s) in
  let parents := map cand_parent (concat lives) in
  Done {| bs_step := bs_step s + 1;
          bs_alive :=
            map (map (λ c, {| hyp_tokens := cand_tokens c;
                              hyp_log_prob := cand_log_prob c |})) lives;
          bs_finished := finished;
          bs_cache := gather_cache parents c |}.

(** Modelled from the spec: "all beams per item finished", no live
    hypothesis is left for the batch item. *)
Definition all_retired (hyps : list hypothesis) : bool :=
  match hyps with
  | [] => true
  | _ :: _ => false
  end.

(** Modelled from the spec: the search goes on until "[decode_length]
    reached or all beams per item finished". *)
Definition beam_not_finished (decode_length : Z) (s : beam_state) : bool :=
  bool_decide (bs_step s < decode_length) &&
  negb (forallb all_retired (bs_alive s)).

(** Modelled from the spec: the initial state, one hypothesis per batch
    item. *)
Definition beam_init (initial_ids : list Z) (states : cache R Bias) : beam_state :=
  {| bs_step := 0;
     bs_alive := map (λ t, [{| hyp_tokens := [t]; hyp_log_prob := rzero |}]) initial_ids;
     bs_finished := map (λ _, []) initial_ids;
     bs_cache := states |}.

(** Modelled from the spec: the loop of the search, unfolded at most
    [fuel] times. *)
Definition beam_loop (fuel : nat)
    (symbols_to_logits_fn :
      list (list Z) → Z → cache R Bias → result (list (list R) * cache R Bias))
    (initial_ids : list Z) (beam_size decode_length : Z) (vocab_size : nat)
    (alpha : R) (states : cache R Bias) (eos_id : Z)
  : result (nat * beam_state) :=
  while_loop fuel (beam_not_finished decode_length)
    (beam_step symbols_to_logits_fn (Z.to_nat beam_size) vocab_size alpha eos_id)
    (beam_init initial_ids states).

(** Modelled from the spec: the output has the "shape [batch,
    beam_width, length]", one length for all sequences: a sequence of
    fewer than [n] tokens is filled up with 0. *)
Definition pad_to (n : nat) (tokens : list Z) : list Z :=
  tokens ++ replicate (n - length tokens) 0.

(** Modelled from the spec: a live hypothesis as a row of the output,
    with its penalised score. *)
Definition live_candidate (alpha : R) (h : hypothesis) : candidate :=
  {| cand_parent := 0;
     cand_tokens := hyp_tokens h;
     cand_log_prob := hyp_log_prob h;
     cand_score :=
       rdiv (hyp_log_prob h) (length_penalty alpha (length (hyp_tokens h) - 1)) |}.

(** Modelled from the spec: the [beam_size] rows of one batch item, "the
    finished hypotheses ranked by penalized log-probability (best
    first)".  The spec fixes the shape [batch, beam_width, length] and
    not the rows of an item of which fewer than [beam_width] hypotheses
    have finished: here they are the item's live hypotheses, best
    first. *)
Definition ranked (beam_size : nat) (alpha : R) (finished : list candidate)
    (alive : list hypothesis) : list candidate :=
  take beam_size
    (top_k beam_size finished ++ top_k beam_size (map (live_candidate alpha) alive)).

(** Modelled from the spec: [beam_search.beam_search(symbols_to_logits_fn,
    initial_ids, beam_size, decode_length, vocab_size, alpha, states,
    eos_id)]; [texar/utils/beam_search.py] is not among the sources.
    BeamDecoder "maintains [beam_width] live hypotheses per
    original batch item.  Each step: expand every live hypothesis by all
    vocabulary continuations, add log-probabilities, apply a length
    penalty [((5 + length) / 6) ** alpha], keep the top [beam_width]
    hypotheses by penalized score, retire hypotheses that end with the end
    token (excluded from further expansion but retained with their final
    score for output ranking).  Cache entries must be reindexed each step
    (gather along batch dimension by parent index).  Terminal condition:
    [decode_length] reached or all beams per item finished.  Output: for
    each batch item, the finished hypotheses ranked by penalized
    log-probability (best first), ...; shape [batch, beam_width,
    length]".  The search starts from one hypothesis per batch item, the
    start token with log-probability 0; the penalty divides the
    log-probability, with the number of generated tokens as the length;
    the sequences are returned with the start token still in front, all
    filled up to the start token and one token for every step made. *)
Definition beam_search
    (symbols_to_logits_fn :
      list (list Z) → Z → cache R Bias → result (list (list R) * cache R Bias))
    (initial_ids : list Z) (beam_size decode_length : Z) (vocab_size : nat)
    (alpha : R) (states : cache R Bias) (eos_id : Z)
  : result (list (list (list Z)) * list (list R)) :=
  '(_, s) ← beam_loop (S (Z.to_nat decode_length)) symbols_to_logits_fn
              initial_ids beam_size decode_length vocab_size alpha states eos_id;
  let rows := zip_with (ranked (Z.to_nat beam_size) alpha)
                (bs_finished s) (bs_alive s) in
  let n := S (Z.to_nat (bs_step s)) in
  Done (map (map (λ c, pad_to n (cand_tokens c))) rows,
        map (map cand_score) rows).
End Beam.
End BeamSearch.

(** ** Paired text data *)

Module PairedTextData.

(** The hyperparameters of one side ([source_dataset], [target_dataset]);
    the three sharing flags are read on the target side only. *)
Record dataset_hparams : Type := {
  files : string;
  compression_type : option string;
  vocab_file : string;
  bos_token : option string;
  eos_token : option string;
  embedding_init_file : option string;
  data_name : string;
  variable_utterance : bool;
  vocab_share : bool;
  embedding_init_share : bool;
  processing_share : bool;
}.

Record data_hparams : Type := {
  source_dataset : dataset_hparams;
  target_dataset : dataset_hparams;
  num_parallel_calls : Z;
  prefetch_buffer_size : Z;
  (** [bucket_length_fn]: unset, or the name of a function *)
  bucket_length_fn : option string;
}.

(** A [Vocab] instance (the class lives in [texar/data/vocabulary.py]),
    identified with the arguments of its constructor: the attributes
    [bos_token] and [eos_token] are the tokens it was constructed with. *)
Record vocab : Type := {
  vocab_filename : string;
  vocab_bos_token : string;
  vocab_eos_token : string;
}.

(** Calls that construct or transform a [tf.data] dataset. *)
Inductive dataset_event : Type :=
  | TextLineDataset (files : string)
  | DatasetZip
  | ShuffleDataset
  | DatasetMap
  | MakeBatch
  | DatasetPrefetch (n : Z).

Section Data.
(** Opaque values of the collaborators. *)
Context {Embedding Dataset DataSpec DataSpecI Processor TranFn LengthFn : Type}.

(** The attributes of [self] that [_make_data] sets. *)
Record instance : Type := {
  _src_vocab : option nat;
  _tgt_vocab : option nat;
  _src_embedding : option (option Embedding);
  _tgt_embedding : option (option Embedding);
  _dataset_size : option Z;
  _data_spec : option DataSpec;
  _src_decoder : option Processor;
  _tgt_decoder : option Processor;
  _dataset : option Dataset;
}.

(** The program state: the [Vocab] objects by address, the attributes of
    [self], and the dataset calls made so far (latest first). *)
Record pstate : Type := {
  heap : gmap nat vocab;
  self : instance;
  trace : list dataset_event;
}.

Definition M (A : Type) : Type := pstate → result A * pstate.

#[local] Instance M_ret : MRet M := λ A a s, (Done a, s).
#[local] Instance M_bind : MBind M := λ A B f m s,
  match m s with
  | (Done a, s') => f a s'
  | (Raise e, s') => (Raise e, s')
  | (OutOfFuel, s') => (OutOfFuel, s')
  end.

Definition raise {A} (e : exn) : M A := λ s, (Raise e, s).

Definition emit (ev : dataset_event) : M unit := λ s,
  (Done tt, {| heap := heap s; self := self s; trace := ev :: trace s |}).

Definition update_self (f : instance → instance) : M unit := λ s,
  (Done tt, {| heap := heap s; self := f (self s); trace := trace s |}).

(** [Vocab(filename, bos_token=..., eos_token=...)]: a new object. *)
Definition Vocab (filename bos eos : string) : M nat := λ s,
  let a := fresh (dom (heap s)) in
  (Done a,
   {| heap := <[a := {| vocab_filename := filename;
                        vocab_bos_token := bos;
                        vocab_eos_token := eos |}]> (heap s);
      self := self s; trace := trace s |}).

(** Reading the attributes of the [Vocab] object at an address. *)
Definition vocab_at (a : nat) : M vocab := λ s,
  match heap s !! a with
  | Some v => (Done v, s)
  | None => (Raise AttributeError, s)
  end.

(** Constants and functions of the toolkit that live in other files. *)
Variable BOS_TOKEN EOS_TOKEN : string.
Variable default_string : option string → string → string.
(** [MonoTextData.make_vocab(hparams)]: builds a [Vocab] and returns it. *)
Variable MonoTextData_make_vocab :
  dataset_hparams → gmap nat vocab → nat * gmap nat vocab.
Variable MonoTextData_make_embedding :
  dataset_hparams → vocab → option Embedding.
Variable Embedding_new : vocab → dataset_hparams → Embedding.
Variable tf_data_TextLineDataset : string → option string → Dataset.
Variable tf_data_Dataset_zip : Dataset → Dataset → Dataset.
Variable _shuffle_dataset : Dataset → data_hparams → string → Dataset * Z.
Variable _DataSpec :
  Dataset → Z → nat * nat → option Embedding * option Embedding → DataSpec.
Variable get_ith_data_spec : DataSpec → nat → DataSpecI.
Variable set_ith_data_spec : DataSpec → nat → DataSpecI → nat → DataSpec.
Variable MonoTextData_make_processor :
  dataset_hparams → DataSpecI → Processor * list Processor * DataSpecI.
Variable make_combined_transformation :
  list (list Processor) → string * string → TranFn.
Variable add_spec : DataSpec → string * string → DataSpec.
Variable data_spec_decoder : DataSpec → nat → Processor.
Variable dataset_map : Dataset → TranFn → Z → Dataset.
Variable default_length_fn : LengthFn.
Variable get_function : string → LengthFn.
Variable _make_batch : Dataset → data_hparams → LengthFn → Dataset.
Variable dataset_prefetch : Dataset → Z → Dataset.

(** [MonoTextData.make_vocab] returns an object that exists. *)
Definition returns_live_vocab : Prop :=
  ∀ hparams h,
    is_Some ((MonoTextData_make_vocab hparams h).2
               !! (MonoTextData_make_vocab hparams h).1).

Definition call_MonoTextData_make_vocab (hparams : dataset_hparams) : M nat := λ s,
  let '(a, h) := MonoTextData_make_vocab hparams (heap s) in
  (Done a, {| heap := h; self := self s; trace := trace s |}).

(** The target's special tokens, as [make_vocab] resolves them. *)
Definition resolved_tgt_tokens (src_hparams tgt_hparams : dataset_hparams)
  : string * string :=
  let '(tgt_bos_token, tgt_eos_token) :=
    if processing_share tgt_hparams then
      (bos_token src_hparams, eos_token src_hparams)
    else
      (bos_token tgt_hparams, eos_token tgt_hparams) in
  (default_string tgt_bos_token BOS_TOKEN,
   default_string tgt_eos_token EOS_TOKEN).

(** [make_vocab]: the pair of the source and the target vocabulary, by
    address. *)
Definition make_vocab (src_hparams tgt_hparams : dataset_hparams) : M (nat * nat) :=
  src_vocab ← call_MonoTextData_make_vocab src_hparams;
  let '(tgt_bos_token, tgt_eos_token) :=
    resolved_tgt_tokens src_hparams tgt_hparams in
  tgt_vocab ←
    (if vocab_share tgt_hparams then
       sv ← vocab_at src_vocab;
       if bool_decide (tgt_bos_token = vocab_bos_token sv) &&
          bool_decide (tgt_eos_token = vocab_eos_token sv) then
         mret src_vocab
       else
         Vocab (vocab_file src_hparams) tgt_bos_token tgt_eos_token
     else
       Vocab (vocab_file tgt_hparams) tgt_bos_token tgt_eos_token);
  mret (src_vocab, tgt_vocab).

(** [make_embedding] *)
Definition make_embedding (src_emb_hparams : dataset_hparams)
    (src_token_to_id_map : vocab) (tgt_emb_hparams : dataset_hparams)
    (tgt_token_to_id_map : vocab) (emb_init_share : bool)
  : option Embedding * option Embedding :=
  let src_embedding :=
    MonoTextData_make_embedding src_emb_hparams src_token_to_id_map in
  let tgt_embedding :=
    if emb_init_share then src_embedding
    else
      match embedding_init_file tgt_emb_hparams with
      | Some tgt_emb_file =>
          if bool_decide (tgt_emb_file ≠ ""%string) then
            Some (Embedding_new tgt_token_to_id_map tgt_emb_hparams)
          else None
      | None => None
      end in
  (src_embedding, tgt_embedding).

(** [_make_dataset] *)
Definition _make_dataset (hparams : data_hparams) : M Dataset :=
  _ ← emit (TextLineDataset (files (source_dataset hparams)));
  let src_dataset :=
    tf_data_TextLineDataset (files (source_dataset hparams))
      (compression_type (source_dataset hparams)) in
  _ ← emit (TextLineDataset (files (target_dataset hparams)));
  let tgt_dataset :=
    tf_data_TextLineDataset (files (target_dataset hparams))
      (compression_type (target_dataset hparams)) in
  _ ← emit DatasetZip;
  mret (tf_data_Dataset_zip src_dataset tgt_dataset).

(** [_get_name_prefix] *)
Definition _get_name_prefix (src_hparams tgt_hparams : dataset_hparams)
  : M (string * string) :=
  let name_prefix := (data_name src_hparams, data_name tgt_hparams) in
  if bool_decide (name_prefix.1 = name_prefix.2) then raise ValueError
  else mret name_prefix.

(** [_make_processor] *)
Definition _make_processor (src_hparams tgt_hparams : dataset_hparams)
    (data_spec : DataSpec) (name_prefix : option (string * string))
  : TranFn * DataSpec :=
  let data_spec_i := get_ith_data_spec data_spec 0 in
  let '(src_decoder, src_trans, data_spec_i) :=
    MonoTextData_make_processor src_hparams data_spec_i in
  let data_spec := set_ith_data_spec data_spec 0 data_spec_i 2 in
  let tgt_proc_hparams :=
    if processing_share tgt_hparams then
      {| files := files src_hparams;
         compression_type := compression_type src_hparams;
         vocab_file := vocab_file src_hparams;
         bos_token := bos_token src_hparams;
         eos_token := eos_token src_hparams;
         embedding_init_file := embedding_init_file src_hparams;
         data_name := data_name src_hparams;
         variable_utterance := variable_utterance tgt_hparams;
         vocab_share := vocab_share src_hparams;
         embedding_init_share := embedding_init_share src_hparams;
         processing_share := processing_share src_hparams |}
    else tgt_hparams in
  let data_spec_i := get_ith_data_spec data_spec 1 in
  let '(tgt_decoder, tgt_trans, data_spec_i) :=
    MonoTextData_make_processor tgt_proc_hparams data_spec_i in
  let data_spec := set_ith_data_spec data_spec 1 data_spec_i 2 in
  let name_prefix := default ("source", "target")%string name_prefix in
  let tran_fn :=
    make_combined_transformation
      [src_decoder :: src_trans; tgt_decoder :: tgt_trans] name_prefix in
  let data_spec := add_spec data_spec name_prefix in
  (tran_fn, data_spec).

(** [_process_dataset] *)
Definition _process_dataset (dataset : Dataset) (hparams : data_hparams)
    (data_spec : DataSpec) : M (Dataset * DataSpec) :=
  name_prefix ← _get_name_prefix (source_dataset hparams) (target_dataset hparams);
  let '(tran_fn, data_spec) :=
    _make_processor (source_dataset hparams) (target_dataset hparams)
      data_spec (Some name_prefix) in
  let num_parallel_calls := num_parallel_calls hparams in
  _ ← emit DatasetMap;
  let dataset := dataset_map dataset tran_fn num_parallel_calls in
  mret (dataset, data_spec).

(** [_make_length_fn] *)
Definition _make_length_fn (hparams : data_hparams) : LengthFn :=
  match bucket_length_fn hparams with
  | None => default_length_fn
  | Some length_fn =>
      if bool_decide (length_fn = ""%string) then default_length_fn
      else get_function length_fn
  end.

(** [_make_data], with [self._hparams] as the argument. *)
Definition _make_data (hparams : data_hparams) : M unit :=
  '(src_vocab, tgt_vocab) ←
    make_vocab (source_dataset hparams) (target_dataset hparams);
  _ ← update_self (λ o,
        {| _src_vocab := Some src_vocab; _tgt_vocab := Some tgt_vocab;
           _src_embedding := _src_embedding o; _tgt_embedding := _tgt_embedding o;
           _dataset_size := _dataset_size o; _data_spec := _data_spec o;
           _src_decoder := _src_decoder o; _tgt_decoder := _tgt_decoder o;
           _dataset := _dataset o |});
  let tgt_hparams := target_dataset hparams in
  if negb (vocab_share tgt_hparams) && embedding_init_share tgt_hparams then
    raise ValueError
  else
    src_map ← vocab_at src_vocab;
    tgt_map ← vocab_at tgt_vocab;
    let '(src_embedding, tgt_embedding) :=
      make_embedding (source_dataset hparams) src_map
        (target_dataset hparams) tgt_map
        (embedding_init_share (target_dataset hparams)) in
    _ ← update_self (λ o,
          {| _src_vocab := _src_vocab o; _tgt_vocab := _tgt_vocab o;
             _src_embedding := Some src_embedding;
             _tgt_embedding := Some tgt_embedding;
             _dataset_size := _dataset_size o; _data_spec := _data_spec o;
             _src_decoder := _src_decoder o; _tgt_decoder := _tgt_decoder o;
             _dataset := _dataset o |});
    (* Create dataset *)
    dataset ← _make_dataset hparams;
    _ ← emit ShuffleDataset;
    let '(dataset, dataset_size) :=
      _shuffle_dataset dataset hparams (files (source_dataset hparams)) in
    _ ← update_self (λ o,
          {| _src_vocab := _src_vocab o; _tgt_vocab := _tgt_vocab o;
             _src_embedding := _src_embedding o;
             _tgt_embedding := _tgt_embedding o;
             _dataset_size := Some dataset_size; _data_spec := _data_spec o;
             _src_decoder := _src_decoder o; _tgt_decoder := _tgt_decoder o;
             _dataset := _dataset o |});
    (* Processing. *)
    let data_spec :=
      _DataSpec dataset dataset_size (src_vocab, tgt_vocab)
        (src_embedding, tgt_embedding) in
    '(dataset, data_spec) ← _process_dataset dataset hparams data_spec;
    _ ← update_self (λ o,
          {| _src_vocab := _src_vocab o; _tgt_vocab := _tgt_vocab o;
             _src_embedding := _src_embedding o;
             _tgt_embedding := _tgt_embedding o;
             _dataset_size := _dataset_size o; _data_spec := Some data_spec;
             _src_decoder := Some (data_spec_decoder data_spec 0);
             _tgt_decoder := Some (data_spec_decoder data_spec 1);
             _dataset := _dataset o |});
    (* Batching *)
    let length_fn := _make_length_fn hparams in
    _ ← emit MakeBatch;
    let dataset := _make_batch dataset hparams length_fn in
    (* Prefetching *)
    dataset ←
      (if bool_decide (prefetch_buffer_size hparams > 0) then
         _ ← emit (DatasetPrefetch (prefetch_buffer_size hparams));
         mret (dataset_prefetch dataset (prefetch_buffer_size hparams))
       else mret dataset);
    update_self (λ o,
      {| _src_vocab := _src_vocab o; _tgt_vocab := _tgt_vocab o;
         _src_embedding := _src_embedding o; _tgt_embedding := _tgt_embedding o;
         _dataset_size := _dataset_size o; _data_spec := _data_spec o;
         _src_decoder := _src_decoder o; _tgt_decoder := _tgt_decoder o;
         _dataset := Some dataset |}).

(** A new object, before [__init__] has run. *)
Definition new_instance : instance :=
  {| _src_vocab := None; _tgt_vocab := None;
     _src_embedding := None; _tgt_embedding := None;
     _dataset_size := None; _data_spec := None;
     _src_decoder := None; _tgt_decoder := None; _dataset := None |}.

(** [PairedTextData(hparams)]: [__init__] stores the hyperparameters and
    calls [_make_data]. *)
Definition __init__ (hparams : data_hparams) : M unit := λ s,
  _make_data hparams {| heap := heap s; self := new_instance; trace := trace s |}.
End Data.
End PairedTextData.

(** ** Order on scalars *)

(** The comparison is asymmetric and its complement is transitive, as for
    numbers. *)
Definition strict_weak_order (R : Type) `{Scalar R} : Prop :=
  (∀ a b : R, rltb a b = true → rltb b a = false) ∧
  (∀ a b c : R, rltb a b = false → rltb b c = false → rltb a c = false).

(** ** Well-formed caches *)

Section CacheInvariants.
Context {R Bias : Type}.

(** The self-attention keys and values of a layer hold [B] batch items of
    [n] positions each. *)
Definition layer_ready (n B : nat) (lc : layer_cache R) : Prop :=
  length (self_keys lc) = B ∧ length (self_values lc) = B ∧
  has_length n (self_keys lc) ∧ has_length n (self_values lc).

(** Every block [l] of the decoder has an entry in the cache, with
    [f l] positions seen. *)
Definition cache_ready (hp : hparams R) (f : nat → nat) (B : nat)
    (c : cache R Bias) : Prop :=
  ∀ l, (l < num_blocks hp)%nat →
    ∃ lc, cache_layers c !! l = Some lc ∧ layer_ready (f l) B lc.

(** The self-attention key and value sequences of every layer have
    length [n]. *)
Definition cache_seq_length (hp : hparams R) (n : nat) (c : cache R Bias) : Prop :=
  ∀ l, (l < num_blocks hp)%nat →
    ∃ lc, cache_layers c !! l = Some lc ∧
          has_length n (self_keys lc) ∧ has_length n (self_values lc).

(** [tf.multinomial(logits, 1).squeeze(axis=1)], when it has a value, has
    one id for every row of logits. *)
Definition multinomial_shaped (net : network R Bias) : Prop :=
  ∀ step logits ids,
    multinomial_squeeze net step logits = Some ids → length ids = length logits.

(** What holds of the loop variables of [_greedy_decode] after [t]
    executions of the body, for a batch of [B] items. *)
Definition greedy_inv `{Scalar R} (hp : hparams R) (B : nat)
    (memory : list (list (list R))) (bias : Bias) (t : nat)
    (v : @TransformerDecoder.loop_vars R Bias) : Prop :=
  TransformerDecoder.lv_step v = Z.of_nat t ∧
  length (TransformerDecoder.lv_finished v) = B ∧
  length (TransformerDecoder.lv_next_id v) = B ∧
  has_length 1 (TransformerDecoder.lv_next_id v) ∧
  length (TransformerDecoder.lv_decoded_ids v) = B ∧
  has_length t (TransformerDecoder.lv_decoded_ids v) ∧
  length (TransformerDecoder.lv_log_prob v) = B ∧
  cache_ready hp (λ _, t) B (TransformerDecoder.lv_cache v) ∧
  cache_memory (TransformerDecoder.lv_cache v) = memory ∧
  cache_encoder_decoder_attention_bias (TransformerDecoder.lv_cache v) = bias.

(** The four tensors of a layer have [B] rows in the batch dimension. *)
Definition layer_rows (B : nat) (lc : layer_cache R) : Prop :=
  length (self_keys lc) = B ∧ length (self_values lc) = B ∧
  length (memory_keys lc) = B ∧ length (memory_values lc) = B.

(** Every tensor of the cache has [B] rows in the batch dimension. *)
Definition cache_rows (B : nat) (c : cache R Bias) : Prop :=
  length (cache_memory c) = B ∧
  map_Forall (λ _ lc, layer_rows B lc) (cache_layers c).
End CacheInvariants.

(** ** Greedy decoding against a beam of one *)

Section BeamInvariants.
Context {R : Type} `{Scalar R} {Bias : Type}.

(** The length penalty leaves every score as it is (the exponent is 0). *)
Definition penalty_off (alpha : R) : Prop :=
  ∀ (x : R) (n : nat), rdiv x (BeamSearch.length_penalty alpha n) = x.

(** Subtracting one number from two scalars and adding one number to both
    neither changes nor merges their order (exact arithmetic). *)
Definition shift_monotone : Prop :=
  ∀ c l a b : R, rltb (radd c (rsub a l)) (radd c (rsub b l)) = rltb a b.

(** One batch item of a decoding run: its start token, the tokens
    decoded for it so far and their log-probability. *)
Record item : Type := {
  it_start : Z;
  it_decoded : list Z;
  it_log_prob : R;
}.

(** The token of the item that the next step reads. *)
Definition it_last (x : item) : Z := default (it_start x) (last (it_decoded x)).

(** The newest token of the item is the end token. *)
Definition it_ended (eos : Z) (x : item) : bool :=
  bool_decide (last (it_decoded x) = Some eos).

(** The item as a live hypothesis of a beam, and as the hypothesis that
    the beam retired from row [parent]. *)
Definition it_hypothesis (x : item) : @BeamSearch.hypothesis R :=
  {| BeamSearch.hyp_tokens := it_start x :: it_decoded x;
     BeamSearch.hyp_log_prob := it_log_prob x |}.

Definition it_candidate (parent : nat) (x : item) : @BeamSearch.candidate R :=
  {| BeamSearch.cand_parent := parent;
     BeamSearch.cand_tokens := it_start x :: it_decoded x;
     BeamSearch.cand_log_prob := it_log_prob x;
     BeamSearch.cand_score := it_log_prob x |}.

(** The loop variables of greedy decoding and the state of a beam of
    width 1 hold the same [items]: an item whose newest token is the end
    token is finished in the one and retired in the other, any other
    item is unfinished and live. *)
Definition beam_sim (eos : Z) (items : list item)
    (v : @TransformerDecoder.loop_vars R Bias)
    (b : @BeamSearch.beam_state R Bias) : Prop :=
  TransformerDecoder.lv_finished v = map (it_ended eos) items ∧
  TransformerDecoder.lv_next_id v = map (λ x, [it_last x]) items ∧
  TransformerDecoder.lv_decoded_ids v = map it_decoded items ∧
  TransformerDecoder.lv_log_prob v = map it_log_prob items ∧
  BeamSearch.bs_alive b =
    map (λ x, if it_ended eos x then [] else [it_hypothesis x]) items ∧
  BeamSearch.bs_finished b =
    imap (λ k x, if it_ended eos x then [it_candidate k x] else []) items ∧
  BeamSearch.bs_step b = TransformerDecoder.lv_step v.

(** The item after a step that saw the logits [row] of the item: the
    arg-max token is appended and its log-probability added. *)
Definition it_step (x : item) (row : list R) : item :=
  {| it_start := it_start x;
     it_decoded := it_decoded x ++ [Z.of_nat (tf_argmax row)];
     it_log_prob :=
       radd (it_log_prob x)
         (rsub (default rzero (row !! tf_argmax row)) (logsumexp row)) |}.

(** The end token is nowhere in the sequence but at its end. *)
Definition eos_only_last (eos : Z) (row : list Z) : Prop :=
  eos ∉ take (length row - 1) row.
End BeamInvariants.

(** ** A concrete decoder

    Integer scalars, a vocabulary of three tokens (the end token is 2) and
    four channels, one block.  Normalisation, projections and dropout are
    identities, self-attention and the feed-forward network add nothing,
    and cross-attention at step [run] reads position [run] of the memory
    and adds the bias.  With the one-hot embedding matrix and tied output
    weights, the logits of a step are twice the one-hot vector of the last
    token plus the memory row of the step. *)

Module DecoderExample.
Import TransformerDecoder.

#[export] Instance Z_scalar : Scalar Z := {|
  rzero := 0;
  radd := Z.add;
  rsub := Z.sub;
  rmul := Z.mul;
  rdiv := Z.div;
  rltb := Z.ltb;
  rsqrt := λ n, Z.sqrt (Z.of_nat n);
  rpow := Z.pow;
  rofZ := λ z, z;
  logsumexp := foldr Z.add 0;
|}.

(** An attention bias: the value added to attended rows, and the batch
    size of the tensor. *)
Definition bias : Type := Z * nat.

Definition net : network Z bias := {|
  layer_normalize := λ _ v, v;
  dense_q := λ _ v, v;
  dense_k := λ _ v, v;
  dense_v := λ _ v, v;
  attention_kernel := λ run sc b _ _ _ q _ V,
    match sc with
    | EncdecAttention _ =>
        map (Z.add (from_option fst 0 b)) (default (replicate (length q) 0) (V !! run))
    | _ => replicate (length q) 0
    end;
  poswise_network := λ _ _ _ _ v, replicate (length v) 0;
  dropout_entry := λ _ _ _ _ _ _ v, v;
  position_signal := λ _ channels _, replicate channels 0;
  attention_bias_lower_triangle := λ _, (0, 1%nat);
  bias_batch_size := snd;
  bias_gather := λ indices b, (b.1, length indices);
  affine_bias := λ _, 0;
  dense_kernel := λ _, [];
  dense_bias := λ _, 0;
  is_train_mode := λ _, false;
  is_train_mode_py := λ mode, bool_decide (mode = Some "train"%string);
  multinomial_squeeze := λ _ _, None;
|}.

Definition hp : hparams Z := {|
  sampling_method := "argmax";
  multiply_embedding_mode := "sqrt_depth";
  share_embed_and_transform := true;
  transform_with_bias := false;
  num_heads := 1;
  num_blocks := 1;
  maximum_decode_length := 3;
  embedding_dropout := 0;
  attention_dropout := 0;
  residual_dropout := 0;
  num_units := 4;
  eos_idx := 2;
  bos_idx := 1;
  beam_width := 1;
  alpha := 0;
|}.

Definition embedding : embedding_matrix Z := {|
  emb_table := [[1; 0; 0; 0]; [0; 1; 0; 0]; [0; 0; 1; 0]];
  emb_dim := 4;
|}.

(** The encoder output for two source sentences.  The rows drive the
    first item to the end token at step 0 and to token 1 afterwards, the
    second item to token 0 at step 0 and to the end token at step 1. *)
Definition memory : list (list (list Z)) :=
  [ [[0; 0; 9; 0]; [0; 9; 0; 0]; [0; 9; 0; 0]];
    [[9; 0; 0; 0]; [0; 0; 9; 0]; [0; 9; 0; 0]] ].

Definition zero_bias : bias := (0, 2%nat).

(** A call of the beam search that is never reached by the greedy path. *)
Definition no_beam_search :
  (list (list Z) → Z → cache Z bias → result (list (list Z) * cache Z bias)) →
  list Z → Z → Z → nat → Z → cache Z bias → Z →
  result (list (list (list Z)) * list (list Z)) :=
  λ _ _ _ _ _ _ _ _, Raise ValueError.
End DecoderExample.

(** ** A concrete pipeline

    Collaborators with no content (the opaque values are [unit]) around a
    [MonoTextData.make_vocab] that builds the source vocabulary from the
    source's file and tokens. *)

Module PairedTextDataExample.
Import PairedTextData.

Definition default_string (s : option string) (d : string) : string :=
  match s with
  | Some s => if bool_decide (s = ""%string) then d else s
  | None => d
  end.

Definition MonoTextData_make_vocab (hparams : dataset_hparams)
    (h : gmap nat vocab) : nat * gmap nat vocab :=
  let a := fresh (dom h) in
  (a, <[a := {| vocab_filename := vocab_file hparams;
                vocab_bos_token := default_string (bos_token hparams) "<BOS>";
                vocab_eos_token := default_string (eos_token hparams) "<EOS>" |}]> h).

Definition source : dataset_hparams :=
  {| files := "train.src"; compression_type := None;
     vocab_file := "vocab.src"; bos_token := None; eos_token := None;
     embedding_init_file := None; data_name := "source";
     variable_utterance := false; vocab_share := false;
     embedding_init_share := false; processing_share := false |}.

(** A target sharing the vocabulary, with the default special tokens. *)
Definition target_shared : dataset_hparams :=
  {| files := "train.tgt"; compression_type := None;
     vocab_file := "vocab.tgt"; bos_token := None; eos_token := None;
     embedding_init_file := None; data_name := "target";
     variable_utterance := false; vocab_share := true;
     embedding_init_share := false; processing_share := false |}.

(** A target sharing the vocabulary, with a bos token of its own. *)
Definition target_own_bos : dataset_hparams :=
  {| files := "train.tgt"; compression_type := None;
     vocab_file := "vocab.tgt"; bos_token := Some "<s>"%string; eos_token := None;
     embedding_init_file := None; data_name := "target";
     variable_utterance := false; vocab_share := true;
     embedding_init_share := false; processing_share := false |}.

(** A target sharing the embedding initialisation but not the vocabulary. *)
Definition target_bad : dataset_hparams :=
  {| files := "train.tgt"; compression_type := None;
     vocab_file := "vocab.tgt"; bos_token := None; eos_token := None;
     embedding_init_file := None; data_name := "target";
     variable_utterance := false; vocab_share := false;
     embedding_init_share := true; processing_share := false |}.

Definition data (tgt : dataset_hparams) : data_hparams :=
  {| source_dataset := source; target_dataset := tgt;
     num_parallel_calls := 1; prefetch_buffer_size := 0;
     bucket_length_fn := None |}.

Definition empty_state : @pstate unit unit unit unit :=
  {| heap := ∅; self := new_instance; trace := [] |}.

Definition make_vocab (src tgt : dataset_hparams) :=
  @PairedTextData.make_vocab unit unit unit unit
    "<BOS>" "<EOS>" default_string MonoTextData_make_vocab src tgt.

Definition init (hparams : data_hparams) :=
  @__init__ unit unit unit unit unit unit unit
    "<BOS>" "<EOS>" default_string MonoTextData_make_vocab
    (λ _ _, None) (λ _ _, tt) (λ _ _, tt) (λ _ _, tt) (λ d _ _, (d, 0))
    (λ _ _ _ _, tt) (λ _ _, tt) (λ d _ _ _, d) (λ _ i, (tt, [], i))
    (λ _ _, tt) (λ d _, d) (λ _ _, tt) (λ d _ _, d) tt (λ _, tt)
    (λ d _ _, d) (λ d _, d) hparams.
End PairedTextDataExample.

(** ** The decoder's output tuple *)

Module TransformerDecoderOutput.

(** The fields of the named tuple [TransformerDecoderOutput]. *)
Definition _fields : list string := ["output_logits"; "sample_ids"]%string.

(** A class made by [collections.namedtuple], called with keyword
    arguments: a keyword that names no field, or a field left without a
    value, is a [TypeError]; the values are stored in the order of the
    fields. *)
Definition namedtuple_new {V} (field_names : list string)
    (kwargs : list (string * V)) : result (list V) :=
  if forallb (λ kw, bool_decide (kw.1 ∈ field_names)) kwargs then
    from_option Done (Raise TypeError)
      (mapM (λ f, (list_to_map kwargs : gmap string V) !! f) field_names)
  else Raise TypeError.

(** [tensor_shape.TensorShape(dims)], an unknown dimension being [None]. *)
Definition TensorShape : Type := list (option nat).

Inductive dtype : Type :=
  | float32
  | int32.

(** The property [output_size] of the decoder. *)
Definition output_size {R} (embedding : embedding_matrix R)
  : result (list TensorShape) :=
  namedtuple_new _fields
    [("output_logits"%string,
      [None; None; Some (TransformerDecoder._vocab_size embedding)]);
     ("sample_id"%string, [None; None])].

(** The method [output_dtype] of the decoder. *)
Definition output_dtype : result (list dtype) :=
  namedtuple_new _fields
    [("output_logits"%string, float32); ("sample_id"%string, int32)].
End TransformerDecoderOutput.

(** ** What holds of decoded sequences *)

Section DecodedInvariants.
Context {R : Type}.

(** Every token is an index into the vocabulary. *)
Definition in_vocabulary (embedding : embedding_matrix R)
    (ids : list (list Z)) : Prop :=
  Forall (Forall (λ z, 0 ≤ z < Z.of_nat (TransformerDecoder._vocab_size embedding)))
    ids.

(** An item is finished exactly when its sequence holds the end token. *)
Definition finished_iff_eos (eos : Z) (finished : list bool)
    (decoded_ids : list (list Z)) : Prop :=
  Forall2 (λ f row, f = true ↔ eos ∈ row) finished decoded_ids.
End DecodedInvariants.

(** ** Paired text data: the default configuration *)

Module PairedTextDataDefaults.
Import PairedTextData.

(** [_default_paired_text_dataset_hparams], given the dictionary that
    [_default_mono_text_dataset_hparams()] returns (the function lives in
    [texar/data/data/mono_text_data.py]): the source and the target
    dictionary. *)
Definition _default_paired_text_dataset_hparams (mono : dataset_hparams)
  : dataset_hparams * dataset_hparams :=
  let source_hparams :=
    {| files := files mono;
       compression_type := compression_type mono;
       vocab_file := vocab_file mono;
       bos_token := None;
       eos_token := eos_token mono;
       embedding_init_file := embedding_init_file mono;
       data_name := "source";
       variable_utterance := variable_utterance mono;
       vocab_share := vocab_share mono;
       embedding_init_share := embedding_init_share mono;
       processing_share := processing_share mono |} in
  let target_hparams :=
    {| files := files mono;
       compression_type := compression_type mono;
       vocab_file := vocab_file mono;
       bos_token := bos_token mono;
       eos_token := eos_token mono;
       embedding_init_file := embedding_init_file mono;
       data_name := "target";
       variable_utterance := variable_utterance mono;
       vocab_share := false;
       embedding_init_share := false;
       processing_share := false |} in
  (source_hparams, target_hparams).
End PairedTextDataDefaults.

(** ** Paired text data: what the object exposes *)

Module PairedTextDataAccessors.
Import PairedTextData.

Section Accessors.
Context {Embedding Dataset DataSpec Processor : Type}.
(** The attribute [utterance_cnt_tensor_name] of a decoder. *)
Variable utterance_cnt_tensor_name : Processor → string.

(** Reading an attribute of [self] that [_make_data] sets. *)
Definition getattr {A} (a : option A) : result A :=
  from_option Done (Raise AttributeError) a.

(** The property [vocab] *)
Definition vocab (o : @instance Embedding Dataset DataSpec Processor)
  : result (nat * nat) :=
  src_vocab ← getattr (_src_vocab o);
  tgt_vocab ← getattr (_tgt_vocab o);
  Done (src_vocab, tgt_vocab).

(** The property [dataset] *)
Definition dataset (o : @instance Embedding Dataset DataSpec Processor)
  : result Dataset :=
  getattr (_dataset o).

(** The property [source_utterance_cnt_name] *)
Definition source_utterance_cnt_name (hparams : data_hparams)
    (o : @instance Embedding Dataset DataSpec Processor) : result string :=
  if negb (variable_utterance (source_dataset hparams)) then Raise ValueError
  else
    src_decoder ← getattr (_src_decoder o);
    Done ("source_" +:+ utterance_cnt_tensor_name src_decoder).

(** The property [target_utterance_cnt_name] *)
Definition target_utterance_cnt_name (hparams : data_hparams)
    (o : @instance Embedding Dataset DataSpec Processor) : result string :=
  if negb (variable_utterance (target_dataset hparams)) then Raise ValueError
  else
    tgt_decoder ← getattr (_tgt_decoder o);
    Done ("target_" +:+ utterance_cnt_tensor_name tgt_decoder).

(** The property [utterance_cnt_name] *)
Definition utterance_cnt_name (hparams : data_hparams)
    (o : @instance Embedding Dataset DataSpec Processor) : result string :=
  if variable_utterance (source_dataset hparams) then
    src_decoder ← getattr (_src_decoder o);
    Done (utterance_cnt_tensor_name src_decoder)
  else if variable_utterance (target_dataset hparams) then
    tgt_decoder ← getattr (_tgt_decoder o);
    Done (utterance_cnt_tensor_name tgt_decoder)
  else Raise ValueError.
End Accessors.
End PairedTextDataAccessors.

(** ** Configurations at the edges

    The concrete decoder and the concrete pipeline with the settings the
    edge cases need. *)

Module EdgeExample.
Import TransformerDecoder DecoderExample.

(** The concrete decoder with a sampling method that the decoder does not
    know. *)
Definition hp_top_k : hparams Z := {|
  sampling_method := "top_k";
  multiply_embedding_mode := multiply_embedding_mode hp;
  share_embed_and_transform := share_embed_and_transform hp;
  transform_with_bias := transform_with_bias hp;
  num_heads := num_heads hp;
  num_blocks := num_blocks hp;
  maximum_decode_length := maximum_decode_length hp;
  embedding_dropout := embedding_dropout hp;
  attention_dropout := attention_dropout hp;
  residual_dropout := residual_dropout hp;
  num_units := num_units hp;
  eos_idx := eos_idx hp;
  bos_idx := bos_idx hp;
  beam_width := beam_width hp;
  alpha := alpha hp;
|}.

(** A cache dictionary without the entries of the blocks. *)
Definition cache_without_layers : cache Z bias := {|
  cache_memory := memory;
  cache_encoder_decoder_attention_bias := zero_bias;
  cache_layers := ∅;
|}.

(** The first source sentence of [memory] alone. *)
Definition memory_1 : list (list (list Z)) :=
  [ [[0; 0; 9; 0]; [0; 9; 0; 0]; [0; 9; 0; 0]] ].

(** The example's attention kernel, except that a cross-attention answers
    as if its bias were 7, whatever bias it is given. *)
Definition kernel_bias_7 : nat → scope → option bias → Z → nat → nat →
    list Z → list (list Z) → list (list Z) → list Z :=
  λ run sc b,
    attention_kernel net run sc
      match sc with
      | EncdecAttention _ => Some (7, 2%nat)
      | _ => b
      end.
End EdgeExample.

Module BeamExample.
Import TransformerDecoder DecoderExample.

(** An encoder output that drives both items to the end token at step 1:
    the first item through token 0, the second through token 1. *)
Definition memory_same_step : list (list (list Z)) :=
  [ [[9; 0; 0; 0]; [0; 0; 9; 0]; [0; 9; 0; 0]];
    [[0; 9; 0; 0]; [0; 0; 9; 0]; [0; 9; 0; 0]] ].
End BeamExample.

Module PairedEdgeExample.
Import PairedTextData PairedTextDataExample.

(** A target with the [data_name] of the source. *)
Definition target_same_name : dataset_hparams :=
  {| files := "train.tgt"; compression_type := None;
     vocab_file := "vocab.tgt"; bos_token := None; eos_token := None;
     embedding_init_file := None; data_name := "source";
     variable_utterance := false; vocab_share := false;
     embedding_init_share := false; processing_share := false |}.

(** A target that shares the processing, with a bos token of its own and
    a variable number of utterances. *)
Definition target_processing (bos : option string) : dataset_hparams :=
  {| files := "train.tgt"; compression_type := None;
     vocab_file := "vocab.tgt"; bos_token := bos; eos_token := None;
     embedding_init_file := None; data_name := "target";
     variable_utterance := true; vocab_share := false;
     embedding_init_share := false; processing_share := true |}.

(** An object whose decoders are set. *)
Definition with_decoders : @instance unit unit unit unit :=
  {| _src_vocab := Some 0%nat; _tgt_vocab := Some 1%nat;
     _src_embedding := Some None; _tgt_embedding := Some None;
     _dataset_size := Some 0; _data_spec := Some tt;
     _src_decoder := Some tt; _tgt_decoder := Some tt; _dataset := Some tt |}.

Definition utterance_cnt_tensor_name (d : unit) : string := "utterance_cnt".
End PairedEdgeExample.

(** * Properties *)

(** ** Paired text data: vocabulary sharing *)

Section PairedTextDataProperties.
Import PairedTextData.
Context {Embedding Dataset DataSpec DataSpecI Processor TranFn LengthFn : Type}.
Variable BOS_TOKEN EOS_TOKEN : string.
Variable default_string : option string → string → string.
Variable MonoTextData_make_vocab :
  dataset_hparams → gmap nat vocab → nat * gmap nat vocab.

Abbreviation pstate := (@pstate Embedding Dataset DataSpec Processor).
Abbreviation make_vocab :=
  (@make_vocab Embedding Dataset DataSpec Processor
     BOS_TOKEN EOS_TOKEN default_string MonoTextData_make_vocab).
Abbreviation resolved_tgt_tokens :=
  (resolved_tgt_tokens BOS_TOKEN EOS_TOKEN default_string).

Abbreviation returns_live_vocab :=
  (returns_live_vocab MonoTextData_make_vocab).

Lemma Vocab_fresh (filename bos eos : string) (s : pstate) (a : nat) :
  is_Some (heap s !! a) →
  ∃ a' s', Vocab filename bos eos s = (Done a', s') ∧ a' ≠ a ∧
    heap s' !! a = heap s !! a ∧
    heap s' !! a' = Some {| vocab_filename := filename;
                            vocab_bos_token := bos;
                            vocab_eos_token := eos |}.
Proof.
  intros Ha. eexists _, _. split; [reflexivity|]. simpl.
  assert (fresh (dom (heap s)) ≠ a) as Hne.
  { intros <-. apply elem_of_dom in Ha. by apply is_fresh in Ha. }
  split; [done|]. split.
  - by rewrite lookup_insert_ne.
  - by rewrite lookup_insert_eq.
Qed.

(** C9. With [vocab_share] set, [make_vocab] returns the source vocabulary
    object itself as the target vocabulary exactly when the resolved
    target bos and eos tokens equal those of the source vocabulary; when
    they differ the target vocabulary is another object, constructed from
    the source's vocabulary file with the target's special tokens. *)
Theorem make_vocab_share_identity
    (src_hparams tgt_hparams : dataset_hparams) (s : pstate) :
  returns_live_vocab →
  vocab_share tgt_hparams = true →
  ∃ src_vocab tgt_vocab s' sv,
    make_vocab src_hparams tgt_hparams s = (Done (src_vocab, tgt_vocab), s') ∧
    heap s' !! src_vocab = Some sv ∧
    let tgt_bos_token := (resolved_tgt_tokens src_hparams tgt_hparams).1 in
    let tgt_eos_token := (resolved_tgt_tokens src_hparams tgt_hparams).2 in
    (tgt_vocab = src_vocab ↔
       tgt_bos_token = vocab_bos_token sv ∧ tgt_eos_token = vocab_eos_token sv) ∧
    (tgt_vocab ≠ src_vocab →
       heap s' !! tgt_vocab =
         Some {| vocab_filename := vocab_file src_hparams;
                 vocab_bos_token := tgt_bos_token;
                 vocab_eos_token := tgt_eos_token |}).
Proof.
  intros Hlive Hshare.
  unfold PairedTextData.make_vocab, call_MonoTextData_make_vocab.
  unfold mbind, M_bind at 1. simpl.
  specialize (Hlive src_hparams (heap s)).
  destruct (MonoTextData_make_vocab src_hparams (heap s)) as [a h] eqn:Hmk.
  simpl in Hlive. destruct Hlive as [sv Hsv].
  destruct (resolved_tgt_tokens src_hparams tgt_hparams) as [b e] eqn:Hres.
  rewrite Hshare. unfold mbind, M_bind, vocab_at, mret, M_ret. simpl.
  rewrite Hsv.
  assert (fresh (dom h) ≠ a) as Hne.
  { intros <-. assert (is_Some (h !! fresh (dom h))) as Hin by eauto.
    apply elem_of_dom in Hin. by apply is_fresh in Hin. }
  destruct (bool_decide (b = vocab_bos_token sv)) eqn:Hb;
    destruct (bool_decide (e = vocab_eos_token sv)) eqn:He; simpl;
    [ apply bool_decide_eq_true in Hb, He;
      eexists a, a, _, sv; split; [reflexivity|]; simpl;
      repeat split; try done; intros Hc; by destruct Hc
    | eexists a, (fresh (dom h)), _, sv; split; [reflexivity|]; simpl;
      rewrite lookup_insert_ne by done; rewrite lookup_insert_eq;
      apply bool_decide_eq_false in He
    | eexists a, (fresh (dom h)), _, sv; split; [reflexivity|]; simpl;
      rewrite lookup_insert_ne by done; rewrite lookup_insert_eq;
      apply bool_decide_eq_false in Hb
    | eexists a, (fresh (dom h)), _, sv; split; [reflexivity|]; simpl;
      rewrite lookup_insert_ne by done; rewrite lookup_insert_eq;
      apply bool_decide_eq_false in Hb ];
    (split; [done|]; split; [|done]; split; [done|]; by intros [? ?]).
Qed.
End PairedTextDataProperties.

(** ** Paired text data: construction *)

Section PairedTextDataConstruction.
Import PairedTextData.
Context {Embedding Dataset DataSpec DataSpecI Processor TranFn LengthFn : Type}.
Variable BOS_TOKEN EOS_TOKEN : string.
Variable default_string : option string → string → string.
Variable MonoTextData_make_vocab :
  dataset_hparams → gmap nat vocab → nat * gmap nat vocab.
Variable MonoTextData_make_embedding :
  dataset_hparams → vocab → option Embedding.
Variable Embedding_new : vocab → dataset_hparams → Embedding.
Variable tf_data_TextLineDataset : string → option string → Dataset.
Variable tf_data_Dataset_zip : Dataset → Dataset → Dataset.
Variable _shuffle_dataset : Dataset → data_hparams → string → Dataset * Z.
Variable _DataSpec :
  Dataset → Z → nat * nat → option Embedding * option Embedding → DataSpec.
Variable get_ith_data_spec : DataSpec → nat → DataSpecI.
Variable set_ith_data_spec : DataSpec → nat → DataSpecI → nat → DataSpec.
Variable MonoTextData_make_processor :
  dataset_hparams → DataSpecI → Processor * list Processor * DataSpecI.
Variable make_combined_transformation :
  list (list Processor) → string * string → TranFn.
Variable add_spec : DataSpec → string * string → DataSpec.
Variable data_spec_decoder : DataSpec → nat → Processor.
Variable dataset_map : Dataset → TranFn → Z → Dataset.
Variable default_length_fn : LengthFn.
Variable get_function : string → LengthFn.
Variable _make_batch : Dataset → data_hparams → LengthFn → Dataset.
Variable dataset_prefetch : Dataset → Z → Dataset.

Abbreviation init :=
  (__init__ BOS_TOKEN EOS_TOKEN default_string MonoTextData_make_vocab
     MonoTextData_make_embedding Embedding_new tf_data_TextLineDataset
     tf_data_Dataset_zip _shuffle_dataset _DataSpec get_ith_data_spec
     set_ith_data_spec MonoTextData_make_processor
     make_combined_transformation add_spec data_spec_decoder dataset_map
     default_length_fn get_function _make_batch dataset_prefetch).

(** C10. Constructing [PairedTextData] with [vocab_share=False] and
    [embedding_init_share=True] on the target side raises [ValueError],
    and does so before any dataset call: the trace of dataset calls is
    unchanged and [self._dataset] is not set. *)
Theorem init_embedding_share_needs_vocab_share
    (hparams : data_hparams)
    (s : @pstate Embedding Dataset DataSpec Processor) :
  vocab_share (target_dataset hparams) = false →
  embedding_init_share (target_dataset hparams) = true →
  ∃ s', init hparams s = (Raise ValueError, s') ∧
        trace s' = trace s ∧
        _dataset (self s') = None.
Proof.
  intros Hv He.
  unfold __init__, _make_data, PairedTextData.make_vocab,
    call_MonoTextData_make_vocab.
  unfold mbind, M_bind at 1. unfold mbind, M_bind at 1. simpl.
  destruct (MonoTextData_make_vocab _ _) as [a h].
  destruct (resolved_tgt_tokens _ _ _ _ _) as [b e].
  rewrite Hv, He. simpl.
  eexists. split; [reflexivity|]. done.
Qed.
End PairedTextDataConstruction.

(** ** Paired text data on the concrete pipeline *)

Section PairedTextDataExamples.
Import PairedTextData PairedTextDataExample.

Lemma example_returns_live_vocab : returns_live_vocab MonoTextData_make_vocab.
Proof.
  intros hparams h. unfold MonoTextData_make_vocab. simpl.
  rewrite lookup_insert_eq. eauto.
Qed.

(** With the same special tokens the two vocabularies are one object. *)
Example make_vocab_same_tokens :
  (make_vocab source target_shared empty_state).1 = Done (0%nat, 0%nat).
Proof. vm_compute. reflexivity. Qed.

(** With a bos token of its own the target gets a second object. *)
Example make_vocab_other_tokens :
  (make_vocab source target_own_bos empty_state).1 = Done (0%nat, 1%nat).
Proof. vm_compute. reflexivity. Qed.

Lemma make_vocab_share_identity_witness :
  ∃ src_vocab tgt_vocab s' sv,
    make_vocab source target_own_bos empty_state
      = (Done (src_vocab, tgt_vocab), s') ∧
    heap s' !! src_vocab = Some sv ∧
    (tgt_vocab = src_vocab ↔
       "<s>"%string = vocab_bos_token sv ∧ "<EOS>"%string = vocab_eos_token sv) ∧
    (tgt_vocab ≠ src_vocab →
       heap s' !! tgt_vocab =
         Some {| vocab_filename := "vocab.src";
                 vocab_bos_token := "<s>";
                 vocab_eos_token := "<EOS>" |}).
Proof.
  exact (make_vocab_share_identity "<BOS>" "<EOS>" default_string
           MonoTextData_make_vocab source target_own_bos empty_state
           example_returns_live_vocab eq_refl).
Defined.

Lemma init_embedding_share_needs_vocab_share_witness :
  ∃ s', init (data target_bad) empty_state = (Raise ValueError, s') ∧
        trace s' = [] ∧ _dataset (self s') = None.
Proof.
  apply (init_embedding_share_needs_vocab_share); reflexivity.
Defined.

(** The same data with the vocabulary shared is built through. *)
Example init_shared_builds_dataset :
  let r := init (data target_shared) empty_state in
  r.1 = Done tt ∧ _dataset (self r.2) = Some tt ∧
  trace r.2 = [MakeBatch; DatasetMap; ShuffleDataset; DatasetZip;
               TextLineDataset "train.tgt"; TextLineDataset "train.src"].
Proof. vm_compute. repeat split. Qed.
End PairedTextDataExamples.

(** ** Shapes of tensors *)

Section Shapes.
Context {R : Type} `{Scalar R}.

Lemma lens_map_map {A B} (f : A → B) (x : list (list A)) :
  map length (map (map f) x) = map length x.
Proof.
  induction x as [|s x IH]; simpl; [done|]. by rewrite length_map, IH.
Qed.

Lemma lens_imap {A B} (g : nat → list A → list B) (x : list (list A)) :
  (∀ b s, length (g b s) = length s) →
  map length (imap g x) = map length x.
Proof.
  revert g. induction x as [|s x IH]; intros g Hg; simpl; [done|].
  rewrite Hg. f_equal. apply IH. intros b s'. apply Hg.
Qed.

Lemma lens_zip_with {A B C} (f : A → B → C) (x : list (list A)) (y : list (list B)) :
  map length y = map length x →
  map length (zip_with (zip_with f) x y) = map length x.
Proof.
  revert y. induction x as [|s x IH]; intros [|t y] Hy; simpl in *;
    try done.
  injection Hy as Hst Hy. rewrite length_zip_with, Hst, Nat.min_id.
  f_equal. by apply IH.
Qed.

Lemma lens_per_position (f : list R → list R) (x : list (list (list R))) :
  map length (per_position f x) = map length x.
Proof. apply lens_map_map. Qed.

Lemma lens_tensor3_add (x y : list (list (list R))) :
  map length y = map length x →
  map length (tensor3_add x y) = map length x.
Proof. apply lens_zip_with. Qed.

Lemma lens_tensor3_scale (x : list (list (list R))) (c : R) :
  map length (tensor3_scale x c) = map length x.
Proof. apply lens_map_map. Qed.

Lemma has_length_lens {A} (n : nat) (x : list (list A)) :
  has_length n x ↔ map length x = replicate (length x) n.
Proof.
  unfold has_length. induction x as [|s x IH]; simpl.
  - split; [done|]. intros _. constructor.
  - rewrite Forall_cons, IH. split.
    + intros [-> ->]. done.
    + intros Heq. injection Heq as -> Heq. done.
Qed.

Lemma has_length_of_lens {A B} (n : nat) (x : list (list A)) (y : list (list B)) :
  map length y = map length x → has_length n x → has_length n y.
Proof.
  intros Hl Hx. apply has_length_lens. rewrite Hl.
  apply has_length_lens in Hx. rewrite Hx.
  f_equal. rewrite <- (length_map length y), Hl. by rewrite length_map.
Qed.

Lemma lens_length {A B} (x : list (list A)) (y : list (list B)) :
  map length y = map length x → length y = length x.
Proof.
  intros Hl. by rewrite <- (length_map length y), Hl, length_map.
Qed.

Lemma lens_add_broadcast (x : list (list (list R))) (p : list (list R)) (n : nat) :
  has_length n x → (n ≤ length p)%nat →
  map length (tensor3_add_broadcast x p) = map length x.
Proof.
  unfold tensor3_add_broadcast, has_length. intros Hx Hp.
  induction Hx as [|s x Hs Hx IH]; simpl; [done|].
  rewrite IH. f_equal. unfold vec_add. rewrite length_zip_with. lia.
Qed.

Lemma has_length_last_column {A} (ids : list (list A)) :
  Forall (λ row, row ≠ []) ids → has_length 1 (last_column ids).
Proof.
  unfold has_length, last_column. intros Hne.
  apply Forall_map. eapply Forall_impl; [exact Hne|].
  intros row Hrow. simpl. rewrite length_drop.
  destruct row; [done|]. simpl. lia.
Qed.

Lemma tf_squeeze_axis1_length1 {A} (x : list (list A)) :
  has_length 1 x →
  ∃ y, tf_squeeze_axis1 x = Done y ∧ x = map (λ a, [a]) y.
Proof.
  unfold has_length, tf_squeeze_axis1. induction 1 as [|s x Hs Hx IH].
  - by exists [].
  - destruct IH as (y & Hy & ->).
    destruct s as [|a [|? ?]]; try done.
    exists (a :: y). split; [|done]. simpl.
    destruct (mapM _ (map _ y)) as [y'|] eqn:Hm; simpl in *; [|done].
    by injection Hy as ->.
Qed.
End Shapes.

(** ** The decoder stack *)

Section StackProperties.
Import TransformerDecoder.
Context {R : Type} `{Scalar R} {Bias : Type}.
Variable net : network R Bias.
Variable hp : hparams R.

Lemma lens_dropout run sc rate training (x : list (list (list R))) :
  map length (tf_layers_dropout net run sc rate training x) = map length x.
Proof.
  unfold tf_layers_dropout. destruct training; [|done].
  apply lens_imap. intros b s. apply length_imap.
Qed.

Lemma lens_attend run sc bias rate (Q K V : list (list (list R))) :
  map length (attend net run sc bias rate Q K V) = map length Q.
Proof. apply lens_imap. intros b s. apply length_imap. Qed.

Lemma multihead_attention_no_cache run sc queries memory bias rate :
  ∃ out, multihead_attention net run sc queries memory bias rate None
           = Done (out, None) ∧
         map length out = map length queries.
Proof.
  unfold multihead_attention. destruct memory.
  - eexists. split; [reflexivity|].
    by rewrite lens_attend, lens_per_position.
  - eexists. split; [reflexivity|].
    by rewrite lens_attend, lens_per_position.
Qed.

Lemma has_length_concat {A} (n m : nat) (a b : list (list A)) :
  length a = length b → has_length n a → has_length m b →
  ∃ ab, tf_concat_axis1 a b = Done ab ∧ length ab = length b ∧
        has_length (n + m) ab.
Proof.
  intros Hlen Ha Hb. unfold tf_concat_axis1.
  rewrite decide_True by done. eexists. split; [reflexivity|].
  split; [rewrite length_zip_with; lia|].
  unfold has_length in *. revert b Hlen Hb.
  induction Ha as [|s a Hs Ha IH]; intros [|t b] Hlen Hb; simpl in *;
    try done.
  apply Forall_cons in Hb as [Ht Hb]. constructor.
  - rewrite length_app. lia.
  - apply IH; [lia|done].
Qed.

Lemma multihead_attention_self_cache run sc queries bias rate lc n m :
  layer_ready n (length queries) lc → has_length m queries →
  ∃ out lc',
    multihead_attention net run sc queries None bias rate (Some lc)
      = Done (out, Some lc') ∧
    map length out = map length queries ∧
    layer_ready (n + m) (length queries) lc' ∧
    memory_keys lc' = memory_keys lc ∧ memory_values lc' = memory_values lc.
Proof.
  intros (Hk & Hv & Hkn & Hvn) Hq. unfold multihead_attention.
  assert (map length (per_position (dense_k net sc) queries) = map length queries)
    as HK by apply lens_per_position.
  assert (map length (per_position (dense_v net sc) queries) = map length queries)
    as HV by apply lens_per_position.
  destruct (has_length_concat n m (self_keys lc)
              (per_position (dense_k net sc) queries)) as (K & -> & HKl & HKn);
    [by rewrite (lens_length _ _ HK) | done
    | by apply (has_length_of_lens _ _ _ HK) |].
  destruct (has_length_concat n m (self_values lc)
              (per_position (dense_v net sc) queries)) as (V & -> & HVl & HVn);
    [by rewrite (lens_length _ _ HV) | done
    | by apply (has_length_of_lens _ _ _ HV) |].
  simpl. eexists _, _. split; [reflexivity|]. split.
  - by rewrite lens_attend, lens_per_position.
  - rewrite (lens_length _ _ HK) in HKl. rewrite (lens_length _ _ HV) in HVl.
    by repeat split.
Qed.

Lemma cache_ready_ext (f g : nat → nat) B (c : cache R Bias) :
  (∀ l, (l < num_blocks hp)%nat → f l = g l) →
  cache_ready hp f B c → cache_ready hp g B c.
Proof.
  intros Hfg Hc l Hl. destruct (Hc l Hl) as (lc & ? & ?).
  exists lc. by rewrite <- Hfg.
Qed.

#[local] Arguments multihead_attention : simpl never.
#[local] Arguments tf_layers_dropout : simpl never.
#[local] Arguments tensor3_add : simpl never.
#[local] Arguments per_position : simpl never.

Lemma lens_poswise run i (x : list (list (list R))) :
  map length (imap (λ b, imap (λ p, poswise_network net run i b p)) x)
    = map length x.
Proof. apply lens_imap. intros b s. apply length_imap. Qed.

(** The sub-layers after self-attention keep the shape. *)
Lemma stack_layer_tail run encoder_output eb mode i
    (x : list (list (list R))) (c : option (cache R Bias)) :
  ∃ x',
    (x ← match encoder_output with
         | Some m =>
             '(encdec_output, _) ←
               multihead_attention net run (EncdecAttention i)
                 (per_position (layer_normalize net (EncdecAttention i)) x)
                 (Some m) eb (attention_dropout hp) None;
             Done (tensor3_add x
               (tf_layers_dropout net run (EncdecAttention i)
                  (residual_dropout hp) (is_train_mode net mode) encdec_output))
         | None => Done x
         end;
     Done (tensor3_add x
       (tf_layers_dropout net run (Poswise i) (residual_dropout hp)
          (is_train_mode net mode)
          (imap (λ b, imap (λ p, poswise_network net run i b p))
             (per_position (layer_normalize net (Poswise i)) x))), c))
      = Done (x', c) ∧
    map length x' = map length x.
Proof.
  assert (∀ y : list (list (list R)),
    map length (tensor3_add y
      (tf_layers_dropout net run (Poswise i) (residual_dropout hp)
         (is_train_mode net mode)
         (imap (λ b, imap (λ p, poswise_network net run i b p))
            (per_position (layer_normalize net (Poswise i)) y))))
    = map length y) as Hpos.
  { intros y. apply lens_tensor3_add.
    by rewrite lens_dropout, lens_poswise, lens_per_position. }
  destruct encoder_output as [m|]; cbn.
  - destruct (multihead_attention_no_cache run (EncdecAttention i)
      (per_position (layer_normalize net (EncdecAttention i)) x)
      (Some m) eb (attention_dropout hp)) as (out & -> & Hout).
    cbn. eexists. split; [reflexivity|]. rewrite Hpos.
    apply lens_tensor3_add. by rewrite lens_dropout, Hout, lens_per_position.
  - eexists. split; [reflexivity|]. apply Hpos.
Qed.

Lemma stack_layer_no_cache run encoder_output sb eb mode i
    (x : list (list (list R))) :
  ∃ x', stack_layer net hp run encoder_output sb eb mode i (x, None)
          = Done (x', None) ∧
        map length x' = map length x.
Proof.
  unfold stack_layer. cbn.
  destruct (multihead_attention_no_cache run (SelfAttention i)
    (per_position (layer_normalize net (SelfAttention i)) x)
    None sb (attention_dropout hp)) as (out & -> & Hout).
  cbn.
  destruct (stack_layer_tail run encoder_output eb mode i
    (tensor3_add x (tf_layers_dropout net run (SelfAttention i)
       (residual_dropout hp) (is_train_mode net mode) out)) None)
    as (x' & -> & Hx').
  eexists. split; [reflexivity|]. rewrite Hx'.
  apply lens_tensor3_add. by rewrite lens_dropout, Hout, lens_per_position.
Qed.

Lemma stack_layer_cache run encoder_output sb eb mode i
    (x : list (list (list R))) (c : cache R Bias) f m :
  (i < num_blocks hp)%nat →
  cache_ready hp f (length x) c → has_length m x →
  ∃ x' c',
    stack_layer net hp run encoder_output sb eb mode i (x, Some c)
      = Done (x', Some c') ∧
    map length x' = map length x ∧
    cache_ready hp (λ l, if decide (l = i) then (f l + m)%nat else f l)
      (length x) c' ∧
    cache_memory c' = cache_memory c ∧
    cache_encoder_decoder_attention_bias c'
      = cache_encoder_decoder_attention_bias c ∧
    (cache_rows (length x) c → cache_rows (length x) c').
Proof.
  intros Hi Hc Hx. unfold stack_layer. cbn.
  destruct (Hc i Hi) as (lc & Hlc & Hready). rewrite Hlc. cbn.
  set (q := per_position (layer_normalize net (SelfAttention i)) x).
  assert (map length q = map length x) as Hq by apply lens_per_position.
  destruct (multihead_attention_self_cache run (SelfAttention i) q sb
              (attention_dropout hp) lc (f i) m)
    as (out & lc' & -> & Hout & Hlc' & Hmk & Hmv).
  { by rewrite (lens_length _ _ Hq). }
  { by apply (has_length_of_lens _ _ _ Hq). }
  cbn.
  match goal with
  | |- context [Done (_, Some ?c0)] =>
      destruct (stack_layer_tail run encoder_output eb mode i
        (tensor3_add x (tf_layers_dropout net run (SelfAttention i)
           (residual_dropout hp) (is_train_mode net mode) out)) (Some c0))
        as (x' & -> & Hx')
  end.
  eexists _, _. split; [reflexivity|]. split.
  { rewrite Hx'. apply lens_tensor3_add. by rewrite lens_dropout, Hout, Hq. }
  rewrite (lens_length _ _ Hq) in Hlc'.
  split; [|split; [done|split; [done|]]].
  - intros l Hl. cbn. destruct (decide (l = i)) as [->|Hne].
    + exists lc'. rewrite lookup_insert_eq. by split.
    + rewrite lookup_insert_ne by done. apply Hc, Hl.
  - intros [Hmem Hrows]. split; [done|]. cbn.
    apply map_Forall_insert_2; [|done].
    destruct Hlc' as (Hk & Hv & _).
    destruct (Hrows i lc Hlc) as (_ & _ & Hmk' & Hmv').
    unfold layer_rows. by rewrite Hmk, Hmv.
Qed.

#[local] Arguments stack_layer : simpl never.

Lemma for_range_no_cache run encoder_output sb eb mode count start
    (x : list (list (list R))) :
  ∃ x', for_range (stack_layer net hp run encoder_output sb eb mode)
          start count (x, None) = Done (x', None) ∧
        map length x' = map length x.
Proof.
  revert start x. induction count as [|count IH]; intros start x; cbn.
  - by exists x.
  - destruct (stack_layer_no_cache run encoder_output sb eb mode start x)
      as (x1 & -> & Hx1). cbn.
    destruct (IH (S start) x1) as (x' & -> & Hx').
    exists x'. split; [done|]. by rewrite Hx'.
Qed.

Lemma for_range_cache run encoder_output sb eb mode n m count start
    (x : list (list (list R))) (c : cache R Bias) :
  (start + count ≤ num_blocks hp)%nat →
  cache_ready hp (λ l, if decide (l < start)%nat then (n + m)%nat else n)
    (length x) c →
  has_length m x →
  ∃ x' c',
    for_range (stack_layer net hp run encoder_output sb eb mode)
      start count (x, Some c) = Done (x', Some c') ∧
    map length x' = map length x ∧
    cache_ready hp
      (λ l, if decide (l < start + count)%nat then (n + m)%nat else n)
      (length x) c' ∧
    cache_memory c' = cache_memory c ∧
    cache_encoder_decoder_attention_bias c'
      = cache_encoder_decoder_attention_bias c ∧
    (cache_rows (length x) c → cache_rows (length x) c').
Proof.
  revert start x c. induction count as [|count IH]; intros start x c Hle Hc Hx; cbn.
  - exists x, c. split; [done|]. split; [done|]. split; [|done].
    eapply cache_ready_ext; [|exact Hc]. intros l _. cbn.
    by replace (start + 0)%nat with start by lia.
  - destruct (stack_layer_cache run encoder_output sb eb mode start x c
      (λ l, if decide (l < start)%nat then (n + m)%nat else n) m)
      as (x1 & c1 & -> & Hx1 & Hc1 & Hm1 & Hb1 & Hr1); [lia|exact Hc|exact Hx|].
    cbn. destruct (IH (S start) x1 c1)
      as (x' & c' & -> & Hx' & Hc' & Hm' & Hb' & Hr').
    + lia.
    + rewrite (lens_length _ _ Hx1).
      eapply cache_ready_ext; [|exact Hc1]. intros l _. cbn.
      repeat case_decide; lia.
    + by apply (has_length_of_lens _ _ _ Hx1).
    + exists x', c'. split; [done|]. split; [by rewrite Hx'|].
      rewrite (lens_length _ _ Hx1) in Hc', Hr'.
      split; [|split; [by rewrite Hm'|split; [by rewrite Hb'|by auto]]].
      eapply cache_ready_ext; [|exact Hc']. intros l _. cbn.
      repeat case_decide; lia.
Qed.

#[local] Arguments for_range : simpl never.

Lemma stack_no_cache run (inputs : list (list (list R)))
    encoder_output sb eb mode :
  ∃ out,
    _self_attention_stack net hp run inputs encoder_output (Some sb) eb None mode
      = Done (out, None) ∧
    map length out = map length inputs.
Proof.
  unfold _self_attention_stack. cbn.
  destruct (for_range_no_cache run encoder_output (Some sb) eb mode
    (num_blocks hp) 0
    (tf_layers_dropout net run Top (embedding_dropout hp)
       (is_train_mode net mode) inputs)) as (x & -> & Hx).
  cbn. eexists. split; [reflexivity|].
  by rewrite lens_per_position, Hx, lens_dropout.
Qed.

Lemma stack_cache run (inputs : list (list (list R))) encoder_output sb eb
    (c : cache R Bias) mode n m :
  cache_ready hp (λ _, n) (length inputs) c → has_length m inputs →
  ∃ out c',
    _self_attention_stack net hp run inputs encoder_output sb eb (Some c) mode
      = Done (out, Some c') ∧
    map length out = map length inputs ∧
    cache_ready hp (λ _, (n + m)%nat) (length inputs) c' ∧
    cache_memory c' = cache_memory c ∧
    cache_encoder_decoder_attention_bias c'
      = cache_encoder_decoder_attention_bias c ∧
    (cache_rows (length inputs) c → cache_rows (length inputs) c').
Proof.
  intros Hc Hx. unfold _self_attention_stack. cbn.
  set (x0 := tf_layers_dropout net run Top (embedding_dropout hp)
               (is_train_mode net mode) inputs).
  assert (map length x0 = map length inputs) as Hx0 by apply lens_dropout.
  destruct (for_range_cache run encoder_output sb
    (Some (cache_encoder_decoder_attention_bias c)) mode n m
    (num_blocks hp) 0 x0 c) as (x & c' & -> & Hx' & Hc' & Hm & Hb & Hr).
  - lia.
  - rewrite (lens_length _ _ Hx0).
    eapply cache_ready_ext; [|exact Hc]. intros l _. cbn.
    case_decide; [lia|done].
  - by apply (has_length_of_lens _ _ _ Hx0).
  - cbn. eexists _, _. split; [reflexivity|].
    split; [by rewrite lens_per_position, Hx', Hx0|].
    rewrite (lens_length _ _ Hx0) in Hc', Hr.
    split; [|done].
    eapply cache_ready_ext; [|exact Hc']. intros l Hl. cbn.
    case_decide; [done|lia].
Qed.
End StackProperties.

(** ** The incremental step function *)

Section StepProperties.
Import TransformerDecoder.
Context {R : Type} `{Scalar R} {Bias : Type}.
Variable net : network R Bias.
Variable hp : hparams R.
Variable embedding : embedding_matrix R.

#[local] Arguments _self_attention_stack : simpl never.
#[local] Arguments tf_squeeze_axis1 : simpl never.

Lemma lens_embedding_lookup (ids : list (list Z)) :
  map length (tf_nn_embedding_lookup embedding ids) = map length ids.
Proof. apply lens_map_map. Qed.

Lemma lens_output_layer (x : list (list (list R))) :
  map length (output_layer net hp embedding x) = map length x.
Proof.
  unfold output_layer, _build_output_layer.
  destruct (share_embed_and_transform hp); apply lens_per_position.
Qed.

(** Every row of logits has one entry per vocabulary item. *)
Lemma output_layer_vocab (x : list (list (list R))) (b i : nat) s row :
  output_layer net hp embedding x !! b = Some s → s !! i = Some row →
  length row = _vocab_size embedding.
Proof.
  unfold output_layer, _build_output_layer, per_position, _vocab_size.
  intros Hs Hrow.
  destruct (share_embed_and_transform hp);
    apply list_lookup_fmap_Some in Hs as (s0 & -> & _);
    apply list_lookup_fmap_Some in Hrow as (h & -> & _).
  - destruct (transform_with_bias hp).
    + by rewrite length_imap, length_map.
    + by rewrite length_map.
  - by rewrite length_map, length_seq.
Qed.

Lemma position_embedder_length (n channels : nat) :
  length (position_embedder net n channels) = n.
Proof. unfold position_embedder. by rewrite length_map, length_seq. Qed.

(** One call of the step function on a well-formed cache: it returns,
    every layer's keys and values grow by one position, and the entries
    ['memory'] and ['encoder_decoder_attention_bias'] are as before. *)
Lemma step_fn_ok (max_length : Z) (ids : list (list Z)) (step : Z)
    (c : cache R Bias) (n : nat) :
  cache_ready hp (λ _, n) (length ids) c →
  Forall (λ row, row ≠ []) ids →
  0 ≤ step < max_length →
  ∃ logits c',
    _symbols_to_logits_fn net hp embedding
      (_prepare_tokens_to_embeds embedding) max_length ids step c
      = Done (logits, c') ∧
    length logits = length ids ∧
    cache_ready hp (λ _, S n) (length ids) c' ∧
    cache_memory c' = cache_memory c ∧
    cache_encoder_decoder_attention_bias c'
      = cache_encoder_decoder_attention_bias c ∧
    (cache_rows (length ids) c → cache_rows (length ids) c') ∧
    Forall (λ row, length row = _vocab_size embedding) logits.
Proof.
  intros Hc Hne Hstep. unfold _symbols_to_logits_fn.
  set (ids1 := last_column ids).
  assert (has_length 1 ids1) as Hids1 by by apply has_length_last_column.
  assert (length ids1 = length ids) as Hlen1
    by (unfold ids1, last_column; apply length_map).
  set (slice := take 1 (drop (Z.to_nat step)
    (position_embedder net (Z.to_nat (max_length)) (emb_dim embedding)))).
  assert (length slice = 1%nat) as Hslice.
  { unfold slice. rewrite length_take, length_drop, position_embedder_length. lia. }
  assert (∃ inputs,
    (if String.eqb (multiply_embedding_mode hp) "sqrt_depth" then
       Done (tensor3_scale (_prepare_tokens_to_embeds embedding ids1)
               (rsqrt (emb_dim embedding)))
     else
       _ ← py_assert NotImplementedError_truthy;
       Done (_prepare_tokens_to_embeds embedding ids1)) = Done inputs ∧
    map length inputs = map length ids1) as (inputs & -> & Hinputs).
  { destruct (String.eqb _ _); cbn; eexists; (split; [reflexivity|]).
    - by rewrite lens_tensor3_scale, lens_embedding_lookup.
    - by rewrite lens_embedding_lookup. }
  cbn.
  set (x := tensor3_add_broadcast inputs slice).
  assert (map length x = map length ids1) as Hx.
  { unfold x. rewrite (lens_add_broadcast _ _ 1); [done| |lia].
    by apply (has_length_of_lens _ _ _ Hinputs). }
  assert (length x = length ids) as Hxl
    by by rewrite (lens_length _ _ Hx).
  destruct (stack_cache net hp (Z.to_nat step) x (Some (cache_memory c))
    None None c None n 1) as (out & c' & -> & Hout & Hc' & Hm & Hb & Hr).
  { by rewrite Hxl. }
  { by apply (has_length_of_lens _ _ _ Hx). }
  cbn.
  assert (map length (output_layer net hp embedding out) = map length ids1)
    as Hlog by by rewrite lens_output_layer, Hout.
  destruct (tf_squeeze_axis1_length1 (output_layer net hp embedding out))
    as (logits & -> & Hsq).
  { by apply (has_length_of_lens _ _ _ Hlog). }
  cbn. eexists _, _. split; [reflexivity|].
  rewrite Hxl in Hc', Hr. replace (n + 1)%nat with (S n) in Hc' by lia.
  split; [|split; [done|split; [done|split; [done|split; [done|]]]]].
  - rewrite <- Hlen1, <- (lens_length _ _ Hlog), Hsq. by rewrite length_map.
  - apply Forall_forall. intros row Hrow.
    apply list_elem_of_lookup in Hrow as [b Hrow].
    assert (output_layer net hp embedding out !! b = Some [row]) as Hb'
      by by rewrite Hsq, list_lookup_fmap, Hrow.
    by apply (output_layer_vocab out b 0 [row] row).
Qed.
End StepProperties.

(** ** Loops *)

Section Loops.
Context {St : Type}.
Variable cond : St → bool.
Variable body : St → result St.

Lemma run_body_S_back (t : nat) (s : St) :
  run_body body (S t) s = run_body body t s ≫= body.
Proof.
  revert s. induction t as [|t IH]; intros s.
  - cbn. by destruct (body s).
  - change (run_body body (S (S t)) s)
      with (body s ≫= run_body body (S t)).
    change (run_body body (S t) s) with (body s ≫= run_body body t).
    destruct (body s) as [s'| |]; cbn; [|done..]. apply IH.
Qed.

(** A loop that returns after [n] iterations: its result is the state
    after [n] executions of the body, the condition fails there, and it
    held before each of the [n] iterations. *)
Lemma while_loop_Done (fuel : nat) (s : St) (n : nat) (s' : St) :
  while_loop fuel cond body s = Done (n, s') →
  run_body body n s = Done s' ∧ cond s' = false ∧
  ∀ k, (k < n)%nat → ∃ sk, run_body body k s = Done sk ∧ cond sk = true.
Proof.
  revert s n s'. induction fuel as [|fuel IH]; intros s n s' Hw; [done|].
  cbn in Hw. destruct (cond s) eqn:Hcond.
  - destruct (body s) as [s1| |] eqn:Hbody; cbn in Hw; [|done..].
    destruct (while_loop fuel cond body s1) as [[n1 s2]| |] eqn:Hw1;
      cbn in Hw; [|done..].
    injection Hw as <- <-.
    destruct (IH _ _ _ Hw1) as (Hrun & Hc & Hk).
    split; [cbn; by rewrite Hbody|]. split; [done|].
    intros [|k] Hlt; [by exists s|].
    destruct (Hk k) as (sk & Hsk & Hck); [lia|].
    exists sk. cbn. by rewrite Hbody.
  - injection Hw as <- <-. split; [done|]. split; [done|]. lia.
Qed.

(** With a measure that the body decreases while the condition holds,
    fuel above the measure is never used up. *)
Lemma while_loop_fuel (measure : St → nat) (fuel : nat) (s : St) :
  (∀ s, body s ≠ OutOfFuel) →
  (∀ s s', cond s = true → body s = Done s' → (measure s' < measure s)%nat) →
  (measure s < fuel)%nat →
  while_loop fuel cond body s ≠ OutOfFuel.
Proof.
  intros Hbody Hdec. revert s.
  induction fuel as [|fuel IH]; intros s Hlt; [lia|].
  cbn. destruct (cond s) eqn:Hcond; [|done].
  specialize (Hbody s).
  destruct (body s) as [s1| |] eqn:Hs1; cbn; [|done..].
  specialize (Hdec _ _ Hcond Hs1).
  specialize (IH s1 ltac:(lia)).
  by destruct (while_loop fuel cond body s1) as [[? ?]| |].
Qed.
End Loops.

(** ** Fuel is only used by loops *)

Section NoFuel.
Import TransformerDecoder.
Context {R : Type} `{Scalar R} {Bias : Type}.
Variable net : network R Bias.
Variable hp : hparams R.
Variable embedding : embedding_matrix R.

Lemma bind_no_fuel {A B} (m : result A) (f : A → result B) :
  m ≠ OutOfFuel → (∀ a, f a ≠ OutOfFuel) → m ≫= f ≠ OutOfFuel.
Proof. intros Hm Hf. destruct m; cbn; [apply Hf|done..]. Qed.

Lemma tf_concat_axis1_no_fuel {A} (a b : list (list A)) :
  tf_concat_axis1 a b ≠ OutOfFuel.
Proof. unfold tf_concat_axis1. by case_decide. Qed.

Lemma tf_squeeze_axis1_no_fuel {A} (x : list (list A)) :
  tf_squeeze_axis1 x ≠ OutOfFuel.
Proof. unfold tf_squeeze_axis1. by destruct (mapM _ x). Qed.

Lemma multihead_attention_no_fuel run sc queries memory bias rate lc :
  multihead_attention net run sc queries memory bias rate lc ≠ OutOfFuel.
Proof.
  unfold multihead_attention. destruct memory, lc; try done.
  - by case_decide.
  - apply bind_no_fuel; [apply tf_concat_axis1_no_fuel|]. intros K.
    apply bind_no_fuel; [apply tf_concat_axis1_no_fuel|]. done.
Qed.

Lemma stack_layer_no_fuel run enc sb eb mode i st :
  stack_layer net hp run enc sb eb mode i st ≠ OutOfFuel.
Proof.
  unfold stack_layer. destruct st as [x c].
  apply bind_no_fuel.
  { unfold get_layer_cache. destruct c; [|done]. by destruct (_ !! _). }
  intros lc. apply bind_no_fuel; [apply multihead_attention_no_fuel|].
  intros [out lc']. apply bind_no_fuel; [|done].
  destruct enc; [|done].
  apply bind_no_fuel; [apply multihead_attention_no_fuel|]. by intros [? ?].
Qed.

Lemma for_range_no_fuel {St} (body : nat → St → result St) start count s :
  (∀ i s, body i s ≠ OutOfFuel) → for_range body start count s ≠ OutOfFuel.
Proof.
  intros Hbody. revert start s. induction count as [|count IH]; intros start s.
  - done.
  - cbn. apply bind_no_fuel; [apply Hbody|]. intros s'. apply IH.
Qed.

Lemma stack_no_fuel run inputs enc sb eb c mode :
  _self_attention_stack net hp run inputs enc sb eb c mode ≠ OutOfFuel.
Proof.
  unfold _self_attention_stack. apply bind_no_fuel.
  { destruct c; [done|]. apply bind_no_fuel; [|done].
    unfold py_assert. by case_bool_decide. }
  intros b. apply bind_no_fuel; [|by intros [? ?]].
  apply for_range_no_fuel. intros i s. apply stack_layer_no_fuel.
Qed.

Lemma step_fn_no_fuel embedding_fn max_length ids step c :
  _symbols_to_logits_fn net hp embedding embedding_fn max_length ids step c
    ≠ OutOfFuel.
Proof.
  unfold _symbols_to_logits_fn. apply bind_no_fuel.
  { by destruct (String.eqb _ _). }
  intros inputs. apply bind_no_fuel; [apply stack_no_fuel|].
  intros [out c']. apply bind_no_fuel; [apply tf_squeeze_axis1_no_fuel|done].
Qed.

Lemma body_no_fuel embedding_fn max_length batch_size eos v :
  _body net hp (_symbols_to_logits_fn net hp embedding embedding_fn max_length)
    batch_size eos v ≠ OutOfFuel.
Proof.
  unfold _body. apply bind_no_fuel; [apply step_fn_no_fuel|].
  intros [logits c]. apply bind_no_fuel.
  { destruct (String.eqb _ _); [done|]. destruct (String.eqb _ _); [|done].
    by destruct (multinomial_squeeze _ _ _). }
  intros ids. apply bind_no_fuel; [apply tf_concat_axis1_no_fuel|done].
Qed.
End NoFuel.

(** ** The greedy loop *)

Section GreedyProperties.
Import TransformerDecoder.
Context {R : Type} `{Scalar R} {Bias : Type}.
Variable net : network R Bias.
Variable hp : hparams R.
Variable embedding : embedding_matrix R.

#[local] Arguments _symbols_to_logits_fn : simpl never.
#[local] Arguments tf_concat_axis1 : simpl never.

Lemma foldl_insert_lookup {A} (e : A) (count start : nat) (m : gmap nat A) (l : nat) :
  foldl (λ m l, <[l := e]> m) m (seq start count) !! l =
    if decide (start ≤ l < start + count)%nat then Some e else m !! l.
Proof.
  revert start m. induction count as [|count IH]; intros start m; cbn.
  - case_decide; [lia|done].
  - rewrite IH. destruct (decide (l = start)) as [->|Hne].
    + rewrite lookup_insert_eq. repeat case_decide; done || lia.
    + rewrite lookup_insert_ne by done. repeat case_decide; done || lia.
Qed.

Lemma init_cache_layers (memory : list (list (list R))) (bias : Bias) (l : nat) :
  (l < num_blocks hp)%nat →
  cache_layers (_init_cache hp memory bias) !! l =
    Some {| self_keys := replicate (length memory) [];
            self_values := replicate (length memory) [];
            memory_keys := replicate (length memory) [];
            memory_values := replicate (length memory) [] |}.
Proof.
  intros Hl. unfold _init_cache. cbn. rewrite foldl_insert_lookup.
  case_decide; [done|lia].
Qed.

Lemma has_length_replicate_nil {A} (n : nat) :
  has_length 0 (replicate n ([] : list A)).
Proof. unfold has_length. apply Forall_replicate. done. Qed.

Lemma init_cache_ready (memory : list (list (list R))) (bias : Bias) :
  cache_ready hp (λ _, 0%nat) (length memory) (_init_cache hp memory bias).
Proof.
  intros l Hl. eexists. split; [by apply init_cache_layers|].
  unfold layer_ready. cbn. rewrite length_replicate.
  auto using has_length_replicate_nil.
Qed.

Lemma greedy_init_inv (start_tokens : list Z) (memory : list (list (list R)))
    (bias : Bias) :
  length memory = length start_tokens →
  greedy_inv hp (length start_tokens) memory bias 0
    (greedy_init hp start_tokens memory bias).
Proof.
  intros Hlen. unfold greedy_inv, greedy_init. cbn.
  rewrite !length_replicate, length_map, <- Hlen.
  repeat split; try done.
  - unfold has_length. apply Forall_map. by apply Forall_true.
  - apply has_length_replicate_nil.
  - apply init_cache_ready.
Qed.

(** What one execution of the body does to the loop variables. *)
Lemma body_inv (start_tokens : list Z) (eos decode_length : Z)
    (memory : list (list (list R))) (bias : Bias) (t : nat) (v v' : loop_vars) :
  sampling_method hp = "argmax"%string ∨ multinomial_shaped net →
  greedy_inv hp (length start_tokens) memory bias t v →
  Z.of_nat t < decode_length →
  _body net hp
    (_symbols_to_logits_fn net hp embedding
       (_prepare_tokens_to_embeds embedding) (decode_length + 1))
    (length start_tokens) eos v = Done v' →
  greedy_inv hp (length start_tokens) memory bias (S t) v' ∧
  ∃ ids, lv_next_id v' = map (λ i, [i]) ids ∧
         lv_finished v' =
           zip_with orb (lv_finished v) (map (λ i, bool_decide (i = eos)) ids).
Proof.
  intros Hmult (Hstep & Hfin & Hnext & Hnext1 & Hdec & Hdect & Hlp & Hc & Hmem & Hbias)
    Ht Hbody.
  unfold _body in Hbody.
  destruct (step_fn_ok net hp embedding (decode_length + 1) (lv_next_id v)
    (lv_step v) (lv_cache v) t)
    as (logits & c' & Hfn & Hlog & Hc' & Hm' & Hb' & _).
  { by rewrite Hnext. }
  { eapply Forall_impl; [exact Hnext1|]. intros row Hrow ->. done. }
  { lia. }
  rewrite Hfn in Hbody. cbn in Hbody.
  match type of Hbody with
  | (?m ≫= _) = _ => destruct m as [ids| |] eqn:Hids; cbn in Hbody; [|done..]
  end.
  assert (length ids = length start_tokens) as Hidsl.
  { destruct (String.eqb (sampling_method hp) "argmax") eqn:Hsm.
    - injection Hids as <-. by rewrite length_map, Hlog.
    - destruct Hmult as [Hs|Hmult]; [by rewrite Hs in Hsm|].
      destruct (String.eqb (sampling_method hp) "sample"); [|done].
      destruct (multinomial_squeeze net (lv_step v) logits) as [ids'|] eqn:Hms;
        [|done].
      injection Hids as <-. by rewrite (Hmult _ _ _ Hms), Hlog. }
  destruct (has_length_concat t 1 (lv_decoded_ids v) (map (λ i, [i]) ids))
    as (dec & Hdeceq & Hdecl & Hdech).
  { by rewrite length_map, Hidsl. }
  { done. }
  { unfold has_length. apply Forall_map. by apply Forall_true. }
  rewrite Hdeceq in Hbody. cbn in Hbody. injection Hbody as <-.
  split; [|by exists ids].
  unfold greedy_inv, tf_gather_nd. cbn.
  repeat (rewrite length_zip_with || rewrite length_map || rewrite length_zip
          || rewrite length_seq).
  rewrite length_map in Hdecl. rewrite Hnext in Hc'.
  replace (t + 1)%nat with (S t) in Hdech by lia.
  repeat split; try done; try lia.
  - unfold has_length. apply Forall_map. by apply Forall_true.
  - congruence.
  - congruence.
Qed.

Abbreviation body start_tokens eos decode_length :=
  (_body net hp
     (_symbols_to_logits_fn net hp embedding
        (_prepare_tokens_to_embeds embedding) (decode_length + 1))
     (length start_tokens) eos).

Abbreviation steps t start_tokens eos decode_length memory bias :=
  (greedy_steps net hp embedding t (_prepare_tokens_to_embeds embedding)
     start_tokens eos decode_length memory bias).

Lemma body_argmax (start_tokens : list Z) (eos decode_length : Z)
    (memory : list (list (list R))) (bias : Bias) (t : nat) (v : loop_vars) :
  sampling_method hp = "argmax"%string →
  greedy_inv hp (length start_tokens) memory bias t v →
  Z.of_nat t < decode_length →
  ∃ v', body start_tokens eos decode_length v = Done v'.
Proof.
  intros Hs (Hstep & Hfin & Hnext & Hnext1 & Hdec & Hdect & Hlp & Hc & Hmem & Hbias) Ht.
  unfold _body.
  destruct (step_fn_ok net hp embedding (decode_length + 1) (lv_next_id v)
    (lv_step v) (lv_cache v) t)
    as (logits & c' & -> & Hlog & Hc' & Hm' & Hb' & _).
  { by rewrite Hnext. }
  { eapply Forall_impl; [exact Hnext1|]. intros row Hrow ->. done. }
  { lia. }
  cbn. rewrite Hs. cbn.
  match goal with
  | |- context [tf_concat_axis1 ?a ?b] =>
      destruct (has_length_concat t 1 a b) as (dec & -> & _)
  end.
  { by rewrite !length_map, Hlog, Hnext. }
  { done. }
  { unfold has_length. apply Forall_map. by apply Forall_true. }
  cbn. eauto.
Qed.

Lemma body_step (start_tokens : list Z) (eos decode_length : Z) (v v' : loop_vars) :
  body start_tokens eos decode_length v = Done v' → lv_step v' = lv_step v + 1.
Proof.
  unfold _body. intros Hbody.
  destruct (_symbols_to_logits_fn _ _ _ _ _ _ _ _) as [[logits c]| |];
    cbn in Hbody; [|done..].
  match type of Hbody with
  | (?m ≫= _) = _ => destruct m as [ids| |]; cbn in Hbody; [|done..]
  end.
  destruct (tf_concat_axis1 _ _) as [dec| |]; cbn in Hbody; [|done..].
  by injection Hbody as <-.
Qed.

Lemma steps_step (start_tokens : list Z) (eos decode_length : Z)
    (memory : list (list (list R))) (bias : Bias) (t : nat) (v : loop_vars) :
  steps t start_tokens eos decode_length memory bias = Done v →
  lv_step v = Z.of_nat t.
Proof.
  unfold greedy_steps. revert v. induction t as [|t IH]; intros v Hv.
  - by injection Hv as <-.
  - rewrite run_body_S_back in Hv.
    destruct (run_body _ t _) as [vt| |]; cbn in Hv; [|done..].
    rewrite (body_step _ _ _ _ _ Hv), (IH vt eq_refl). lia.
Qed.

(** The invariant holds after every number of iterations up to
    [decode_length]. *)
Lemma steps_inv (start_tokens : list Z) (eos decode_length : Z)
    (memory : list (list (list R))) (bias : Bias) (t : nat) (v : loop_vars) :
  sampling_method hp = "argmax"%string ∨ multinomial_shaped net →
  length memory = length start_tokens →
  Z.of_nat t ≤ decode_length →
  steps t start_tokens eos decode_length memory bias = Done v →
  greedy_inv hp (length start_tokens) memory bias t v.
Proof.
  intros Hmult Hlen. unfold greedy_steps.
  revert v. induction t as [|t IH]; intros v Ht Hv.
  - injection Hv as <-. by apply greedy_init_inv.
  - rewrite run_body_S_back in Hv.
    destruct (run_body _ t _) as [vt| |]; cbn in Hv; [|done..].
    destruct (body_inv start_tokens eos decode_length memory bias t vt v Hmult)
      as [Hinv _]; [|lia|exact Hv|exact Hinv].
    apply IH; [lia|done].
Qed.

(** With arg-max sampling every iteration up to [decode_length]
    returns. *)
Lemma steps_argmax (start_tokens : list Z) (eos decode_length : Z)
    (memory : list (list (list R))) (bias : Bias) (t : nat) :
  sampling_method hp = "argmax"%string →
  length memory = length start_tokens →
  Z.of_nat t ≤ decode_length →
  ∃ v, steps t start_tokens eos decode_length memory bias = Done v.
Proof.
  intros Hs Hlen. induction t as [|t IH]; intros Ht.
  - by eexists.
  - destruct IH as (vt & Hvt); [lia|].
    destruct (body_argmax start_tokens eos decode_length memory bias t vt)
      as (v' & Hv'); [done| |lia|].
    { apply (steps_inv start_tokens eos decode_length);
        [by left|done|lia|done]. }
    exists v'. unfold greedy_steps in *. by rewrite run_body_S_back, Hvt.
Qed.

Lemma cache_ready_seq_length (n B : nat) (c : cache R Bias) :
  cache_ready hp (λ _, n) B c → cache_seq_length hp n c.
Proof.
  intros Hc l Hl. destruct (Hc l Hl) as (lc & Hlc & _ & _ & Hk & Hv).
  by exists lc.
Qed.

(** C1. In a greedy inference call on a batch of consistent size, the
    cache made by [_init_cache] has self-attention key and value
    sequences of length 0 in every layer; when step [t < decode_length]
    begins they have length [t], and when it completes they have length
    [t + 1]; the entries ['memory'] and
    ['encoder_decoder_attention_bias'] are those set at initialisation at
    every step.  With arg-max sampling every such step is reached and
    completes.  Whoever calls it, the step function adds one position to
    every layer of a well-formed cache and returns the two entries as
    they were. *)
Theorem cache_sequence_lengths (start_tokens : list Z) (eos decode_length : Z)
    (memory : list (list (list R))) (bias : Bias) (t : nat) :
  sampling_method hp = "argmax"%string ∨ multinomial_shaped net →
  length memory = length start_tokens →
  Z.of_nat t < decode_length →
  cache_seq_length hp 0 (_init_cache hp memory bias) ∧
  (∀ v, steps t start_tokens eos decode_length memory bias = Done v →
     cache_seq_length hp t (lv_cache v) ∧
     cache_memory (lv_cache v) = memory ∧
     cache_encoder_decoder_attention_bias (lv_cache v) = bias ∧
     ∀ v', body start_tokens eos decode_length v = Done v' →
       cache_seq_length hp (S t) (lv_cache v') ∧
       cache_memory (lv_cache v') = memory ∧
       cache_encoder_decoder_attention_bias (lv_cache v') = bias) ∧
  (sampling_method hp = "argmax"%string →
     ∃ v v', steps t start_tokens eos decode_length memory bias = Done v ∧
             body start_tokens eos decode_length v = Done v') ∧
  (∀ ids step c n,
     cache_ready hp (λ _, n) (length ids) c →
     Forall (λ row, row ≠ []) ids →
     0 ≤ step ≤ decode_length →
     ∃ logits c',
       _symbols_to_logits_fn net hp embedding
         (_prepare_tokens_to_embeds embedding) (decode_length + 1) ids step c
         = Done (logits, c') ∧
       cache_seq_length hp (S n) c' ∧
       cache_memory c' = cache_memory c ∧
       cache_encoder_decoder_attention_bias c'
         = cache_encoder_decoder_attention_bias c).
Proof.
  intros Hmult Hlen Ht. split; [|split; [|split]].
  - eapply cache_ready_seq_length, init_cache_ready.
  - intros v Hv.
    assert (greedy_inv hp (length start_tokens) memory bias t v) as Hinv
      by (apply (steps_inv start_tokens eos decode_length); [done|done|lia|done]).
    pose proof Hinv as (_ & _ & _ & _ & _ & _ & _ & Hc & Hm & Hb).
    split; [by eapply cache_ready_seq_length|]. split; [done|]. split; [done|].
    intros v' Hv'.
    destruct (body_inv start_tokens eos decode_length memory bias t v v')
      as [(_ & _ & _ & _ & _ & _ & _ & Hc' & Hm' & Hb') _]; try done.
    split; [by eapply cache_ready_seq_length|done].
  - intros Hs.
    destruct (steps_argmax start_tokens eos decode_length memory bias t)
      as (v & Hv); [done|done|lia|].
    destruct (body_argmax start_tokens eos decode_length memory bias t v)
      as (v' & Hv'); [done| |done|by exists v, v'].
    apply (steps_inv start_tokens eos decode_length); [done|done|lia|done].
  - intros ids step c n Hc Hne Hstep.
    destruct (step_fn_ok net hp embedding (decode_length + 1) ids step c n)
      as (logits & c' & Hfn & _ & Hc' & Hm' & Hb' & _); [done|done|lia|].
    exists logits, c'. split; [done|].
    split; [by eapply cache_ready_seq_length|done].
Qed.

Lemma is_not_finished_true (decode_length : Z) (v : @loop_vars R Bias) :
  is_not_finished decode_length v = true ↔
  lv_step v < decode_length ∧ forallb id (lv_finished v) = false.
Proof.
  unfold is_not_finished. rewrite andb_true_iff, bool_decide_eq_true.
  by rewrite negb_true_iff.
Qed.

Lemma is_not_finished_false (decode_length : Z) (v : @loop_vars R Bias) :
  is_not_finished decode_length v = false ↔
  decode_length ≤ lv_step v ∨ forallb id (lv_finished v) = true.
Proof.
  unfold is_not_finished. rewrite andb_false_iff, bool_decide_eq_false.
  rewrite negb_false_iff. split; (intros [?|?]; [left; lia|by right]).
Qed.

(** C3. The greedy loop, given any fuel above [decode_length], returns or
    raises without using it up.  When it returns after [n] iterations,
    [n] is at most [decode_length]; the condition was tested before each
    iteration and held ([j < decode_length] and some item unfinished
    after [j] iterations, for every [j < n]) and fails after the [n]-th
    ([decode_length] reached, or every item finished).  With arg-max
    sampling on a batch of consistent size the loop returns. *)
Theorem greedy_loop_bounded (start_tokens : list Z) (eos decode_length : Z)
    (memory : list (list (list R))) (bias : Bias) (extra : nat) :
  let fuel := S (Z.to_nat decode_length + extra) in
  let loop :=
    greedy_loop net hp embedding fuel (_prepare_tokens_to_embeds embedding)
      start_tokens eos decode_length memory bias in
  loop ≠ OutOfFuel ∧
  (∀ n v, loop = Done (n, v) →
     (n ≤ Z.to_nat decode_length)%nat ∧
     steps n start_tokens eos decode_length memory bias = Done v ∧
     (decode_length ≤ Z.of_nat n ∨ forallb id (lv_finished v) = true) ∧
     ∀ j, (j < n)%nat →
       ∃ vj, steps j start_tokens eos decode_length memory bias = Done vj ∧
             Z.of_nat j < decode_length ∧
             forallb id (lv_finished vj) = false) ∧
  (sampling_method hp = "argmax"%string →
   length memory = length start_tokens →
   ∃ n v, loop = Done (n, v)).
Proof.
  intros fuel loop. subst loop. unfold greedy_loop.
  assert (while_loop fuel (is_not_finished decode_length)
            (body start_tokens eos decode_length)
            (greedy_init hp start_tokens memory bias) ≠ OutOfFuel) as Hfuel.
  { apply (while_loop_fuel _ _ (λ v, Z.to_nat (decode_length - lv_step v))).
    - intros v. apply body_no_fuel.
    - intros v v' Hcond Hbody. apply is_not_finished_true in Hcond as [Hlt _].
      rewrite (body_step _ _ _ _ _ Hbody). lia.
    - cbn. subst fuel. lia. }
  assert (∀ n v,
    while_loop fuel (is_not_finished decode_length)
      (body start_tokens eos decode_length)
      (greedy_init hp start_tokens memory bias) = Done (n, v) →
    (n ≤ Z.to_nat decode_length)%nat ∧
    steps n start_tokens eos decode_length memory bias = Done v ∧
    (decode_length ≤ Z.of_nat n ∨ forallb id (lv_finished v) = true) ∧
    ∀ j, (j < n)%nat →
      ∃ vj, steps j start_tokens eos decode_length memory bias = Done vj ∧
            Z.of_nat j < decode_length ∧
            forallb id (lv_finished vj) = false) as Hdone.
  { intros n v Hloop.
    apply while_loop_Done in Hloop as (Hrun & Hcond & Hbefore).
    assert (∀ j, (j < n)%nat →
      ∃ vj, steps j start_tokens eos decode_length memory bias = Done vj ∧
            Z.of_nat j < decode_length ∧
            forallb id (lv_finished vj) = false) as Hj.
    { intros j Hlt. destruct (Hbefore j Hlt) as (vj & Hvj & Hc).
      exists vj. split; [done|].
      apply is_not_finished_true in Hc as [Hs Hf].
      by rewrite (steps_step _ _ _ _ _ _ _ Hvj) in Hs. }
    split; [|split; [done|split; [|done]]].
    - destruct n as [|n]; [lia|].
      destruct (Hj n) as (_ & _ & Hn & _); lia.
    - apply is_not_finished_false in Hcond.
      by rewrite (steps_step _ _ _ _ _ _ _ Hrun) in Hcond. }
  split; [done|]. split; [done|].
  intros Hs Hlen.
  destruct (while_loop fuel _ _ _) as [[n v]| |] eqn:Hloop; [by eauto| |done].
  exfalso. clear Hfuel Hdone. revert Hloop.
  assert (∀ f t v,
    greedy_inv hp (length start_tokens) memory bias t v →
    while_loop f (is_not_finished decode_length)
      (body start_tokens eos decode_length) v ≠ Raise e) as Hno.
  { induction f as [|f IH]; intros t v Hinv; [done|]. cbn.
    destruct (is_not_finished decode_length v) eqn:Hcond; [|done].
    apply is_not_finished_true in Hcond as [Hlt _].
    pose proof Hinv as (Hstep & _). rewrite Hstep in Hlt.
    destruct (body_argmax start_tokens eos decode_length memory bias t v)
      as (v' & Hv'); [done..|].
    rewrite Hv'. cbn.
    destruct (body_inv start_tokens eos decode_length memory bias t v v')
      as [Hinv' _]; [by left|done..|].
    specialize (IH (S t) v' Hinv').
    by destruct (while_loop f _ _ v') as [[? ?]| |]. }
  apply (Hno fuel 0%nat). by apply greedy_init_inv.
Qed.

Lemma steps_S_inv (start_tokens : list Z) (eos decode_length : Z)
    (memory : list (list (list R))) (bias : Bias) (t : nat) (v : loop_vars) :
  steps (S t) start_tokens eos decode_length memory bias = Done v →
  ∃ vt, steps t start_tokens eos decode_length memory bias = Done vt ∧
        body start_tokens eos decode_length vt = Done v.
Proof.
  unfold greedy_steps. rewrite run_body_S_back. intros Hv.
  destruct (run_body _ t _) as [vt| |]; cbn in Hv; [|done..]. by exists vt.
Qed.

Lemma body_finished_mono (start_tokens : list Z) (eos decode_length : Z)
    (memory : list (list (list R))) (bias : Bias) (t b : nat) (v v' : loop_vars) :
  sampling_method hp = "argmax"%string ∨ multinomial_shaped net →
  greedy_inv hp (length start_tokens) memory bias t v →
  Z.of_nat t < decode_length →
  body start_tokens eos decode_length v = Done v' →
  (lv_finished v !! b = Some true ∨ lv_next_id v' !! b = Some [eos]) →
  lv_finished v' !! b = Some true.
Proof.
  intros Hmult Hinv Ht Hbody Hb.
  destruct (body_inv start_tokens eos decode_length memory bias t v v')
    as [Hinv' (ids & Hnext & Hfin)]; [done..|].
  destruct Hinv as (_ & Hfl & _).
  destruct Hinv' as (_ & Hfl' & Hnl' & _).
  rewrite Hnext, length_map in Hnl'.
  assert (b < length start_tokens)%nat as Hlt.
  { destruct Hb as [Hb|Hb]; apply lookup_lt_Some in Hb.
    - by rewrite Hfl in Hb.
    - by rewrite Hnext, length_map, Hnl' in Hb. }
  destruct (lookup_lt_is_Some_2 (lv_finished v) b) as [f Hf]; [lia|].
  destruct (lookup_lt_is_Some_2 ids b) as [i Hi]; [lia|].
  rewrite Hfin, lookup_zip_with, Hf, list_lookup_fmap, Hi. cbn.
  destruct Hb as [Hb|Hb].
  - rewrite Hf in Hb. by injection Hb as ->.
  - rewrite Hnext, list_lookup_fmap, Hi in Hb. injection Hb as ->.
    rewrite bool_decide_eq_true_2 by done. by rewrite orb_true_r.
Qed.

Lemma body_ignores_finished (start_tokens : list Z) (eos decode_length : Z)
    (v : loop_vars) (finished : list bool) :
  lv_next_id <$> body start_tokens eos decode_length (with_finished finished v)
    = lv_next_id <$> body start_tokens eos decode_length v ∧
  lv_decoded_ids <$> body start_tokens eos decode_length (with_finished finished v)
    = lv_decoded_ids <$> body start_tokens eos decode_length v.
Proof.
  unfold _body, with_finished. cbn.
  destruct (_symbols_to_logits_fn _ _ _ _ _ _ _ _) as [[logits c]| |];
    cbn; [|done..].
  match goal with
  | |- context [?m ≫= _] =>
      match type of m with
      | result (list Z) => destruct m as [ids| |]; cbn; [|done..]
      end
  end.
  by destruct (tf_concat_axis1 _ _) as [dec| |].
Qed.

(** C6. In the greedy loop, once the token chosen for a batch item at
    some step equals the end token, the item's finished flag is true
    after that step and after every later step of the loop, whatever
    tokens are chosen later; and the tokens the body chooses and appends
    do not depend on the finished flags. *)
Theorem finished_flag_sticky (start_tokens : list Z) (eos decode_length : Z)
    (memory : list (list (list R))) (bias : Bias) (t t' b : nat)
    (v v' : loop_vars) :
  sampling_method hp = "argmax"%string ∨ multinomial_shaped net →
  length memory = length start_tokens →
  (t < t')%nat → Z.of_nat t' ≤ decode_length →
  steps (S t) start_tokens eos decode_length memory bias = Done v →
  lv_next_id v !! b = Some [eos] →
  steps t' start_tokens eos decode_length memory bias = Done v' →
  lv_finished v' !! b = Some true ∧
  ∀ u finished,
    lv_next_id <$> body start_tokens eos decode_length (with_finished finished u)
      = lv_next_id <$> body start_tokens eos decode_length u ∧
    lv_decoded_ids <$> body start_tokens eos decode_length (with_finished finished u)
      = lv_decoded_ids <$> body start_tokens eos decode_length u.
Proof.
  intros Hmult Hlen Htt Ht' Hv Heos Hv'.
  split; [|intros u finished; apply body_ignores_finished].
  assert (lv_finished v !! b = Some true) as Hfin.
  { apply steps_S_inv in Hv as (vt & Hvt & Hbody).
    eapply (body_finished_mono start_tokens eos decode_length memory bias t);
      [done| |lia|exact Hbody|by right].
    apply (steps_inv start_tokens eos decode_length); [done|done|lia|done]. }
  clear Heos. revert v' Hv'.
  assert (∃ k, t' = (S t + k)%nat) as [k ->] by (exists (t' - S t)%nat; lia).
  induction k as [|k IH]; intros v' Hv'.
  - replace (S t + 0)%nat with (S t) in Hv' by lia. congruence.
  - replace (S t + S k)%nat with (S (S t + k)) in Hv' by lia.
    apply steps_S_inv in Hv' as (vk & Hvk & Hbody).
    eapply (body_finished_mono start_tokens eos decode_length memory bias
              (S t + k)); [done| |lia|exact Hbody|left].
    + apply (steps_inv start_tokens eos decode_length); [done|done|lia|done].
    + apply IH; [lia|lia|done].
Qed.
End GreedyProperties.

(** ** The training pass *)

Section TrainingProperties.
Import TransformerDecoder.
Context {R : Type} `{Scalar R} {Bias : Type}.
Variable net : network R Bias.
Variable hp : hparams R.
Variable embedding : embedding_matrix R.

#[local] Arguments _self_attention_stack : simpl never.

Lemma argmax_from_spec (row : list R) (best : R) (besti i : nat) (seen : list R) :
  strict_weak_order R →
  length seen = i → (besti < i)%nat →
  seen !! besti = Some best →
  (∀ j y, seen !! j = Some y → rltb best y = false) →
  let k := argmax_from best besti i row in
  ∃ x, (seen ++ row) !! k = Some x ∧
       ∀ j y, (seen ++ row) !! j = Some y → rltb x y = false.
Proof.
  intros [Hasym Hneg]. revert best besti i seen.
  induction row as [|x row IH]; intros best besti i seen Hlen Hlt Hbest Hmax; cbn.
  - rewrite app_nil_r. by exists best.
  - destruct (rltb best x) eqn:Hx.
    + replace (seen ++ x :: row) with ((seen ++ [x]) ++ row)
        by by rewrite <- app_assoc.
      apply IH.
      * rewrite length_app. cbn. lia.
      * lia.
      * rewrite lookup_app_r by lia. by rewrite Hlen, Nat.sub_diag.
      * intros j y Hy. apply lookup_app_Some in Hy as [Hy|[Hj Hy]].
        -- apply (Hneg x best y); [by apply Hasym|by eapply Hmax].
        -- apply list_lookup_singleton_Some in Hy as [_ <-].
           destruct (rltb x x) eqn:Hxx; [|done]. by rewrite (Hasym _ _ Hxx) in Hxx.
    + replace (seen ++ x :: row) with ((seen ++ [x]) ++ row)
        by by rewrite <- app_assoc.
      apply IH.
      * rewrite length_app. cbn. lia.
      * lia.
      * by apply lookup_app_l_Some.
      * intros j y Hy. apply lookup_app_Some in Hy as [Hy|[Hj Hy]].
        -- by eapply Hmax.
        -- by apply list_lookup_singleton_Some in Hy as [_ <-].
Qed.

(** [tf_argmax] returns the index of an entry that no entry exceeds. *)
Lemma tf_argmax_spec (row : list R) :
  strict_weak_order R → row ≠ [] →
  ∃ x, row !! tf_argmax row = Some x ∧
       ∀ j y, row !! j = Some y → rltb x y = false.
Proof.
  intros Hord Hne. destruct row as [|x row]; [done|]. cbn.
  apply (argmax_from_spec row x 0 1 [x] Hord); [done|lia|done|].
  intros j y Hy. apply list_lookup_singleton_Some in Hy as [_ <-].
  destruct Hord as [Hasym _].
  destruct (rltb x x) eqn:Hxx; [|done]. by rewrite (Hasym _ _ Hxx) in Hxx.
Qed.

Lemma to_int32_small (z : Z) : 0 ≤ z < 2^31 → to_int32 z = z.
Proof. intros Hz. unfold to_int32. rewrite Z.mod_small; lia. Qed.

Lemma lens_add_position (x : list (list (list R))) (L channels : nat) :
  has_length L x →
  map length
    (tensor3_add_broadcast x (position_embedder net (axis1_length x) channels))
    = map length x.
Proof.
  intros Hx. destruct x as [|s x]; [done|].
  apply (lens_add_broadcast _ _ L); [done|].
  rewrite position_embedder_length. cbn.
  apply Forall_cons in Hx as [-> _]. done.
Qed.

(** C2. A training call on a [decoder_input] whose rows have length [L]
    returns logits and predicted ids with the batch size of the input and
    sequence length exactly [L]; every row of logits has one entry per
    vocabulary item, and the predicted id of a position is the arg-max of
    its logits: the index of an entry that no entry of the row exceeds. *)
Theorem training_logits_and_preds
    (beam_search :
      (list (list Z) → Z → cache R Bias → result (list (list R) * cache R Bias)) →
      list Z → Z → Z → nat → R → cache R Bias → Z →
      result (list (list (list Z)) * list (list R)))
    (encoder_output : option (list (list (list R))))
    (encoder_decoder_attention_bias : option Bias)
    (decoder_input : list (list Z)) (mode : option string) (L : nat) :
  strict_weak_order R →
  is_train_mode_py net mode = true →
  has_length L decoder_input →
  (0 < _vocab_size embedding)%nat →
  Z.of_nat (_vocab_size embedding) ≤ 2^31 →
  ∃ logits preds,
    _build net hp embedding beam_search encoder_output
      encoder_decoder_attention_bias (Some decoder_input) mode
      = Done (LogitsPreds logits preds) ∧
    length logits = length decoder_input ∧ has_length L logits ∧
    length preds = length decoder_input ∧ has_length L preds ∧
    ∀ b i s row,
      logits !! b = Some s → s !! i = Some row →
      length row = _vocab_size embedding ∧
      ∃ x, (preds !! b) ≫= (.!! i) = Some (Z.of_nat (tf_argmax row)) ∧
           row !! tf_argmax row = Some x ∧
           ∀ j y, row !! j = Some y → rltb x y = false.
Proof.
  intros Hord Htrain HL Hvocab Hvocab31. unfold _build. rewrite Htrain. cbn.
  set (target_inputs :=
    if String.eqb (multiply_embedding_mode hp) "sqrt_depth"
    then tensor3_scale (tf_nn_embedding_lookup embedding decoder_input)
           (rsqrt (emb_dim embedding))
    else tf_nn_embedding_lookup embedding decoder_input).
  assert (map length target_inputs = map length decoder_input) as Hti.
  { unfold target_inputs. destruct (String.eqb _ _).
    - by rewrite lens_tensor3_scale, lens_embedding_lookup.
    - by rewrite lens_embedding_lookup. }
  set (inputs := tensor3_add_broadcast target_inputs _).
  assert (map length inputs = map length decoder_input) as Hin.
  { unfold inputs. rewrite (lens_add_position _ L); [done|].
    by apply (has_length_of_lens _ _ _ Hti). }
  destruct (stack_no_cache net hp 0 inputs encoder_output
    (attention_bias_lower_triangle net (axis1_length decoder_input))
    encoder_decoder_attention_bias mode) as (out & -> & Hout).
  cbn. eexists _, _. split; [reflexivity|].
  set (logits := output_layer net hp embedding out).
  assert (map length logits = map length decoder_input) as Hlog
    by by (unfold logits; rewrite lens_output_layer, Hout).
  assert (map length
            (map (map (λ row, to_int32 (Z.of_nat (tf_argmax row)))) logits)
          = map length decoder_input) as Hpreds
    by by rewrite lens_map_map.
  split; [by apply lens_length|].
  split; [by apply (has_length_of_lens _ _ _ Hlog)|].
  split; [by apply lens_length|].
  split; [by apply (has_length_of_lens _ _ _ Hpreds)|].
  intros b i s row Hs Hrow.
  assert (length row = _vocab_size embedding) as Hrowl
    by by eapply output_layer_vocab.
  split; [done|].
  destruct (tf_argmax_spec row Hord) as (x & Hx & Hmax).
  { intros ->. cbn in Hrowl. lia. }
  exists x. split; [|done].
  rewrite !list_lookup_fmap, Hs. cbn. rewrite list_lookup_fmap, Hrow. cbn.
  f_equal. apply to_int32_small.
  apply lookup_lt_Some in Hx. lia.
Qed.
End TrainingProperties.

(** ** Contracts of the stack, the step function and the inference call *)

Section ContractProperties.
Import TransformerDecoder.
Context {R : Type} `{Scalar R} {Bias : Type}.
Variable net : network R Bias.
Variable hp : hparams R.
Variable embedding : embedding_matrix R.

#[local] Arguments multihead_attention : simpl never.

Lemma for_range_ext {St} (f g : nat → St → result St) (start count : nat) (s : St) :
  (∀ i s, f i s = g i s) → for_range f start count s = for_range g start count s.
Proof.
  intros Hfg. revert start s.
  induction count as [|count IH]; intros start s; cbn; [done|].
  rewrite Hfg. destruct (g start s); cbn; [|done..]. apply IH.
Qed.

Lemma attend_kernel kernel (run : nat) (sc : scope) (bias : option Bias)
    (rate : R) (Q K V : list (list (list R))) :
  (∀ batch pos q keys values,
     kernel run sc bias rate batch pos q keys values
       = attention_kernel net run sc bias rate batch pos q keys values) →
  attend (with_attention_kernel kernel net) run sc bias rate Q K V
    = attend net run sc bias rate Q K V.
Proof.
  intros Hk. unfold attend. apply imap_ext. intros b qs _.
  apply imap_ext. intros i q _. cbn. apply Hk.
Qed.

Lemma multihead_attention_kernel kernel (run : nat) (sc : scope)
    (queries : list (list (list R))) (memory : option (list (list (list R))))
    (bias : option Bias) (rate : R) (lc : option (layer_cache R)) :
  (∀ batch pos q keys values,
     kernel run sc bias rate batch pos q keys values
       = attention_kernel net run sc bias rate batch pos q keys values) →
  multihead_attention (with_attention_kernel kernel net) run sc queries
    memory bias rate lc
    = multihead_attention net run sc queries memory bias rate lc.
Proof.
  intros Hk. unfold multihead_attention.
  change (dense_q (with_attention_kernel kernel net)) with (dense_q net).
  change (dense_k (with_attention_kernel kernel net)) with (dense_k net).
  change (dense_v (with_attention_kernel kernel net)) with (dense_v net).
  destruct memory as [mem|], lc as [l|]; try by rewrite attend_kernel.
  - destruct (decide _); by rewrite attend_kernel.
  - destruct (tf_concat_axis1 _ _) as [K| |]; cbn; [|done..].
    destruct (tf_concat_axis1 _ _) as [V| |]; cbn; [|done..].
    by rewrite attend_kernel.
Qed.

Lemma stack_layer_kernel kernel (run : nat)
    (encoder_output : option (list (list (list R))))
    (self_bias : option Bias) (cross_bias : Bias) (mode : option string)
    (i : nat) (st : list (list (list R)) * option (cache R Bias)) :
  same_kernel_at_cross_bias cross_bias kernel (attention_kernel net) →
  stack_layer (with_attention_kernel kernel net) hp run encoder_output
    self_bias (Some cross_bias) mode i st
    = stack_layer net hp run encoder_output self_bias (Some cross_bias) mode i st.
Proof.
  intros Hk. unfold stack_layer. destruct st as [x c].
  destruct (get_layer_cache c i) as [lc| |]; cbn; [|done..].
  rewrite multihead_attention_kernel by (intros; by apply Hk).
  destruct (multihead_attention net _ _ _ _ _ _ _) as [[o lc']| |]; cbn;
    [|done..].
  destruct encoder_output as [m|]; [|done].
  by rewrite multihead_attention_kernel by (intros; by apply Hk).
Qed.

(** C8. The stack called without a cache and without a
    [decoder_self_attention_bias] fails its assertion.  Called with a
    cache that has an entry for every block, and without a
    [decoder_self_attention_bias], it returns, and the cross-attention
    bias is the one stored in the cache: the result is the same whatever
    is passed as [encoder_decoder_attention_bias], and the same with any
    attention kernel that differs from the network's only where a
    cross-attention is given a bias other than the cache's. *)
Theorem stack_bias_contract (run : nat) (inputs : list (list (list R)))
    (encoder_output : option (list (list (list R))))
    (encoder_decoder_attention_bias : option Bias) (mode : option string)
    (c : cache R Bias) (n m : nat) :
  cache_ready hp (λ _, n) (length inputs) c →
  has_length m inputs →
  _self_attention_stack net hp run inputs encoder_output None
    encoder_decoder_attention_bias None mode = Raise AssertionError ∧
  ∃ out c',
    _self_attention_stack net hp run inputs encoder_output None
      encoder_decoder_attention_bias (Some c) mode = Done (out, Some c') ∧
    (∀ other_bias,
       _self_attention_stack net hp run inputs encoder_output None
         other_bias (Some c) mode = Done (out, Some c')) ∧
    (∀ kernel other_bias,
       same_kernel_at_cross_bias (cache_encoder_decoder_attention_bias c)
         kernel (attention_kernel net) →
       _self_attention_stack (with_attention_kernel kernel net) hp run inputs
         encoder_output None other_bias (Some c) mode = Done (out, Some c')).
Proof.
  intros Hc Hm. split; [done|].
  destruct (stack_cache net hp run inputs encoder_output None
    encoder_decoder_attention_bias c mode n m Hc Hm)
    as (out & c' & Hstack & _).
  exists out, c'. split; [done|]. split; [done|].
  intros kernel other_bias Hk. rewrite <- Hstack.
  unfold _self_attention_stack. cbn.
  by rewrite (for_range_ext _ _ _ _ _
    (λ i st, stack_layer_kernel kernel run encoder_output None _ mode i st Hk)).
Qed.
(** The step function, mode by mode: with ["sqrt_depth"] the embedded
    token is scaled by [channels ** 0.5]; with any other mode
    [assert NotImplementedError] passes and the embedding goes on
    unscaled. *)
Lemma step_fn_scaling (embedding_fn : list (list Z) → list (list (list R)))
    (max_length : Z) (ids : list (list Z)) (step : Z) (c : cache R Bias) :
  _symbols_to_logits_fn net hp embedding embedding_fn max_length ids step c =
  let inputs := embedding_fn (last_column ids) in
  let inputs :=
    if String.eqb (multiply_embedding_mode hp) "sqrt_depth"
    then tensor3_scale inputs (rsqrt (emb_dim embedding))
    else inputs in
  let inputs :=
    tensor3_add_broadcast inputs
      (take 1 (drop (Z.to_nat step)
         (position_embedder net (Z.to_nat max_length) (emb_dim embedding)))) in
  '(outputs, c') ← _self_attention_stack net hp (Z.to_nat step) inputs
                     (Some (cache_memory c)) None None (Some c) None;
  logits ← tf_squeeze_axis1 (output_layer net hp embedding outputs);
  Done (logits, default c c').
Proof.
  unfold _symbols_to_logits_fn. by destruct (String.eqb _ _).
Qed.

(** The inference path of [_build] never reads [bos_idx]. *)
Lemma build_ignores_bos_idx
    (beam_search :
      (list (list Z) → Z → cache R Bias → result (list (list R) * cache R Bias)) →
      list Z → Z → Z → nat → R → cache R Bias → Z →
      result (list (list (list Z)) * list (list R)))
    (encoder_output : option (list (list (list R))))
    (encoder_decoder_attention_bias : option Bias)
    (decoder_input : option (list (list Z))) (mode : option string) (bos : Z) :
  _build net (with_bos_idx bos hp) embedding beam_search
    encoder_output encoder_decoder_attention_bias decoder_input mode =
  _build net hp embedding beam_search
    encoder_output encoder_decoder_attention_bias decoder_input mode.
Proof. reflexivity. Qed.

(** The start tokens of the inference path are all 1. *)
Lemma build_start_tokens
    (beam_search :
      (list (list Z) → Z → cache R Bias → result (list (list R) * cache R Bias)) →
      list Z → Z → Z → nat → R → cache R Bias → Z →
      result (list (list (list Z)) * list (list R)))
    (memory : list (list (list R))) (bias : Bias) (mode : option string) :
  is_train_mode_py net mode = false →
  beam_width hp ≤ 1 →
  _build net hp embedding beam_search (Some memory) (Some bias) None mode =
  '(sampled_ids, log_probs) ←
    _greedy_decode net hp embedding (_prepare_tokens_to_embeds embedding)
      (replicate (bias_batch_size net bias) 1) (eos_idx hp)
      (maximum_decode_length hp) memory bias;
  Done (Predictions sampled_ids log_probs).
Proof.
  intros Hmode Hbeam. unfold _build. rewrite Hmode. cbn.
  by rewrite bool_decide_eq_true_2.
Qed.
End ContractProperties.

(** ** The concrete decoder *)

Section DecoderExamples.
Import TransformerDecoder DecoderExample.

Abbreviation embed := (_prepare_tokens_to_embeds embedding).

Lemma example_strict_weak_order : strict_weak_order Z.
Proof. split; cbn; intros; lia. Qed.

Lemma example_multinomial_shaped : multinomial_shaped net.
Proof. intros step logits ids Hids. done. Qed.

(** A greedy run: the first item emits the end token at step 0 and token
    1 at step 1; both log-probabilities sum over the two steps. *)
Example greedy_run :
  _greedy_decode net hp embedding embed [1; 1] 2 3 memory zero_bias
    = Done ([[[2; 1]]; [[0; 2]]], [[-4]; [-4]]).
Proof. vm_compute. reflexivity. Qed.

(** C4 on the concrete decoder.  With [multiply_embedding_mode] set to
    ["none"] the step function raises nothing: it returns the logits of
    the embeddings left unscaled, where ["sqrt_depth"] doubles them
    (four channels). *)
Example step_fn_unsupported_mode_returns :
  fst <$> _symbols_to_logits_fn net (with_multiply_embedding_mode "none" hp)
            embedding embed 4 [[1]; [1]] 0 (_init_cache hp memory zero_bias)
    = Done [[0; 1; 9]; [9; 1; 0]] ∧
  fst <$> _symbols_to_logits_fn net hp
            embedding embed 4 [[1]; [1]] 0 (_init_cache hp memory zero_bias)
    = Done [[0; 2; 9]; [9; 2; 0]].
Proof. split; vm_compute; reflexivity. Qed.

(** C5 on the concrete decoder.  With [bos_idx] set to 0 the inference
    call returns what greedy decoding from start tokens 1 returns, not
    what it returns from start tokens 0. *)
Example build_starts_from_token_1 :
  bos_idx (with_bos_idx 0 hp) = 0 ∧
  _build net (with_bos_idx 0 hp) embedding no_beam_search
    (Some memory) (Some zero_bias) None None
    = Done (Predictions [[[2; 1]]; [[0; 2]]] [[-4]; [-4]]) ∧
  _greedy_decode net (with_bos_idx 0 hp) embedding embed [1; 1] 2 3
    memory zero_bias
    = Done ([[[2; 1]]; [[0; 2]]], [[-4]; [-4]]) ∧
  _greedy_decode net (with_bos_idx 0 hp) embedding embed [0; 0] 2 3
    memory zero_bias
    = Done ([[[2; 1]]; [[0; 2]]], [[-4]; [-2]]).
Proof. repeat split; vm_compute; reflexivity. Qed.

(** The cross-attention bias comes from the cache (7), not from the
    argument (100). *)
Example stack_reads_bias_from_cache :
  fst <$> _self_attention_stack net hp 0 [[[1; 1; 1; 1]]; [[0; 0; 0; 0]]]
            (Some memory) None (Some (100, 2%nat))
            (Some (_init_cache hp memory (7, 2%nat))) None
    = Done [[[8; 8; 17; 8]]; [[16; 7; 7; 7]]].
Proof. vm_compute. reflexivity. Qed.

Lemma stack_bias_contract_witness :
  _self_attention_stack net hp 0 [[[1; 1; 1; 1]]; [[0; 0; 0; 0]]]
    (Some memory) None (Some (100, 2%nat)) None None = Raise AssertionError ∧
  ∃ out c',
    _self_attention_stack net hp 0 [[[1; 1; 1; 1]]; [[0; 0; 0; 0]]]
      (Some memory) None (Some (100, 2%nat))
      (Some (_init_cache hp memory (7, 2%nat))) None = Done (out, Some c') ∧
    (∀ other_bias,
       _self_attention_stack net hp 0 [[[1; 1; 1; 1]]; [[0; 0; 0; 0]]]
         (Some memory) None other_bias
         (Some (_init_cache hp memory (7, 2%nat))) None = Done (out, Some c')) ∧
    (∀ kernel other_bias,
       same_kernel_at_cross_bias (7, 2%nat) kernel (attention_kernel net) →
       _self_attention_stack (with_attention_kernel kernel net) hp 0
         [[[1; 1; 1; 1]]; [[0; 0; 0; 0]]] (Some memory) None other_bias
         (Some (_init_cache hp memory (7, 2%nat))) None = Done (out, Some c')).
Proof.
  apply (stack_bias_contract net hp 0 [[[1; 1; 1; 1]]; [[0; 0; 0; 0]]]
           (Some memory) (Some (100, 2%nat)) None
           (_init_cache hp memory (7, 2%nat)) 0 1).
  - apply (init_cache_ready hp memory (7, 2%nat)).
  - repeat constructor.
Defined.

(** The kernel that answers every cross-attention as for the bias 7 is
    the example's kernel wherever a cross-attention is given the bias 7.
    With 7 in the cache the stack computes with it what it computes with
    the example's kernel; with 100 in the cache it does not. *)
Example stack_asks_kernel_at_cache_bias :
  same_kernel_at_cross_bias (7, 2%nat) EdgeExample.kernel_bias_7
    (attention_kernel net) ∧
  fst <$> _self_attention_stack
            (with_attention_kernel EdgeExample.kernel_bias_7 net) hp 0
            [[[1; 1; 1; 1]]; [[0; 0; 0; 0]]] (Some memory) None None
            (Some (_init_cache hp memory (7, 2%nat))) None
    = Done [[[8; 8; 17; 8]]; [[16; 7; 7; 7]]] ∧
  fst <$> _self_attention_stack net hp 0
            [[[1; 1; 1; 1]]; [[0; 0; 0; 0]]] (Some memory) None None
            (Some (_init_cache hp memory (100, 2%nat))) None
    = Done [[[101; 101; 110; 101]]; [[109; 100; 100; 100]]] ∧
  fst <$> _self_attention_stack
            (with_attention_kernel EdgeExample.kernel_bias_7 net) hp 0
            [[[1; 1; 1; 1]]; [[0; 0; 0; 0]]] (Some memory) None None
            (Some (_init_cache hp memory (100, 2%nat))) None
    = Done [[[8; 8; 17; 8]]; [[16; 7; 7; 7]]].
Proof.
  split; [|repeat split; vm_compute; reflexivity].
  intros run sc b rate batch pos q keys values Hb.
  unfold EdgeExample.kernel_bias_7. destruct sc as [i|i|i|]; try done.
  by rewrite (Hb i).
Qed.

Lemma training_logits_and_preds_witness :
  ∃ logits preds,
    _build net hp embedding no_beam_search (Some memory) (Some zero_bias)
      (Some [[1; 0; 2]; [1; 2; 2]]) (Some "train"%string)
      = Done (LogitsPreds logits preds) ∧
    length logits = 2%nat ∧ has_length 3 logits ∧
    length preds = 2%nat ∧ has_length 3 preds ∧
    ∀ b i s row,
      logits !! b = Some s → s !! i = Some row →
      length row = 3%nat ∧
      ∃ x, (preds !! b) ≫= (.!! i) = Some (Z.of_nat (tf_argmax row)) ∧
           row !! tf_argmax row = Some x ∧
           ∀ j y, row !! j = Some y → rltb x y = false.
Proof.
  apply (training_logits_and_preds net hp embedding no_beam_search
           (Some memory) (Some zero_bias) [[1; 0; 2]; [1; 2; 2]]
           (Some "train"%string) 3).
  - exact example_strict_weak_order.
  - reflexivity.
  - repeat constructor.
  - cbn. lia.
  - cbn. lia.
Defined.

Lemma cache_sequence_lengths_witness :
  cache_seq_length hp 0 (_init_cache hp memory zero_bias) ∧
  (∀ v, greedy_steps net hp embedding 1 embed [1; 1] 2 3 memory zero_bias = Done v →
     cache_seq_length hp 1 (lv_cache v) ∧
     cache_memory (lv_cache v) = memory ∧
     cache_encoder_decoder_attention_bias (lv_cache v) = zero_bias ∧
     ∀ v', _body net hp (_symbols_to_logits_fn net hp embedding embed (3 + 1))
             2 2 v = Done v' →
       cache_seq_length hp 2 (lv_cache v') ∧
       cache_memory (lv_cache v') = memory ∧
       cache_encoder_decoder_attention_bias (lv_cache v') = zero_bias) ∧
  (sampling_method hp = "argmax"%string →
     ∃ v v', greedy_steps net hp embedding 1 embed [1; 1] 2 3 memory zero_bias
               = Done v ∧
             _body net hp (_symbols_to_logits_fn net hp embedding embed (3 + 1))
               2 2 v = Done v') ∧
  (∀ ids step c n,
     cache_ready hp (λ _, n) (length ids) c →
     Forall (λ row, row ≠ []) ids →
     0 ≤ step ≤ 3 →
     ∃ logits c',
       _symbols_to_logits_fn net hp embedding embed (3 + 1) ids step c
         = Done (logits, c') ∧
       cache_seq_length hp (S n) c' ∧
       cache_memory c' = cache_memory c ∧
       cache_encoder_decoder_attention_bias c'
         = cache_encoder_decoder_attention_bias c).
Proof.
  apply (cache_sequence_lengths net hp embedding [1; 1] 2 3 memory zero_bias 1).
  - by left.
  - reflexivity.
  - lia.
Defined.

Lemma finished_flag_sticky_witness :
  ∃ v v',
    greedy_steps net hp embedding 1 embed [1; 1] 2 3 memory zero_bias = Done v ∧
    lv_next_id v !! 0%nat = Some [2] ∧
    greedy_steps net hp embedding 2 embed [1; 1] 2 3 memory zero_bias = Done v' ∧
    lv_next_id v' !! 0%nat = Some [1] ∧
    lv_finished v' !! 0%nat = Some true.
Proof.
  destruct (greedy_steps net hp embedding 1 embed [1; 1] 2 3 memory zero_bias)
    as [v| |] eqn:Hv; [|by vm_compute in Hv..].
  destruct (greedy_steps net hp embedding 2 embed [1; 1] 2 3 memory zero_bias)
    as [v'| |] eqn:Hv'; [|by vm_compute in Hv'..].
  exists v, v'.
  assert (lv_next_id v !! 0%nat = Some [2]) as Heos.
  { vm_compute in Hv. by injection Hv as <-. }
  split; [done|]. split; [done|]. split; [done|]. split.
  { vm_compute in Hv'. by injection Hv' as <-. }
  apply (finished_flag_sticky net hp embedding [1; 1] 2 3 memory zero_bias
           0 2 0 v v'); [by left|reflexivity|lia|lia|done|done|done].
Defined.
End DecoderExamples.

(** ** The newest token and the arg-max *)

Section ArgmaxProperties.
Import TransformerDecoder.
Context {R : Type} `{Scalar R} {Bias : Type}.
Variable net : network R Bias.
Variable hp : hparams R.
Variable embedding : embedding_matrix R.

(** The step function reads the last token of every row only. *)
Lemma step_fn_last_column embedding_fn (max_length : Z)
    (ids ids' : list (list Z)) (step : Z) (c : cache R Bias) :
  last_column ids = last_column ids' →
  _symbols_to_logits_fn net hp embedding embedding_fn max_length ids step c =
  _symbols_to_logits_fn net hp embedding embedding_fn max_length ids' step c.
Proof. intros Heq. unfold _symbols_to_logits_fn. by rewrite Heq. Qed.

Lemma argmax_from_lt (row : list R) (best : R) (besti i : nat) :
  (besti < i)%nat → (argmax_from best besti i row < i + length row)%nat.
Proof.
  revert best besti i. induction row as [|x row IH]; intros best besti i Hlt; cbn.
  - lia.
  - destruct (rltb best x).
    + specialize (IH x i (S i)). lia.
    + specialize (IH best besti (S i)). lia.
Qed.

Lemma tf_argmax_lt (row : list R) :
  row ≠ [] → (tf_argmax row < length row)%nat.
Proof.
  destruct row as [|x row]; [done|]. intros _. cbn.
  pose proof (argmax_from_lt row x 0 1). lia.
Qed.
End ArgmaxProperties.

(** ** The cache a decoding call starts from *)

Section CacheConstruction.
Import TransformerDecoder.
Context {R : Type} `{Scalar R} {Bias : Type}.
Variable hp : hparams R.

(** X1. [_init_cache] keeps the memory and the bias it is given and makes
    one entry for every block below [num_blocks], and for no other
    index; the four tensors of an entry have one row for every batch item
    of the memory, each of length 0. *)
Theorem init_cache_entries (memory : list (list (list R))) (bias : Bias) :
  cache_memory (_init_cache hp memory bias) = memory ∧
  cache_encoder_decoder_attention_bias (_init_cache hp memory bias) = bias ∧
  ∀ l, cache_layers (_init_cache hp memory bias) !! l =
    if decide (l < num_blocks hp)%nat then
      Some {| self_keys := replicate (length memory) [];
              self_values := replicate (length memory) [];
              memory_keys := replicate (length memory) [];
              memory_values := replicate (length memory) [] |}
    else None.
Proof.
  split; [done|]. split; [done|]. intros l. unfold _init_cache. cbn.
  rewrite foldl_insert_lookup, lookup_empty.
  repeat case_decide; (done || lia).
Qed.
End CacheConstruction.

(** ** The stack on caches that lack an entry, and without a memory *)

Section StackEdgeCases.
Import TransformerDecoder.
Context {R : Type} `{Scalar R} {Bias : Type}.
Variable net : network R Bias.
Variable hp : hparams R.

#[local] Arguments multihead_attention : simpl never.
#[local] Arguments tf_layers_dropout : simpl never.
#[local] Arguments tensor3_add : simpl never.
#[local] Arguments per_position : simpl never.

Lemma for_range_app {St} (body : nat → St → result St) (a b start : nat) (s : St) :
  for_range body start (a + b) s =
    for_range body start a s ≫= for_range body (start + a) b.
Proof.
  revert start s. induction a as [|a IH]; intros start s; cbn.
  - by replace (start + 0)%nat with start by lia.
  - destruct (body start s) as [s'| |]; cbn; [|done..].
    rewrite IH. by replace (S start + a)%nat with (start + S a)%nat by lia.
Qed.

(** A block whose entry is well formed stores a new entry under its own
    key and leaves the rest of the cache alone. *)
Lemma stack_layer_entry run encoder_output sb eb mode i
    (x : list (list (list R))) (c : cache R Bias) lc n m :
  cache_layers c !! i = Some lc →
  layer_ready n (length x) lc → has_length m x →
  ∃ x' lc',
    stack_layer net hp run encoder_output sb eb mode i (x, Some c)
      = Done (x', Some {| cache_memory := cache_memory c;
                          cache_encoder_decoder_attention_bias :=
                            cache_encoder_decoder_attention_bias c;
                          cache_layers := <[i := lc']> (cache_layers c) |}) ∧
    map length x' = map length x.
Proof.
  intros Hlc Hready Hx. unfold stack_layer. cbn. rewrite Hlc. cbn.
  set (q := per_position (layer_normalize net (SelfAttention i)) x).
  assert (map length q = map length x) as Hq by apply lens_per_position.
  destruct (multihead_attention_self_cache net run (SelfAttention i) q sb
              (attention_dropout hp) lc n m)
    as (out & lc' & -> & Hout & _).
  { by rewrite (lens_length _ _ Hq). }
  { by apply (has_length_of_lens _ _ _ Hq). }
  cbn.
  match goal with
  | |- context [Done (_, Some ?c0)] =>
      destruct (stack_layer_tail net hp run encoder_output eb mode i
        (tensor3_add x (tf_layers_dropout net run (SelfAttention i)
           (residual_dropout hp) (is_train_mode net mode) out)) (Some c0))
        as (x' & -> & Hx')
  end.
  eexists _, _. split; [reflexivity|].
  rewrite Hx'. apply lens_tensor3_add. by rewrite lens_dropout, Hout, Hq.
Qed.

Lemma stack_layer_missing run encoder_output sb eb mode i
    (x : list (list (list R))) (c : cache R Bias) :
  cache_layers c !! i = None →
  stack_layer net hp run encoder_output sb eb mode i (x, Some c) = Raise KeyError.
Proof. intros Hnone. unfold stack_layer. cbn. by rewrite Hnone. Qed.

Lemma for_range_S {St} (body : nat → St → result St) (start count : nat) (s : St) :
  for_range body start (S count) s =
    body start s ≫= for_range body (S start) count.
Proof. reflexivity. Qed.

#[local] Arguments stack_layer : simpl never.

(** The blocks [start, start + count) run on well-formed entries and do
    not touch the entries of later blocks. *)
Lemma for_range_prefix run encoder_output sb eb mode n m count start
    (x : list (list (list R))) (c : cache R Bias) :
  (∀ l, (start ≤ l < start + count)%nat →
     ∃ lc, cache_layers c !! l = Some lc ∧ layer_ready n (length x) lc) →
  has_length m x →
  ∃ x' c',
    for_range (stack_layer net hp run encoder_output sb eb mode)
      start count (x, Some c) = Done (x', Some c') ∧
    map length x' = map length x ∧
    ∀ l, (start + count ≤ l)%nat → cache_layers c' !! l = cache_layers c !! l.
Proof.
  revert start x c. induction count as [|count IH]; intros start x c Hc Hx; cbn.
  - by exists x, c.
  - destruct (Hc start) as (lc & Hlc & Hready); [lia|].
    destruct (stack_layer_entry run encoder_output sb eb mode start x c lc n m)
      as (x1 & lc1 & -> & Hx1); [done..|].
    cbn.
    match goal with
    | |- context [for_range _ _ _ (_, Some ?c0)] => set (c1 := c0)
    end.
    destruct (IH (S start) x1 c1) as (x' & c' & -> & Hx' & Hc').
    + intros l Hl. rewrite (lens_length _ _ Hx1). subst c1. cbn.
      rewrite lookup_insert_ne by lia. apply Hc. lia.
    + by apply (has_length_of_lens _ _ _ Hx1).
    + exists x', c'. split; [done|]. split; [by rewrite Hx'|].
      intros l Hl. rewrite Hc' by lia. subst c1. cbn.
      by rewrite lookup_insert_ne by lia.
Qed.

#[local] Arguments for_range : simpl never.

(** X2. A cache that lacks the entry of a block makes the stack raise
    [KeyError]: when the entries of the blocks before block [i] are well
    formed and the entry of block [i < num_blocks] is missing, the lookup
    [cache[layer_name]] of block [i] fails. *)
Theorem stack_missing_layer_entry (run : nat) (inputs : list (list (list R)))
    (encoder_output : option (list (list (list R))))
    (sb eb : option Bias) (mode : option string)
    (c : cache R Bias) (i n m : nat) :
  (i < num_blocks hp)%nat →
  (∀ l, (l < i)%nat →
     ∃ lc, cache_layers c !! l = Some lc ∧ layer_ready n (length inputs) lc) →
  cache_layers c !! i = None →
  has_length m inputs →
  _self_attention_stack net hp run inputs encoder_output sb eb (Some c) mode
    = Raise KeyError.
Proof.
  intros Hi Hc Hnone Hx. unfold _self_attention_stack. cbn.
  set (x0 := tf_layers_dropout net run Top (embedding_dropout hp)
               (is_train_mode net mode) inputs).
  assert (map length x0 = map length inputs) as Hx0 by apply lens_dropout.
  replace (num_blocks hp) with (i + S (num_blocks hp - S i))%nat by lia.
  rewrite for_range_app.
  destruct (for_range_prefix run encoder_output sb
    (Some (cache_encoder_decoder_attention_bias c)) mode n m i 0 x0 c)
    as (x & c' & -> & _ & Hc').
  - intros l Hl. rewrite (lens_length _ _ Hx0). apply Hc. lia.
  - by apply (has_length_of_lens _ _ _ Hx0).
  - cbn. rewrite for_range_S, stack_layer_missing; [done|].
    rewrite Hc' by lia. done.
Qed.

(** X3. Without an encoder output there is no encoder-decoder attention:
    the stack's result does not depend on the encoder-decoder attention
    bias it is given. *)
Theorem stack_without_memory_ignores_bias (run : nat)
    (inputs : list (list (list R))) (sb eb eb' : option Bias)
    (c : option (cache R Bias)) (mode : option string) :
  _self_attention_stack net hp run inputs None sb eb c mode =
  _self_attention_stack net hp run inputs None sb eb' c mode.
Proof.
  unfold _self_attention_stack. destruct c as [c|]; cbn; [done|].
  by destruct (py_assert _) as [[]| |].
Qed.
End StackEdgeCases.

(** ** The step function at the edges of its domain *)

Section StepEdgeCases.
Import TransformerDecoder.
Context {R : Type} `{Scalar R} {Bias : Type}.
Variable net : network R Bias.
Variable hp : hparams R.
Variable embedding : embedding_matrix R.

#[local] Arguments _self_attention_stack : simpl never.
#[local] Arguments tf_squeeze_axis1 : simpl never.

Lemma last_column_idemp {A} (ids : list (list A)) :
  last_column (last_column ids) = last_column ids.
Proof.
  unfold last_column. rewrite map_map. apply map_ext. intros row.
  rewrite length_drop.
  replace (length row - (length row - 1) - 1)%nat with 0%nat by lia. done.
Qed.

(** X4. The step function reads the newest token of every row only
    ([ids[:, -1:]]): called on the whole history or on its last column,
    it returns the same logits and the same cache. *)
Theorem step_fn_reads_newest_token
    (embedding_fn : list (list Z) → list (list (list R))) (max_length : Z)
    (ids : list (list Z)) (step : Z) (c : cache R Bias) :
  _symbols_to_logits_fn net hp embedding embedding_fn max_length
    (last_column ids) step c =
  _symbols_to_logits_fn net hp embedding embedding_fn max_length ids step c.
Proof. apply step_fn_last_column, last_column_idemp. Qed.

Lemma tf_squeeze_axis1_empty_rows {A} (x : list (list A)) :
  x ≠ [] → has_length 0 x → tf_squeeze_axis1 x = Raise InvalidArgumentError.
Proof.
  intros Hne Hx. destruct x as [|s x]; [done|].
  apply Forall_cons in Hx as [Hs _]. destruct s; [|done].
  reflexivity.
Qed.

Lemma has_length_add_broadcast_0 (x : list (list (list R))) (p : list (list R)) :
  has_length 0 x ∨ p = [] → has_length 0 (tensor3_add_broadcast x p).
Proof.
  intros Hxp. unfold has_length, tensor3_add_broadcast.
  apply Forall_map, Forall_forall. intros s Hs. rewrite length_zip_with.
  destruct Hxp as [Hx| ->]; [|cbn; lia].
  unfold has_length in Hx. rewrite Forall_forall in Hx.
  rewrite (Hx s Hs). lia.
Qed.

(** X5. The step function needs a token in every row and a position
    below [max_length]: on a batch that is not empty, with a well-formed
    cache, rows without a token or a step [max_length ≤ step] leave a
    sequence axis of length 0, which [tf.squeeze(logits, axis=[1])]
    rejects. *)
Theorem step_fn_needs_token_and_position (max_length : Z)
    (ids : list (list Z)) (step : Z) (c : cache R Bias) (n : nat) :
  cache_ready hp (λ _, n) (length ids) c →
  ids ≠ [] →
  0 ≤ step →
  has_length 0 ids ∨ max_length ≤ step →
  _symbols_to_logits_fn net hp embedding
    (_prepare_tokens_to_embeds embedding) max_length ids step c
    = Raise InvalidArgumentError.
Proof.
  intros Hc Hne Hstep Hedge. rewrite step_fn_scaling. cbn zeta.
  set (ids1 := last_column ids).
  assert (length ids1 = length ids) as Hlen1
    by (unfold ids1, last_column; apply length_map).
  set (inputs := if String.eqb _ _ then _ else _).
  assert (map length inputs = map length ids1) as Hinputs.
  { subst inputs. destruct (String.eqb _ _).
    - by rewrite lens_tensor3_scale, lens_embedding_lookup.
    - by rewrite lens_embedding_lookup. }
  set (slice := take 1 (drop (Z.to_nat step) _)).
  set (x := tensor3_add_broadcast inputs slice).
  assert (length x = length ids) as Hxl.
  { unfold x, tensor3_add_broadcast.
    by rewrite length_map, (lens_length _ _ Hinputs). }
  assert (has_length 0 x) as Hx.
  { apply has_length_add_broadcast_0. destruct Hedge as [Hids|Hmax].
    - left. apply (has_length_of_lens _ _ _ Hinputs).
      unfold ids1, last_column, has_length. apply Forall_map.
      eapply Forall_impl; [exact Hids|]. intros row Hrow. cbn in *.
      rewrite length_drop. lia.
    - right. subst slice. rewrite drop_ge; [done|].
      rewrite position_embedder_length. lia. }
  destruct (stack_cache net hp (Z.to_nat step) x (Some (cache_memory c))
    None None c None n 0) as (out & c' & -> & Hout & _).
  { by rewrite Hxl. }
  { done. }
  cbn.
  assert (map length (output_layer net hp embedding out) = map length x)
    as Hlog by by rewrite lens_output_layer, Hout.
  rewrite tf_squeeze_axis1_empty_rows; [done| |].
  - intros Hnil. apply (f_equal length) in Hnil.
    rewrite (lens_length _ _ Hlog), Hxl in Hnil. by destruct ids.
  - by apply (has_length_of_lens _ _ _ Hlog).
Qed.
End StepEdgeCases.

(** ** What greedy decoding returns *)

Section GreedyOutputs.
Import TransformerDecoder.
Context {R : Type} `{Scalar R} {Bias : Type}.
Variable net : network R Bias.
Variable hp : hparams R.
Variable embedding : embedding_matrix R.

#[local] Arguments _symbols_to_logits_fn : simpl never.
#[local] Arguments tf_concat_axis1 : simpl never.
#[local] Arguments tf_argmax : simpl never.
#[local] Arguments to_int32 : simpl never.

Abbreviation body start_tokens eos decode_length :=
  (_body net hp
     (_symbols_to_logits_fn net hp embedding
        (_prepare_tokens_to_embeds embedding) (decode_length + 1))
     (length start_tokens) eos).

Abbreviation steps t start_tokens eos decode_length memory bias :=
  (greedy_steps net hp embedding t (_prepare_tokens_to_embeds embedding)
     start_tokens eos decode_length memory bias).

Abbreviation greedy_decode start_tokens eos decode_length memory bias :=
  (_greedy_decode net hp embedding (_prepare_tokens_to_embeds embedding)
     start_tokens eos decode_length memory bias).

Lemma tf_concat_axis1_Done {A} (a b ab : list (list A)) :
  tf_concat_axis1 a b = Done ab → length a = length b ∧ ab = zip_with app a b.
Proof.
  unfold tf_concat_axis1. case_decide; [|done]. intros Hab.
  by injection Hab as <-.
Qed.

(** The loop variables after an execution of the body that returns,
    whatever the sampling method. *)
Lemma body_shape (start_tokens : list Z) (eos decode_length : Z)
    (v v' : loop_vars) :
  body start_tokens eos decode_length v = Done v' →
  ∃ ids,
    length (lv_decoded_ids v) = length ids ∧
    lv_next_id v' = map (λ i, [i]) ids ∧
    lv_decoded_ids v' = zip_with app (lv_decoded_ids v) (map (λ i, [i]) ids) ∧
    lv_finished v' =
      zip_with orb (lv_finished v) (map (λ i, bool_decide (i = eos)) ids) ∧
    length (lv_log_prob v') =
      (length (lv_log_prob v) `min` (length start_tokens `min` length ids))%nat.
Proof.
  unfold _body. intros Hbody.
  destruct (_symbols_to_logits_fn _ _ _ _ _ _ _ _) as [[logits c]| |];
    cbn in Hbody; [|done..].
  match type of Hbody with
  | (?m ≫= _) = _ => destruct m as [ids| |]; cbn in Hbody; [|done..]
  end.
  destruct (tf_concat_axis1 _ _) as [dec| |] eqn:Hdec; cbn in Hbody; [|done..].
  apply tf_concat_axis1_Done in Hdec as [Hlen ->].
  injection Hbody as <-. exists ids. cbn.
  rewrite length_map in Hlen. repeat split; try done.
  unfold tf_gather_nd.
  by rewrite length_zip_with, length_map, length_zip, length_map, length_seq.
Qed.

Lemma has_length_snoc {A} (t : nat) (d : list (list A)) (ids : list A) :
  length d = length ids → has_length t d →
  has_length (S t) (zip_with app d (map (λ i, [i]) ids)).
Proof.
  unfold has_length. intros Hlen Hd. revert ids Hlen.
  induction Hd as [|row d Hrow Hd IH]; intros [|i ids] Hlen; cbn in *;
    try done.
  constructor; [rewrite length_app; cbn; lia|]. apply IH. lia.
Qed.

Lemma last_column_snoc {A} (d : list (list A)) (ids : list A) :
  length d = length ids →
  last_column (zip_with app d (map (λ i, [i]) ids)) = map (λ i, [i]) ids.
Proof.
  revert ids. induction d as [|row d IH]; intros [|i ids] Hlen; cbn in *;
    try done.
  f_equal; [|apply IH; lia].
  rewrite length_app. cbn.
  replace (length row + 1 - 1)%nat with (length row) by lia.
  by rewrite drop_app_length.
Qed.

(** The sizes of the loop variables after [t] executions of the body. *)
Lemma steps_shape (start_tokens : list Z) (eos decode_length : Z)
    (memory : list (list (list R))) (bias : Bias) (t : nat) (v : loop_vars) :
  steps t start_tokens eos decode_length memory bias = Done v →
  length (lv_finished v) = length start_tokens ∧
  length (lv_decoded_ids v) = length start_tokens ∧
  has_length t (lv_decoded_ids v) ∧
  length (lv_log_prob v) = length start_tokens.
Proof.
  revert v. induction t as [|t IH]; intros v Hv.
  - unfold greedy_steps in Hv. injection Hv as <-. cbn.
    rewrite !length_replicate. repeat split; try done.
    apply has_length_replicate_nil.
  - apply steps_S_inv in Hv as (vt & Hvt & Hbody).
    destruct (IH vt Hvt) as (Hf & Hd & Hdt & Hlp).
    apply body_shape in Hbody as (ids & Hlen & _ & -> & -> & Hlp').
    rewrite Hlp', Hlp, !length_zip_with, !length_map, Hf, Hd, <- Hlen, Hd.
    repeat split; try lia.
    by apply has_length_snoc.
Qed.

(** X6. Whenever greedy decoding returns, with any sampling method, it
    returns one sequence for every start token, wrapped in an axis of
    size 1, all of one length [n ≤ decode_length] (the number of
    iterations), and one log-probability for every start token, wrapped
    likewise: the shapes [batch, 1, n] and [batch, 1]. *)
Theorem greedy_decode_shape (start_tokens : list Z) (eos decode_length : Z)
    (memory : list (list (list R))) (bias : Bias)
    (outputs : list (list (list Z))) (log_prob : list (list R)) :
  greedy_decode start_tokens eos decode_length memory bias
    = Done (outputs, log_prob) →
  ∃ n, (n ≤ Z.to_nat decode_length)%nat ∧
       length outputs = length start_tokens ∧
       Forall (λ o, ∃ row, o = [row] ∧ length row = n) outputs ∧
       length log_prob = length start_tokens ∧
       has_length 1 log_prob.
Proof.
  unfold _greedy_decode, greedy_loop. intros Hdec.
  destruct (while_loop _ _ _ _) as [[n v]| |] eqn:Hloop; cbn in Hdec; [|done..].
  injection Hdec as <- <-.
  apply while_loop_Done in Hloop as (Hrun & _ & Hbefore).
  destruct (steps_shape start_tokens eos decode_length memory bias n v Hrun)
    as (_ & Hd & Hdn & Hlp).
  exists n. rewrite !length_map. repeat split; try done.
  - destruct n as [|n]; [lia|].
    destruct (Hbefore n) as (vn & Hvn & Hcond); [lia|].
    apply is_not_finished_true in Hcond as [Hlt _].
    rewrite (steps_step net hp embedding _ _ _ _ _ _ _ Hvn) in Hlt. lia.
  - apply Forall_map. eapply Forall_impl; [exact Hdn|].
    intros row Hrow. by exists row.
  - unfold has_length. apply Forall_map. by apply Forall_true.
Qed.

(** X7. Nothing to decode: with arg-max sampling, a [decode_length] that
    is not positive or an empty batch ends the loop before its first
    iteration; every item gets the empty sequence and the log-probability
    zero, and the step function is never called. *)
Theorem greedy_decode_nothing_to_do (start_tokens : list Z)
    (eos decode_length : Z) (memory : list (list (list R))) (bias : Bias) :
  sampling_method hp = "argmax"%string →
  decode_length ≤ 0 ∨ start_tokens = [] →
  greedy_decode start_tokens eos decode_length memory bias
    = Done (replicate (length start_tokens) [[]],
            replicate (length start_tokens) [rzero]).
Proof.
  intros _ Hedge. unfold _greedy_decode, greedy_loop. cbn.
  assert (is_not_finished decode_length
            (greedy_init hp start_tokens memory bias) = false) as ->.
  { apply is_not_finished_false. cbn.
    destruct Hedge as [Hdl| ->]; [by left|by right]. }
  cbn. by rewrite !fmap_replicate.
Qed.

Lemma forallb_id_replicate_false (n : nat) :
  n ≠ 0%nat → forallb id (replicate n false) = false.
Proof. by destruct n. Qed.

(** X8. A sampling method other than ['argmax'] and ['sample'] leaves
    [next_id] as the loop passed it in, of rank 2, and [tf.stack] rejects
    it: on a batch of consistent size that is not empty, with a positive
    [decode_length], greedy decoding raises [ValueError]. *)
Theorem greedy_decode_unknown_sampling_method (start_tokens : list Z)
    (eos decode_length : Z) (memory : list (list (list R))) (bias : Bias) :
  sampling_method hp ≠ "argmax"%string →
  sampling_method hp ≠ "sample"%string →
  0 < decode_length →
  start_tokens ≠ [] →
  length memory = length start_tokens →
  greedy_decode start_tokens eos decode_length memory bias = Raise ValueError.
Proof.
  intros Hargmax Hsample Hdl Hne Hlen. unfold _greedy_decode, greedy_loop. cbn.
  assert (is_not_finished decode_length
            (greedy_init hp start_tokens memory bias) = true) as ->.
  { apply is_not_finished_true. cbn. split; [done|].
    apply forallb_id_replicate_false. by destruct start_tokens. }
  pose proof (greedy_init_inv hp start_tokens memory bias Hlen)
    as (Hstep & Hfin & Hnext & Hnext1 & Hdec & Hdect & Hlp & Hc & Hmem & Hbias).
  unfold _body.
  destruct (step_fn_ok net hp embedding (decode_length + 1)
    (lv_next_id (greedy_init hp start_tokens memory bias))
    (lv_step (greedy_init hp start_tokens memory bias))
    (lv_cache (greedy_init hp start_tokens memory bias)) 0)
    as (logits & c' & -> & _).
  { by rewrite Hnext. }
  { eapply Forall_impl; [exact Hnext1|]. intros row Hrow ->. done. }
  { rewrite Hstep. lia. }
  cbn. apply String.eqb_neq in Hargmax, Hsample.
  by rewrite Hargmax, Hsample.
Qed.

(** What the body does with arg-max sampling. *)
Lemma body_argmax_ids (start_tokens : list Z) (eos decode_length : Z)
    (memory : list (list (list R))) (bias : Bias) (t : nat) (v v' : loop_vars) :
  sampling_method hp = "argmax"%string →
  greedy_inv hp (length start_tokens) memory bias t v →
  Z.of_nat t < decode_length →
  body start_tokens eos decode_length v = Done v' →
  ∃ logits,
    length logits = length start_tokens ∧
    Forall (λ row, length row = _vocab_size embedding) logits ∧
    lv_decoded_ids v' =
      zip_with app (lv_decoded_ids v)
        (map (λ i, [i]) (map (λ row, to_int32 (Z.of_nat (tf_argmax row))) logits)).
Proof.
  intros Hs (Hstep & Hfin & Hnext & Hnext1 & Hdec & Hdect & Hlp & Hc & Hmem & Hbias)
    Ht Hbody.
  unfold _body in Hbody.
  destruct (step_fn_ok net hp embedding (decode_length + 1) (lv_next_id v)
    (lv_step v) (lv_cache v) t)
    as (logits & c' & Hfn & Hlog & _ & _ & _ & _ & Hvocab).
  { by rewrite Hnext. }
  { eapply Forall_impl; [exact Hnext1|]. intros row Hrow ->. done. }
  { lia. }
  rewrite Hfn in Hbody. cbn in Hbody. rewrite Hs in Hbody. cbn in Hbody.
  destruct (tf_concat_axis1 _ _) as [dec| |] eqn:Hcat; cbn in Hbody; [|done..].
  apply tf_concat_axis1_Done in Hcat as [_ ->].
  injection Hbody as <-. exists logits. cbn. by rewrite Hlog, Hnext.
Qed.

Lemma in_vocabulary_snoc (d : list (list Z)) (logits : list (list R)) :
  (0 < _vocab_size embedding)%nat →
  Z.of_nat (_vocab_size embedding) ≤ 2^31 →
  Forall (λ row, length row = _vocab_size embedding) logits →
  in_vocabulary embedding d →
  in_vocabulary embedding
    (zip_with app d
       (map (λ i, [i]) (map (λ row, to_int32 (Z.of_nat (tf_argmax row))) logits))).
Proof.
  intros Hpos Hmax Hlogits Hd. unfold in_vocabulary in *. revert logits Hlogits.
  induction Hd as [|row d Hrow Hd IH]; intros [|l logits] Hlogits; cbn;
    try by constructor.
  apply Forall_cons in Hlogits as [Hl Hlogits].
  constructor; [|by apply IH].
  apply Forall_app. split; [done|]. constructor; [|done].
  assert (tf_argmax l < length l)%nat as Hlt.
  { apply tf_argmax_lt. intros ->. cbn in Hl. lia. }
  rewrite to_int32_small; lia.
Qed.

(** With arg-max sampling the loop returns from every state the
    invariant holds of, and keeps the tokens inside the vocabulary. *)
Lemma greedy_loop_argmax (start_tokens : list Z) (eos decode_length : Z)
    (memory : list (list (list R))) (bias : Bias)
    (fuel t : nat) (v : loop_vars) :
  sampling_method hp = "argmax"%string →
  (0 < _vocab_size embedding)%nat →
  Z.of_nat (_vocab_size embedding) ≤ 2^31 →
  greedy_inv hp (length start_tokens) memory bias t v →
  in_vocabulary embedding (lv_decoded_ids v) →
  (Z.to_nat (decode_length - Z.of_nat t) < fuel)%nat →
  ∃ n v',
    while_loop fuel (is_not_finished decode_length)
      (body start_tokens eos decode_length) v = Done (n, v') ∧
    in_vocabulary embedding (lv_decoded_ids v').
Proof.
  intros Hs Hpos Hmax. revert t v.
  induction fuel as [|fuel IH]; intros t v Hinv Hv Hfuel; [lia|]. cbn.
  destruct (is_not_finished decode_length v) eqn:Hcond; [|by eauto].
  apply is_not_finished_true in Hcond as [Hlt _].
  pose proof Hinv as (Hstep & _). rewrite Hstep in Hlt.
  destruct (body_argmax net hp embedding start_tokens eos decode_length
    memory bias t v) as (v1 & Hv1); [done..|].
  rewrite Hv1. cbn.
  destruct (body_inv net hp embedding start_tokens eos decode_length
    memory bias t v v1) as [Hinv1 _]; [by left|done..|].
  destruct (body_argmax_ids start_tokens eos decode_length memory bias t v v1)
    as (logits & _ & Hlogits & Hdec); [done..|].
  destruct (IH (S t) v1) as (n & v' & -> & Hv'); [done| |lia|].
  { rewrite Hdec. by apply in_vocabulary_snoc. }
  cbn. eauto.
Qed.

(** With arg-max sampling the token fed to the next step is the arg-max
    of the logits of the item. *)
Lemma body_argmax_next_id (start_tokens : list Z) (eos decode_length : Z)
    (memory : list (list (list R))) (bias : Bias) (t : nat) (v v' : loop_vars) :
  sampling_method hp = "argmax"%string →
  greedy_inv hp (length start_tokens) memory bias t v →
  Z.of_nat t < decode_length →
  body start_tokens eos decode_length v = Done v' →
  ∃ logits,
    Forall (λ row, length row = _vocab_size embedding) logits ∧
    lv_next_id v' =
      map (λ i, [i]) (map (λ row, to_int32 (Z.of_nat (tf_argmax row))) logits).
Proof.
  intros Hs (Hstep & Hfin & Hnext & Hnext1 & Hdec & Hdect & Hlp & Hc & Hmem & Hbias)
    Ht Hbody.
  unfold _body in Hbody.
  destruct (step_fn_ok net hp embedding (decode_length + 1) (lv_next_id v)
    (lv_step v) (lv_cache v) t)
    as (logits & c' & Hfn & Hlog & _ & _ & _ & _ & Hvocab).
  { by rewrite Hnext. }
  { eapply Forall_impl; [exact Hnext1|]. intros row Hrow ->. done. }
  { lia. }
  rewrite Hfn in Hbody. cbn in Hbody. rewrite Hs in Hbody. cbn in Hbody.
  destruct (tf_concat_axis1 _ _) as [dec| |] eqn:Hcat; cbn in Hbody; [|done..].
  injection Hbody as <-. by exists logits.
Qed.

(** X9. With arg-max sampling, start tokens that are indices into the
    vocabulary, a batch of consistent size and a vocabulary that is not
    empty and fits the int32 ids, greedy decoding returns; every token
    it returns, and every token that a step up to [decode_length] hands
    to the next one for the embedding lookup, is an index into the
    vocabulary. *)
Theorem greedy_decode_argmax_in_vocabulary (start_tokens : list Z)
    (eos decode_length : Z) (memory : list (list (list R))) (bias : Bias) :
  sampling_method hp = "argmax"%string →
  length memory = length start_tokens →
  (0 < _vocab_size embedding)%nat →
  Z.of_nat (_vocab_size embedding) ≤ 2^31 →
  Forall (λ z, 0 ≤ z < Z.of_nat (_vocab_size embedding)) start_tokens →
  (∃ outputs log_prob,
     greedy_decode start_tokens eos decode_length memory bias
       = Done (outputs, log_prob) ∧
     Forall (in_vocabulary embedding) outputs) ∧
  ∀ t v,
    Z.of_nat t ≤ decode_length →
    steps t start_tokens eos decode_length memory bias = Done v →
    in_vocabulary embedding (lv_next_id v).
Proof.
  intros Hs Hlen Hpos Hmax Hstart. split.
  - unfold _greedy_decode, greedy_loop.
    destruct (greedy_loop_argmax start_tokens eos decode_length memory bias
      (S (Z.to_nat decode_length)) 0 (greedy_init hp start_tokens memory bias))
      as (n & v & -> & Hv); [done|done|done| | | |].
    + by apply greedy_init_inv.
    + unfold in_vocabulary. cbn. apply Forall_replicate. constructor.
    + lia.
    + cbn. eexists _, _. split; [reflexivity|].
      apply Forall_map. eapply Forall_impl; [exact Hv|].
      intros row Hrow. by repeat constructor.
  - intros [|t] v Ht Hv.
    + unfold greedy_steps in Hv. injection Hv as <-. cbn.
      unfold in_vocabulary. apply Forall_map.
      eapply Forall_impl; [exact Hstart|]. intros z Hz. by constructor.
    + apply steps_S_inv in Hv as (vt & Hvt & Hbody).
      destruct (body_argmax_next_id start_tokens eos decode_length memory bias
        t vt v) as (logits & Hlogits & ->); [done| |lia|done|].
      { apply (steps_inv net hp embedding start_tokens eos decode_length);
          [by left|done|lia|done]. }
      unfold in_vocabulary. rewrite map_map. apply Forall_map.
      eapply Forall_impl; [exact Hlogits|]. intros row Hrow. cbn in Hrow.
      constructor; [|done].
      assert (tf_argmax row < length row)%nat as Hlt.
      { apply tf_argmax_lt. intros ->. cbn in Hrow. lia. }
      rewrite to_int32_small; lia.
Qed.

(** X10. The token fed to the next step is the token just appended:
    after every execution of the body, the last column of [decoded_ids]
    is [next_id]. *)
Theorem greedy_feeds_back_last_token (start_tokens : list Z)
    (eos decode_length : Z) (memory : list (list (list R))) (bias : Bias)
    (t : nat) (v : loop_vars) :
  steps (S t) start_tokens eos decode_length memory bias = Done v →
  last_column (lv_decoded_ids v) = lv_next_id v.
Proof.
  intros Hv. apply steps_S_inv in Hv as (vt & _ & Hbody).
  apply body_shape in Hbody as (ids & Hlen & -> & -> & _).
  by apply last_column_snoc.
Qed.

(** X11. When the first token chosen for every item is the end token,
    the loop stops after one iteration: every returned sequence is the
    end token alone. *)
Theorem greedy_decode_stops_at_first_eos (start_tokens : list Z)
    (eos decode_length : Z) (memory : list (list (list R))) (bias : Bias)
    (v : loop_vars) :
  0 < decode_length →
  start_tokens ≠ [] →
  steps 1 start_tokens eos decode_length memory bias = Done v →
  Forall (λ row, row = [eos]) (lv_next_id v) →
  greedy_decode start_tokens eos decode_length memory bias
    = Done (replicate (length start_tokens) [[eos]],
            map (λ x, [x]) (lv_log_prob v)).
Proof.
  intros Hdl Hne Hv Heos. unfold _greedy_decode, greedy_loop.
  replace (Z.to_nat decode_length) with (S (Z.to_nat decode_length - 1)) by lia.
  cbn.
  assert (is_not_finished decode_length
            (greedy_init hp start_tokens memory bias) = true) as ->.
  { apply is_not_finished_true. cbn. split; [done|].
    apply forallb_id_replicate_false. by destruct start_tokens. }
  unfold greedy_steps in Hv. cbn in Hv.
  destruct (body start_tokens eos decode_length
              (greedy_init hp start_tokens memory bias)) as [v1| |] eqn:Hbody;
    cbn in Hv; [|done..].
  injection Hv as ->. cbn.
  apply body_shape in Hbody as (ids & Hlen & Hnext & Hdec & Hfin & _).
  cbn in Hlen, Hdec, Hfin. rewrite length_replicate in Hlen.
  assert (ids = replicate (length start_tokens) eos) as ->.
  { rewrite Hnext in Heos. rewrite Hlen. clear -Heos.
    induction ids as [|i ids IH]; [done|].
    apply Forall_cons in Heos as [Hi Heos]. cbn. injection Hi as ->.
    f_equal. by apply IH. }
  assert (is_not_finished decode_length v = false) as ->.
  { apply is_not_finished_false. right. rewrite Hfin.
    clear. induction (length start_tokens) as [|k IH]; [done|].
    cbn. by rewrite bool_decide_eq_true_2. }
  cbn. rewrite Hdec. f_equal. f_equal.
  clear. induction (length start_tokens) as [|k IH]; [done|].
  cbn. by rewrite IH.
Qed.
End GreedyOutputs.

(** ** How [_build] dispatches *)

Section BuildDispatch.
Import TransformerDecoder.
Context {R : Type} `{Scalar R} {Bias : Type}.
Variable net : network R Bias.
Variable hp : hparams R.
Variable embedding : embedding_matrix R.

(** X12. [_build] calls the beam search only at inference with
    [beam_width > 1]: in training, and at inference with
    [beam_width ≤ 1], its result is the same for every beam search;
    and at inference it does not read [decoder_input]. *)
Theorem build_dispatch
    (beam_search beam_search' :
      (list (list Z) → Z → cache R Bias → result (list (list R) * cache R Bias)) →
      list Z → Z → Z → nat → R → cache R Bias → Z →
      result (list (list (list Z)) * list (list R)))
    (encoder_output : option (list (list (list R))))
    (encoder_decoder_attention_bias : option Bias)
    (decoder_input decoder_input' : option (list (list Z)))
    (mode : option string) :
  (is_train_mode_py net mode = true ∨ beam_width hp ≤ 1 →
   _build net hp embedding beam_search encoder_output
     encoder_decoder_attention_bias decoder_input mode =
   _build net hp embedding beam_search' encoder_output
     encoder_decoder_attention_bias decoder_input mode) ∧
  (is_train_mode_py net mode = false →
   _build net hp embedding beam_search encoder_output
     encoder_decoder_attention_bias decoder_input mode =
   _build net hp embedding beam_search encoder_output
     encoder_decoder_attention_bias decoder_input' mode).
Proof.
  unfold _build. split.
  - intros [-> | Hw]; [done|].
    destruct (is_train_mode_py net mode); [done|].
    by rewrite bool_decide_eq_true_2.
  - by intros ->.
Qed.
End BuildDispatch.

(** ** Paired text data: the two vocabularies *)

Section PairedVocabularies.
Import PairedTextData.
Context {Embedding Dataset DataSpec DataSpecI Processor TranFn LengthFn : Type}.
Variable BOS_TOKEN EOS_TOKEN : string.
Variable default_string : option string → string → string.
Variable MonoTextData_make_vocab :
  dataset_hparams → gmap nat vocab → nat * gmap nat vocab.

Abbreviation pstate := (@pstate Embedding Dataset DataSpec Processor).
Abbreviation make_vocab :=
  (@make_vocab Embedding Dataset DataSpec Processor
     BOS_TOKEN EOS_TOKEN default_string MonoTextData_make_vocab).
Abbreviation resolved_tgt_tokens :=
  (resolved_tgt_tokens BOS_TOKEN EOS_TOKEN default_string).
Abbreviation returns_live_vocab :=
  (returns_live_vocab MonoTextData_make_vocab).

(** [make_vocab] returns two objects that exist, the first the one
    [MonoTextData.make_vocab] made; it changes no object that exists
    after that call, and touches neither [self] nor the datasets. *)
Lemma make_vocab_runs (src_hparams tgt_hparams : dataset_hparams) (s : pstate) :
  returns_live_vocab →
  ∃ src_vocab tgt_vocab s',
    make_vocab src_hparams tgt_hparams s = (Done (src_vocab, tgt_vocab), s') ∧
    src_vocab = (MonoTextData_make_vocab src_hparams (heap s)).1 ∧
    is_Some (heap s' !! src_vocab) ∧ is_Some (heap s' !! tgt_vocab) ∧
    self s' = self s ∧ trace s' = trace s ∧
    (∀ a, is_Some ((MonoTextData_make_vocab src_hparams (heap s)).2 !! a) →
       heap s' !! a = (MonoTextData_make_vocab src_hparams (heap s)).2 !! a) ∧
    (vocab_share tgt_hparams = false →
       tgt_vocab ≠ src_vocab ∧
       heap s' !! tgt_vocab =
         Some {| vocab_filename := vocab_file tgt_hparams;
                 vocab_bos_token := (resolved_tgt_tokens src_hparams tgt_hparams).1;
                 vocab_eos_token := (resolved_tgt_tokens src_hparams tgt_hparams).2 |}).
Proof.
  intros Hlive.
  unfold PairedTextData.make_vocab, call_MonoTextData_make_vocab.
  unfold mbind, M_bind at 1. simpl.
  specialize (Hlive src_hparams (heap s)).
  destruct (MonoTextData_make_vocab src_hparams (heap s)) as [a h] eqn:Hmk.
  simpl in Hlive. destruct Hlive as [sv Hsv].
  destruct (resolved_tgt_tokens src_hparams tgt_hparams) as [b e] eqn:Hres.
  assert (∀ a', is_Some (h !! a') → fresh (dom h) ≠ a') as Hfresh.
  { intros a' Hin <-. apply elem_of_dom in Hin. by apply is_fresh in Hin. }
  assert (fresh (dom h) ≠ a) as Hne by (apply Hfresh; eauto).
  destruct (vocab_share tgt_hparams) eqn:Hshare.
  - unfold mbind, M_bind, vocab_at, mret, M_ret. simpl. rewrite Hsv.
    destruct (bool_decide (b = vocab_bos_token sv) &&
              bool_decide (e = vocab_eos_token sv)).
    + eexists a, a, _. split; [reflexivity|]. simpl. repeat split; eauto.
      all: done.
    + eexists a, (fresh (dom h)), _. split; [reflexivity|]. simpl.
      rewrite lookup_insert_ne by done. rewrite lookup_insert_eq.
      repeat split; eauto; try done.
      intros a' Ha'. rewrite lookup_insert_ne; [done|]. by apply Hfresh.
  - unfold mbind, M_bind, mret, M_ret. simpl.
    eexists a, (fresh (dom h)), _. split; [reflexivity|]. simpl.
    rewrite lookup_insert_ne by done. rewrite lookup_insert_eq.
    repeat split; eauto.
    intros a' Ha'. rewrite lookup_insert_ne; [done|]. by apply Hfresh.
Qed.

(** X14. Without [vocab_share] the target vocabulary is always an object
    of its own, built from the target's vocabulary file with the resolved
    target tokens, and the source vocabulary stays in place. *)
Theorem make_vocab_without_share
    (src_hparams tgt_hparams : dataset_hparams) (s : pstate) :
  returns_live_vocab →
  vocab_share tgt_hparams = false →
  ∃ src_vocab tgt_vocab s',
    make_vocab src_hparams tgt_hparams s = (Done (src_vocab, tgt_vocab), s') ∧
    tgt_vocab ≠ src_vocab ∧
    is_Some (heap s' !! src_vocab) ∧
    heap s' !! tgt_vocab =
      Some {| vocab_filename := vocab_file tgt_hparams;
              vocab_bos_token := (resolved_tgt_tokens src_hparams tgt_hparams).1;
              vocab_eos_token := (resolved_tgt_tokens src_hparams tgt_hparams).2 |}.
Proof.
  intros Hlive Hshare.
  destruct (make_vocab_runs src_hparams tgt_hparams s Hlive)
    as (sv & tv & s' & Heq & _ & Hsv & _ & _ & _ & _ & Hnew).
  destruct (Hnew Hshare) as [Hne Htv]. by exists sv, tv, s'.
Qed.

(** X15. [make_vocab] returns, whatever the sharing flags, two objects
    that exist; it changes no [Vocab] object that exists once
    [MonoTextData.make_vocab] has run, sets no attribute of [self] and
    makes no dataset call. *)
Theorem make_vocab_keeps_objects
    (src_hparams tgt_hparams : dataset_hparams) (s : pstate) :
  returns_live_vocab →
  ∃ src_vocab tgt_vocab s',
    make_vocab src_hparams tgt_hparams s = (Done (src_vocab, tgt_vocab), s') ∧
    is_Some (heap s' !! src_vocab) ∧ is_Some (heap s' !! tgt_vocab) ∧
    self s' = self s ∧ trace s' = trace s ∧
    ∀ a, is_Some ((MonoTextData_make_vocab src_hparams (heap s)).2 !! a) →
      heap s' !! a = (MonoTextData_make_vocab src_hparams (heap s)).2 !! a.
Proof.
  intros Hlive.
  destruct (make_vocab_runs src_hparams tgt_hparams s Hlive)
    as (sv & tv & s' & Heq & _ & Hsv & Htv & Hself & Htrace & Hkeep & _).
  by exists sv, tv, s'.
Qed.

(** X16. With [processing_share] the special tokens of the target
    vocabulary are the source's: two target configurations that agree on
    [vocab_share] and [vocab_file] give the same vocabularies, whatever
    their own bos and eos tokens. *)
Theorem make_vocab_processing_share
    (src_hparams tgt_hparams tgt_hparams' : dataset_hparams) (s : pstate) :
  processing_share tgt_hparams = true →
  processing_share tgt_hparams' = true →
  vocab_share tgt_hparams' = vocab_share tgt_hparams →
  vocab_file tgt_hparams' = vocab_file tgt_hparams →
  make_vocab src_hparams tgt_hparams' s = make_vocab src_hparams tgt_hparams s.
Proof.
  intros Hp Hp' Hshare Hfile.
  unfold PairedTextData.make_vocab, PairedTextData.resolved_tgt_tokens.
  by rewrite Hp, Hp', Hshare, Hfile.
Qed.
End PairedVocabularies.

(** ** Paired text data: how construction ends *)

Section PairedConstructionOutcomes.
Import PairedTextData PairedTextDataAccessors PairedTextDataDefaults.
Context {Embedding Dataset DataSpec DataSpecI Processor TranFn LengthFn : Type}.
Variable BOS_TOKEN EOS_TOKEN : string.
Variable default_string : option string → string → string.
Variable MonoTextData_make_vocab :
  dataset_hparams → gmap nat PairedTextData.vocab → nat * gmap nat PairedTextData.vocab.
Variable MonoTextData_make_embedding :
  dataset_hparams → PairedTextData.vocab → option Embedding.
Variable Embedding_new : PairedTextData.vocab → dataset_hparams → Embedding.
Variable tf_data_TextLineDataset : string → option string → Dataset.
Variable tf_data_Dataset_zip : Dataset → Dataset → Dataset.
Variable _shuffle_dataset : Dataset → data_hparams → string → Dataset * Z.
Variable _DataSpec :
  Dataset → Z → nat * nat → option Embedding * option Embedding → DataSpec.
Variable get_ith_data_spec : DataSpec → nat → DataSpecI.
Variable set_ith_data_spec : DataSpec → nat → DataSpecI → nat → DataSpec.
Variable MonoTextData_make_processor :
  dataset_hparams → DataSpecI → Processor * list Processor * DataSpecI.
Variable make_combined_transformation :
  list (list Processor) → string * string → TranFn.
Variable add_spec : DataSpec → string * string → DataSpec.
Variable data_spec_decoder : DataSpec → nat → Processor.
Variable dataset_map : Dataset → TranFn → Z → Dataset.
Variable default_length_fn : LengthFn.
Variable get_function : string → LengthFn.
Variable _make_batch : Dataset → data_hparams → LengthFn → Dataset.
Variable dataset_prefetch : Dataset → Z → Dataset.

Abbreviation init :=
  (__init__ BOS_TOKEN EOS_TOKEN default_string MonoTextData_make_vocab
     MonoTextData_make_embedding Embedding_new tf_data_TextLineDataset
     tf_data_Dataset_zip _shuffle_dataset _DataSpec get_ith_data_spec
     set_ith_data_spec MonoTextData_make_processor
     make_combined_transformation add_spec data_spec_decoder dataset_map
     default_length_fn get_function _make_batch dataset_prefetch).

Abbreviation make_vocab' :=
  (@PairedTextData.make_vocab Embedding Dataset DataSpec Processor
     BOS_TOKEN EOS_TOKEN default_string MonoTextData_make_vocab).

#[local] Arguments PairedTextData.make_vocab : simpl never.
#[local] Arguments PairedTextData._make_processor : simpl never.
#[local] Arguments PairedTextData.make_embedding : simpl never.

Lemma bind_vocab_at {A} (a : nat) (v : PairedTextData.vocab)
    (k : PairedTextData.vocab → M A)
    (s : @pstate Embedding Dataset DataSpec Processor) :
  heap s !! a = Some v → M_bind _ _ k (vocab_at a) s = k v s.
Proof. intros Ha. unfold M_bind, vocab_at. by rewrite Ha. Qed.

(** Runs the constructor up to the check of the two names in
    [_process_dataset]. *)
Ltac run_to_name_check hparams s Hlive Hflags :=
  unfold __init__, _make_data, _make_dataset, _process_dataset,
    _get_name_prefix;
  destruct (make_vocab_runs BOS_TOKEN EOS_TOKEN default_string
    MonoTextData_make_vocab (source_dataset hparams) (target_dataset hparams)
    ({| heap := heap s; self := new_instance; trace := trace s |}
       : @pstate Embedding Dataset DataSpec Processor) Hlive)
    as (sv & tv & s1 & Heq & _ & [svo Hsv] & [tvo Htv] & Hself & Htrace & _);
  unfold mbind, M_bind at 1; rewrite Heq;
  destruct s1 as [h1 o1 t1]; cbn in Hsv, Htv, Hself, Htrace; subst o1 t1;
  assert (negb (vocab_share (target_dataset hparams)) &&
          embedding_init_share (target_dataset hparams) = false) as Hok
    by (destruct Hflags as [-> | ->]; [done|apply andb_false_r]);
  cbn; rewrite Hok;
  rewrite (bind_vocab_at sv svo) by done;
  rewrite (bind_vocab_at tv tvo) by done;
  destruct (make_embedding _ _ _ _ _ _ _) as [se te] eqn:Hemb; cbn;
  destruct (_shuffle_dataset _ _ _) as [d1 size]; cbn.

Lemma init_equal_data_names_raises (hparams : data_hparams)
    (s : @pstate Embedding Dataset DataSpec Processor) :
  returns_live_vocab MonoTextData_make_vocab →
  vocab_share (target_dataset hparams) = true ∨
    embedding_init_share (target_dataset hparams) = false →
  data_name (source_dataset hparams) = data_name (target_dataset hparams) →
  (init hparams s).1 = Raise ValueError.
Proof.
  intros Hlive Hflags Hnames. run_to_name_check hparams s Hlive Hflags.
  by rewrite (bool_decide_eq_true_2 (data_name _ = data_name _)) by done.
Qed.

(** X17. Equal [data_name]s of the two sides make the constructor raise
    [ValueError], but late: the check sits in [_process_dataset], so the
    two text-line datasets have been created, zipped and shuffled and
    [self._dataset_size] is set when it fails; the data specification and
    [self._dataset] are not. *)
Theorem init_equal_data_names (hparams : data_hparams)
    (s : @pstate Embedding Dataset DataSpec Processor) :
  returns_live_vocab MonoTextData_make_vocab →
  vocab_share (target_dataset hparams) = true ∨
    embedding_init_share (target_dataset hparams) = false →
  data_name (source_dataset hparams) = data_name (target_dataset hparams) →
  ∃ s', init hparams s = (Raise ValueError, s') ∧
        trace s' =
          [ShuffleDataset; DatasetZip;
           TextLineDataset (files (target_dataset hparams));
           TextLineDataset (files (source_dataset hparams))] ++ trace s ∧
        is_Some (_dataset_size (self s')) ∧
        _data_spec (self s') = None ∧
        _dataset (self s') = None.
Proof.
  intros Hlive Hflags Hnames. run_to_name_check hparams s Hlive Hflags.
  rewrite (bool_decide_eq_true_2 (data_name _ = data_name _)) by done. cbn.
  eexists. split; [reflexivity|]. cbn. by repeat split.
Qed.

Lemma init_share_mismatch_raises (hparams : data_hparams)
    (s : @pstate Embedding Dataset DataSpec Processor) :
  vocab_share (target_dataset hparams) = false →
  embedding_init_share (target_dataset hparams) = true →
  (init hparams s).1 = Raise ValueError.
Proof.
  intros Hv He.
  unfold __init__, _make_data, PairedTextData.make_vocab,
    call_MonoTextData_make_vocab.
  unfold mbind, M_bind at 1. unfold mbind, M_bind at 1. simpl.
  destruct (MonoTextData_make_vocab _ _) as [a h].
  destruct (resolved_tgt_tokens _ _ _ _ _) as [b e].
  rewrite Hv, He. simpl. done.
Qed.

(** With consistent flags and two different names the constructor runs
    through. *)
Lemma init_runs (hparams : data_hparams)
    (s : @pstate Embedding Dataset DataSpec Processor) :
  returns_live_vocab MonoTextData_make_vocab →
  vocab_share (target_dataset hparams) = true ∨
    embedding_init_share (target_dataset hparams) = false →
  data_name (source_dataset hparams) ≠ data_name (target_dataset hparams) →
  ∃ s' src_vocab tgt_vocab s1 d,
    init hparams s = (Done tt, s') ∧
    make_vocab' (source_dataset hparams) (target_dataset hparams)
      {| heap := heap s; self := new_instance; trace := trace s |}
      = (Done (src_vocab, tgt_vocab), s1) ∧
    heap s' = heap s1 ∧
    vocab (self s') = Done (src_vocab, tgt_vocab) ∧
    dataset (self s') = Done d ∧
    (embedding_init_share (target_dataset hparams) = true →
       _tgt_embedding (self s') = _src_embedding (self s')) ∧
    trace s' =
      (if bool_decide (prefetch_buffer_size hparams > 0)
       then [DatasetPrefetch (prefetch_buffer_size hparams)] else []) ++
      [MakeBatch; DatasetMap; ShuffleDataset; DatasetZip;
       TextLineDataset (files (target_dataset hparams));
       TextLineDataset (files (source_dataset hparams))] ++ trace s.
Proof.
  intros Hlive Hflags Hnames. run_to_name_check hparams s Hlive Hflags.
  rewrite (bool_decide_eq_false_2 (data_name _ = data_name _)) by done.
  unfold M_bind, mret, M_ret, emit, update_self. cbn.
  destruct (_make_processor _ _ _ _ _ _ _ _ _) as [tran_fn data_spec]. cbn.
  assert (embedding_init_share (target_dataset hparams) = true →
          Some te = Some se) as Hshare.
  { intros He. unfold make_embedding in Hemb. rewrite He in Hemb.
    by injection Hemb as <- <-. }
  destruct (bool_decide (prefetch_buffer_size hparams > 0)); cbn;
    eexists _, sv, tv, _, _; (split; [reflexivity|]); cbn; by repeat split.
Qed.

(** X18. Given a [MonoTextData.make_vocab] that returns an object that
    exists, the constructor returns exactly when the sharing flags are
    consistent and the two [data_name]s differ.  It then has made the
    dataset calls in one order (the two text-line datasets, zip, shuffle,
    map, batch, and a prefetch exactly when [prefetch_buffer_size > 0]);
    the property [vocab] gives the pair [make_vocab] returned, the
    property [dataset] has a value, and with [embedding_init_share] the
    target embedding is the source embedding. *)
Theorem init_builds_dataset (hparams : data_hparams)
    (s : @pstate Embedding Dataset DataSpec Processor) :
  returns_live_vocab MonoTextData_make_vocab →
  let consistent :=
    (vocab_share (target_dataset hparams) = true ∨
       embedding_init_share (target_dataset hparams) = false) ∧
    data_name (source_dataset hparams) ≠ data_name (target_dataset hparams) in
  ((init hparams s).1 = Done tt ↔ consistent) ∧
  (consistent →
   ∃ s' src_vocab tgt_vocab s1 d,
     init hparams s = (Done tt, s') ∧
     make_vocab' (source_dataset hparams) (target_dataset hparams)
       {| heap := heap s; self := new_instance; trace := trace s |}
       = (Done (src_vocab, tgt_vocab), s1) ∧
     heap s' = heap s1 ∧
     vocab (self s') = Done (src_vocab, tgt_vocab) ∧
     dataset (self s') = Done d ∧
     (embedding_init_share (target_dataset hparams) = true →
        _tgt_embedding (self s') = _src_embedding (self s')) ∧
     trace s' =
       (if bool_decide (prefetch_buffer_size hparams > 0)
        then [DatasetPrefetch (prefetch_buffer_size hparams)] else []) ++
       [MakeBatch; DatasetMap; ShuffleDataset; DatasetZip;
        TextLineDataset (files (target_dataset hparams));
        TextLineDataset (files (source_dataset hparams))] ++ trace s).
Proof.
  intros Hlive consistent.
  split; [|by intros [Hflags Hnames]; apply init_runs].
  split.
  - intros Hdone.
    destruct (vocab_share (target_dataset hparams)) eqn:Hv;
      destruct (embedding_init_share (target_dataset hparams)) eqn:He;
      destruct (decide (data_name (source_dataset hparams)
                        = data_name (target_dataset hparams))) as [Hn|Hn];
      try (split; [by auto|done]); exfalso.
    + rewrite init_equal_data_names_raises in Hdone;
        [done..|by left; rewrite Hv|done].
    + rewrite init_equal_data_names_raises in Hdone;
        [done..|by left; rewrite Hv|done].
    + by rewrite init_share_mismatch_raises in Hdone.
    + by rewrite init_share_mismatch_raises in Hdone.
    + rewrite init_equal_data_names_raises in Hdone;
        [done..|by right; rewrite He|done].
  - intros [Hflags Hnames].
    by destruct (init_runs hparams s Hlive Hflags Hnames)
      as (? & ? & ? & ? & ? & -> & _).
Qed.

(** X23. The default configuration passes both checks of the
    constructor: whatever the defaults of a mono text dataset are, the
    source and target defaults made from them have different
    [data_name]s and no sharing, so the constructor (given a
    [MonoTextData.make_vocab] that returns an object that exists) runs
    through to the dataset, and the two vocabularies are two objects. *)
Theorem default_hparams_construct (mono : dataset_hparams)
    (num_parallel_calls prefetch_buffer_size : Z)
    (bucket_length_fn : option string)
    (s : @pstate Embedding Dataset DataSpec Processor) :
  returns_live_vocab MonoTextData_make_vocab →
  let hparams :=
    {| source_dataset := (_default_paired_text_dataset_hparams mono).1;
       target_dataset := (_default_paired_text_dataset_hparams mono).2;
       num_parallel_calls := num_parallel_calls;
       prefetch_buffer_size := prefetch_buffer_size;
       bucket_length_fn := bucket_length_fn |} in
  ∃ s' src_vocab tgt_vocab d,
    init hparams s = (Done tt, s') ∧
    vocab (self s') = Done (src_vocab, tgt_vocab) ∧
    tgt_vocab ≠ src_vocab ∧
    is_Some (heap s' !! src_vocab) ∧ is_Some (heap s' !! tgt_vocab) ∧
    dataset (self s') = Done d.
Proof.
  intros Hlive hparams.
  destruct (init_runs hparams s Hlive)
    as (s' & sv & tv & s1 & d & Hinit & Hmk & Hheap & Hvocab & Hd & _);
    [by right|done|].
  destruct (make_vocab_runs BOS_TOKEN EOS_TOKEN default_string
    MonoTextData_make_vocab (source_dataset hparams) (target_dataset hparams)
    ({| heap := heap s; self := new_instance; trace := trace s |}
       : @pstate Embedding Dataset DataSpec Processor) Hlive)
    as (sv' & tv' & s1' & Hmk' & _ & Hsv & Htv & _ & _ & _ & Hnew).
  rewrite Hmk in Hmk'. injection Hmk' as <- <- <-.
  destruct (Hnew eq_refl) as [Hne _].
  exists s', sv, tv, d. rewrite Hheap. by repeat split.
Qed.
End PairedConstructionOutcomes.

(** ** Paired text data: the names of the utterance counts *)

Section UtteranceCountNames.
Import PairedTextData PairedTextDataAccessors.
Context {Embedding Dataset DataSpec Processor : Type}.
Variable utterance_cnt_tensor_name : Processor → string.

(** X19. On an object whose decoders are set, [utterance_cnt_name] raises
    [ValueError] exactly when both [source_utterance_cnt_name] and
    [target_utterance_cnt_name] do; when it returns a name, that name
    with the prefix ['source_'] is the source's, or the source's is
    undefined and the name with the prefix ['target_'] is the target's. *)
Theorem utterance_cnt_name_sides (hparams : data_hparams)
    (o : @instance Embedding Dataset DataSpec Processor)
    (src_decoder tgt_decoder : Processor) :
  _src_decoder o = Some src_decoder →
  _tgt_decoder o = Some tgt_decoder →
  (utterance_cnt_name utterance_cnt_tensor_name hparams o = Raise ValueError ↔
     source_utterance_cnt_name utterance_cnt_tensor_name hparams o
       = Raise ValueError ∧
     target_utterance_cnt_name utterance_cnt_tensor_name hparams o
       = Raise ValueError) ∧
  (∀ n, utterance_cnt_name utterance_cnt_tensor_name hparams o = Done n →
     source_utterance_cnt_name utterance_cnt_tensor_name hparams o
       = Done ("source_" +:+ n) ∨
     (source_utterance_cnt_name utterance_cnt_tensor_name hparams o
        = Raise ValueError ∧
      target_utterance_cnt_name utterance_cnt_tensor_name hparams o
        = Done ("target_" +:+ n))).
Proof.
  intros Hs Ht.
  unfold utterance_cnt_name, source_utterance_cnt_name,
    target_utterance_cnt_name.
  rewrite Hs, Ht.
  destruct (variable_utterance (source_dataset hparams));
    destruct (variable_utterance (target_dataset hparams)); cbn;
    (split; [split; [done|by intros [? ?]]|]);
    intros n Hn; try done; injection Hn as <-; auto.
Qed.
End UtteranceCountNames.

(** ** The output tuple *)

Section OutputTuple.
Import TransformerDecoderOutput.

(** X13. [output_size] and [output_dtype] raise [TypeError] on every
    decoder: they pass the keyword [sample_id] to the named tuple, whose
    second field is [sample_ids].  With the field's own name the call
    returns the tuple of the two values. *)
Theorem output_size_raises_TypeError {R V : Type}
    (embedding : embedding_matrix R) (a b : V) :
  output_size embedding = Raise TypeError ∧
  output_dtype = Raise TypeError ∧
  namedtuple_new _fields
    [("output_logits"%string, a); ("sample_ids"%string, b)] = Done [a; b].
Proof. repeat split; vm_compute; reflexivity. Qed.
End OutputTuple.

(** ** The edge cases on the concrete decoder *)

Section DecoderEdgeExamples.
Import TransformerDecoder DecoderExample EdgeExample.

Abbreviation embed := (_prepare_tokens_to_embeds embedding).

Lemma stack_missing_layer_entry_witness :
  _self_attention_stack net hp 0 [[[1; 1; 1; 1]]; [[0; 0; 0; 0]]]
    (Some memory) None None (Some cache_without_layers) None = Raise KeyError.
Proof.
  apply (stack_missing_layer_entry net hp 0 [[[1; 1; 1; 1]]; [[0; 0; 0; 0]]]
           (Some memory) None None None cache_without_layers 0 0 1).
  - cbn. lia.
  - intros l Hl. lia.
  - reflexivity.
  - repeat constructor.
Defined.

Lemma step_fn_needs_token_and_position_witness :
  _symbols_to_logits_fn net hp embedding embed 4 [[1]; [1]] 4
    (_init_cache hp memory zero_bias) = Raise InvalidArgumentError.
Proof.
  apply (step_fn_needs_token_and_position net hp embedding 4 [[1]; [1]] 4
           (_init_cache hp memory zero_bias) 0).
  - apply (init_cache_ready hp memory zero_bias).
  - done.
  - lia.
  - right. lia.
Defined.

Lemma greedy_decode_shape_witness :
  ∃ n, (n ≤ Z.to_nat 3)%nat ∧
       length [[[2; 1]]; [[0; 2]]] = length [1; 1] ∧
       Forall (λ o : list (list Z), ∃ row, o = [row] ∧ length row = n)
         [[[2; 1]]; [[0; 2]]] ∧
       length [[-4]; [-4]] = length [1; 1] ∧
       has_length 1 [[-4]; [-4]].
Proof.
  apply (greedy_decode_shape net hp embedding [1; 1] 2 3 memory zero_bias
           [[[2; 1]]; [[0; 2]]] [[-4]; [-4]]).
  vm_compute. reflexivity.
Defined.

Lemma greedy_decode_nothing_to_do_witness :
  _greedy_decode net hp embedding embed [1; 1] 2 0 memory zero_bias
    = Done (replicate 2 [[]], replicate 2 [0]).
Proof.
  refine (greedy_decode_nothing_to_do net hp embedding [1; 1] 2 0
            memory zero_bias _ _).
  - reflexivity.
  - left. lia.
Defined.

Lemma greedy_decode_unknown_sampling_method_witness :
  _greedy_decode net hp_top_k embedding embed [1; 1] 2 3 memory zero_bias
    = Raise ValueError.
Proof.
  apply (greedy_decode_unknown_sampling_method net hp_top_k embedding
           [1; 1] 2 3 memory zero_bias).
  - discriminate.
  - discriminate.
  - lia.
  - discriminate.
  - reflexivity.
Defined.

Lemma greedy_decode_argmax_in_vocabulary_witness :
  (∃ outputs log_prob,
     _greedy_decode net hp embedding embed [1; 1] 2 3 memory zero_bias
       = Done (outputs, log_prob) ∧
     Forall (in_vocabulary embedding) outputs) ∧
  ∀ t v,
    Z.of_nat t ≤ 3 →
    greedy_steps net hp embedding t embed [1; 1] 2 3 memory zero_bias = Done v →
    in_vocabulary embedding (lv_next_id v).
Proof.
  apply (greedy_decode_argmax_in_vocabulary net hp embedding [1; 1] 2 3
           memory zero_bias).
  - reflexivity.
  - reflexivity.
  - cbn. lia.
  - cbn. lia.
  - repeat constructor; cbn; lia.
Defined.

Lemma greedy_feeds_back_last_token_witness :
  ∃ v,
    greedy_steps net hp embedding 2 embed [1; 1] 2 3 memory zero_bias = Done v ∧
    lv_decoded_ids v = [[2; 1]; [0; 2]] ∧
    last_column (lv_decoded_ids v) = lv_next_id v.
Proof.
  destruct (greedy_steps net hp embedding 2 embed [1; 1] 2 3 memory zero_bias)
    as [v| |] eqn:Hv; [|by vm_compute in Hv..].
  exists v. split; [done|]. split.
  { vm_compute in Hv. by injection Hv as <-. }
  by apply (greedy_feeds_back_last_token net hp embedding [1; 1] 2 3
              memory zero_bias 1 v).
Defined.

Lemma greedy_decode_stops_at_first_eos_witness :
  ∃ v,
    greedy_steps net hp embedding 1 embed [1] 2 3 memory_1 (0, 1%nat) = Done v ∧
    _greedy_decode net hp embedding embed [1] 2 3 memory_1 (0, 1%nat)
      = Done (replicate 1 [[2]], map (λ x, [x]) (lv_log_prob v)).
Proof.
  destruct (greedy_steps net hp embedding 1 embed [1] 2 3 memory_1 (0, 1%nat))
    as [v| |] eqn:Hv; [|by vm_compute in Hv..].
  exists v. split; [done|].
  apply (greedy_decode_stops_at_first_eos net hp embedding [1] 2 3
           memory_1 (0, 1%nat) v); [lia|done|done|].
  vm_compute in Hv. injection Hv as <-. by repeat constructor.
Defined.
End DecoderEdgeExamples.

(** ** The edge cases on the concrete pipeline *)

Section PairedEdgeExamples.
Import PairedTextData PairedTextDataAccessors.
Import PairedTextDataExample PairedEdgeExample.

Lemma make_vocab_without_share_witness :
  ∃ src_vocab tgt_vocab s',
    make_vocab source target_bad empty_state
      = (Done (src_vocab, tgt_vocab), s') ∧
    tgt_vocab ≠ src_vocab ∧
    is_Some (heap s' !! src_vocab) ∧
    heap s' !! tgt_vocab =
      Some {| vocab_filename := "vocab.tgt";
              vocab_bos_token := "<BOS>";
              vocab_eos_token := "<EOS>" |}.
Proof.
  exact (make_vocab_without_share "<BOS>" "<EOS>" default_string
           MonoTextData_make_vocab source target_bad empty_state
           example_returns_live_vocab eq_refl).
Defined.

Lemma make_vocab_keeps_objects_witness :
  ∃ src_vocab tgt_vocab s',
    make_vocab source target_own_bos empty_state
      = (Done (src_vocab, tgt_vocab), s') ∧
    is_Some (heap s' !! src_vocab) ∧ is_Some (heap s' !! tgt_vocab) ∧
    self s' = self empty_state ∧ trace s' = trace empty_state ∧
    ∀ a, is_Some ((MonoTextData_make_vocab source (heap empty_state)).2 !! a) →
      heap s' !! a = (MonoTextData_make_vocab source (heap empty_state)).2 !! a.
Proof.
  exact (make_vocab_keeps_objects "<BOS>" "<EOS>" default_string
           MonoTextData_make_vocab source target_own_bos empty_state
           example_returns_live_vocab).
Defined.

Lemma make_vocab_processing_share_witness :
  make_vocab source (target_processing (Some "<s>"%string)) empty_state
    = make_vocab source (target_processing None) empty_state.
Proof.
  exact (make_vocab_processing_share "<BOS>" "<EOS>" default_string
           MonoTextData_make_vocab source (target_processing None)
           (target_processing (Some "<s>"%string)) empty_state
           eq_refl eq_refl eq_refl eq_refl).
Defined.

Lemma init_equal_data_names_witness :
  ∃ s', init (data target_same_name) empty_state = (Raise ValueError, s') ∧
        trace s' =
          [ShuffleDataset; DatasetZip;
           TextLineDataset "train.tgt"; TextLineDataset "train.src"] ++ [] ∧
        is_Some (_dataset_size (self s')) ∧
        _data_spec (self s') = None ∧
        _dataset (self s') = None.
Proof.
  apply (init_equal_data_names); [exact example_returns_live_vocab| |reflexivity].
  right. reflexivity.
Defined.

Lemma utterance_cnt_name_sides_witness :
  (utterance_cnt_name utterance_cnt_tensor_name
     (data (target_processing None)) with_decoders = Raise ValueError ↔
     source_utterance_cnt_name utterance_cnt_tensor_name
       (data (target_processing None)) with_decoders = Raise ValueError ∧
     target_utterance_cnt_name utterance_cnt_tensor_name
       (data (target_processing None)) with_decoders = Raise ValueError) ∧
  (∀ n, utterance_cnt_name utterance_cnt_tensor_name
          (data (target_processing None)) with_decoders = Done n →
     source_utterance_cnt_name utterance_cnt_tensor_name
       (data (target_processing None)) with_decoders = Done ("source_" +:+ n) ∨
     (source_utterance_cnt_name utterance_cnt_tensor_name
        (data (target_processing None)) with_decoders = Raise ValueError ∧
      target_utterance_cnt_name utterance_cnt_tensor_name
        (data (target_processing None)) with_decoders
        = Done ("target_" +:+ n))).
Proof.
  exact (utterance_cnt_name_sides utterance_cnt_tensor_name
           (data (target_processing None)) with_decoders tt tt
           eq_refl eq_refl).
Defined.
End PairedEdgeExamples.

(** ** Why greedy decoding stops, and what the scores sum *)

Section GreedyStopping.
Import TransformerDecoder.
Context {R : Type} `{Scalar R} {Bias : Type}.
Variable net : network R Bias.
Variable hp : hparams R.
Variable embedding : embedding_matrix R.

#[local] Arguments _symbols_to_logits_fn : simpl never.
#[local] Arguments tf_concat_axis1 : simpl never.

Abbreviation body start_tokens eos decode_length :=
  (_body net hp
     (_symbols_to_logits_fn net hp embedding
        (_prepare_tokens_to_embeds embedding) (decode_length + 1))
     (length start_tokens) eos).

Abbreviation steps t start_tokens eos decode_length memory bias :=
  (greedy_steps net hp embedding t (_prepare_tokens_to_embeds embedding)
     start_tokens eos decode_length memory bias).

Abbreviation greedy_decode start_tokens eos decode_length memory bias :=
  (_greedy_decode net hp embedding (_prepare_tokens_to_embeds embedding)
     start_tokens eos decode_length memory bias).

Lemma finished_iff_eos_snoc (eos : Z) (finished : list bool)
    (decoded_ids : list (list Z)) (ids : list Z) :
  finished_iff_eos eos finished decoded_ids →
  finished_iff_eos eos
    (zip_with orb finished (map (λ i, bool_decide (i = eos)) ids))
    (zip_with app decoded_ids (map (λ i, [i]) ids)).
Proof.
  unfold finished_iff_eos. intros Hfd. revert ids.
  induction Hfd as [|f row fin dec Hf Hfd IH]; intros [|i ids]; cbn;
    try by constructor.
  constructor; [|apply IH].
  rewrite orb_true_iff, bool_decide_eq_true, elem_of_app,
    list_elem_of_singleton, Hf.
  split; (intros [?|?]; [by left|by right]).
Qed.

Lemma steps_finished_iff_eos (start_tokens : list Z) (eos decode_length : Z)
    (memory : list (list (list R))) (bias : Bias) (t : nat) (v : loop_vars) :
  steps t start_tokens eos decode_length memory bias = Done v →
  finished_iff_eos eos (lv_finished v) (lv_decoded_ids v).
Proof.
  revert v. induction t as [|t IH]; intros v Hv.
  - unfold greedy_steps in Hv. injection Hv as <-. cbn.
    unfold finished_iff_eos.
    induction (length start_tokens) as [|k IHk]; cbn; constructor; [|done].
    split; [done|]. by intros ?%elem_of_nil.
  - apply steps_S_inv in Hv as (vt & Hvt & Hbody).
    apply body_shape in Hbody as (ids & _ & _ & -> & -> & _).
    by apply finished_iff_eos_snoc, IH.
Qed.

Lemma all_finished_all_eos (eos : Z) (finished : list bool)
    (decoded_ids : list (list Z)) :
  finished_iff_eos eos finished decoded_ids →
  forallb id finished = true →
  Forall (λ row, eos ∈ row) decoded_ids.
Proof.
  unfold finished_iff_eos. intros Hfd.
  induction Hfd as [|f row fin dec Hf Hfd IH]; cbn; [by constructor|].
  rewrite andb_true_iff. intros [Hf' Hfin].
  constructor; [by apply Hf|by apply IH].
Qed.

(** X20. Greedy decoding stops early only at the end token: whenever it
    returns, with any sampling method, sequences shorter than
    [decode_length] all hold the end token. *)
Theorem greedy_decode_early_stop (start_tokens : list Z)
    (eos decode_length : Z) (memory : list (list (list R))) (bias : Bias)
    (outputs : list (list (list Z))) (log_prob : list (list R)) :
  greedy_decode start_tokens eos decode_length memory bias
    = Done (outputs, log_prob) →
  Forall (λ o, ∃ row, o = [row] ∧
                (Z.of_nat (length row) < decode_length → eos ∈ row)) outputs.
Proof.
  unfold _greedy_decode, greedy_loop. intros Hdec.
  destruct (while_loop _ _ _ _) as [[n v]| |] eqn:Hloop; cbn in Hdec; [|done..].
  injection Hdec as <- <-.
  apply while_loop_Done in Hloop as (Hrun & Hcond & _).
  destruct (steps_shape net hp embedding start_tokens eos decode_length
              memory bias n v Hrun) as (_ & _ & Hdn & _).
  pose proof (steps_finished_iff_eos start_tokens eos decode_length
                memory bias n v Hrun) as Hfd.
  apply is_not_finished_false in Hcond.
  rewrite (steps_step net hp embedding _ _ _ _ _ _ _ Hrun) in Hcond.
  apply Forall_map, Forall_forall. intros row Hrow. exists row.
  split; [done|]. intros Hshort.
  unfold has_length in Hdn. rewrite Forall_forall in Hdn.
  rewrite (Hdn row Hrow) in Hshort.
  destruct Hcond as [Hlen|Hfin]; [lia|].
  pose proof (all_finished_all_eos eos _ _ Hfd Hfin) as Heos.
  rewrite Forall_forall in Heos. by apply Heos.
Qed.

(** X21. The score of an item keeps growing after the item has finished:
    the log-probabilities and the cache that the body computes do not
    depend on the finished flags, so the log-probability of every token
    chosen after the end token is added as well. *)
Theorem greedy_log_prob_ignores_finished (start_tokens : list Z)
    (eos decode_length : Z) (v : loop_vars) (finished : list bool) :
  lv_log_prob <$> body start_tokens eos decode_length (with_finished finished v)
    = lv_log_prob <$> body start_tokens eos decode_length v ∧
  lv_cache <$> body start_tokens eos decode_length (with_finished finished v)
    = lv_cache <$> body start_tokens eos decode_length v.
Proof.
  unfold _body, with_finished. cbn.
  destruct (_symbols_to_logits_fn _ _ _ _ _ _ _ _) as [[logits c]| |];
    cbn; [|done..].
  match goal with
  | |- context [?m ≫= _] =>
      match type of m with
      | result (list Z) => destruct m as [ids| |]; cbn; [|done..]
      end
  end.
  by destruct (tf_concat_axis1 _ _) as [dec| |].
Qed.
End GreedyStopping.

(** ** Stopping on the concrete decoder and pipeline *)

Section StoppingExamples.
Import TransformerDecoder DecoderExample EdgeExample.
Import PairedTextData PairedTextDataAccessors.
Import PairedTextDataExample PairedEdgeExample.

Lemma greedy_decode_early_stop_witness :
  Forall (λ o : list (list Z), ∃ row, o = [row] ∧
            (Z.of_nat (length row) < 3 → 2 ∈ row))
    [[[2; 1]]; [[0; 2]]].
Proof.
  apply (greedy_decode_early_stop net hp embedding [1; 1] 2 3 memory zero_bias
           [[[2; 1]]; [[0; 2]]] [[-4]; [-4]]).
  vm_compute. reflexivity.
Defined.

Lemma init_builds_dataset_witness :
  (init (data target_shared) empty_state).1 = Done tt ∧
  ∃ s' src_vocab tgt_vocab s1 d,
    init (data target_shared) empty_state = (Done tt, s') ∧
    make_vocab source target_shared empty_state
      = (Done (src_vocab, tgt_vocab), s1) ∧
    heap s' = heap s1 ∧
    vocab (self s') = Done (src_vocab, tgt_vocab) ∧
    dataset (self s') = Done d ∧
    (embedding_init_share target_shared = true →
       _tgt_embedding (self s') = _src_embedding (self s')) ∧
    trace s' =
      (if bool_decide (prefetch_buffer_size (data target_shared) > 0)
       then [DatasetPrefetch (prefetch_buffer_size (data target_shared))]
       else []) ++
      [MakeBatch; DatasetMap; ShuffleDataset; DatasetZip;
       TextLineDataset "train.tgt"; TextLineDataset "train.src"] ++ [].
Proof.
  assert ((vocab_share (target_dataset (data target_shared)) = true ∨
           embedding_init_share (target_dataset (data target_shared)) = false) ∧
          data_name (source_dataset (data target_shared))
            ≠ data_name (target_dataset (data target_shared))) as Hc.
  { split; [by left|discriminate]. }
  split.
  - by apply (init_builds_dataset "<BOS>" "<EOS>" default_string
                MonoTextData_make_vocab (λ _ _, None) (λ _ _, tt) (λ _ _, tt)
                (λ _ _, tt) (λ d _ _, (d, 0)) (λ _ _ _ _, tt) (λ _ _, tt)
                (λ d _ _ _, d) (λ _ i, (tt, [], i)) (λ _ _, tt) (λ d _, d)
                (λ _ _, tt) (λ d _ _, d) tt (λ _, tt) (λ d _ _, d) (λ d _, d)
                (data target_shared) empty_state example_returns_live_vocab).
  - by apply (init_builds_dataset "<BOS>" "<EOS>" default_string
                MonoTextData_make_vocab (λ _ _, None) (λ _ _, tt) (λ _ _, tt)
                (λ _ _, tt) (λ d _ _, (d, 0)) (λ _ _ _ _, tt) (λ _ _, tt)
                (λ d _ _ _, d) (λ _ i, (tt, [], i)) (λ _ _, tt) (λ d _, d)
                (λ _ _, tt) (λ d _ _, d) tt (λ _, tt) (λ d _ _, d) (λ d _, d)
                (data target_shared) empty_state example_returns_live_vocab).
Defined.

Lemma default_hparams_construct_witness :
  ∃ s' src_vocab tgt_vocab d,
    init {| source_dataset :=
              (PairedTextDataDefaults._default_paired_text_dataset_hparams source).1;
            target_dataset :=
              (PairedTextDataDefaults._default_paired_text_dataset_hparams source).2;
            num_parallel_calls := 1;
            prefetch_buffer_size := 0;
            bucket_length_fn := None |} empty_state = (Done tt, s') ∧
    vocab (self s') = Done (src_vocab, tgt_vocab) ∧
    tgt_vocab ≠ src_vocab ∧
    is_Some (heap s' !! src_vocab) ∧ is_Some (heap s' !! tgt_vocab) ∧
    dataset (self s') = Done d.
Proof.
  apply (default_hparams_construct "<BOS>" "<EOS>" default_string
           MonoTextData_make_vocab (λ _ _, None) (λ _ _, tt) (λ _ _, tt)
           (λ _ _, tt) (λ d _ _, (d, 0)) (λ _ _ _ _, tt) (λ _ _, tt)
           (λ d _ _ _, d) (λ _ i, (tt, [], i)) (λ _ _, tt) (λ d _, d)
           (λ _ _, tt) (λ d _ _, d) tt (λ _, tt) (λ d _ _, d) (λ d _, d)
           source 1 0 None empty_state example_returns_live_vocab).
Defined.
End StoppingExamples.

(** ** The inference call *)

Section BuildInference.
Import TransformerDecoder.
Context {R : Type} `{Scalar R} {Bias : Type}.
Variable net : network R Bias.
Variable hp : hparams R.
Variable embedding : embedding_matrix R.

#[local] Arguments _symbols_to_logits_fn : simpl never.
#[local] Arguments _greedy_decode : simpl never.

(** X22. Greedy inference returns: in a mode that is not training, with
    [beam_width ≤ 1], arg-max sampling, a bias whose batch size is that
    of the encoder output and a vocabulary that holds the start token 1
    and fits the int32 ids, [_build] returns the dictionary of
    predictions, with one sequence for every batch item in the shape
    [batch, 1, n] for one [n ≤ maximum_decode_length], every token an
    index into the vocabulary, and log-probabilities of shape
    [batch, 1]. *)
Theorem build_inference_greedy
    (beam_search :
      (list (list Z) → Z → cache R Bias → result (list (list R) * cache R Bias)) →
      list Z → Z → Z → nat → R → cache R Bias → Z →
      result (list (list (list Z)) * list (list R)))
    (memory : list (list (list R))) (bias : Bias)
    (decoder_input : option (list (list Z))) (mode : option string) :
  is_train_mode_py net mode = false →
  beam_width hp ≤ 1 →
  sampling_method hp = "argmax"%string →
  bias_batch_size net bias = length memory →
  (1 < _vocab_size embedding)%nat →
  Z.of_nat (_vocab_size embedding) ≤ 2^31 →
  ∃ sampled_ids log_probs n,
    _build net hp embedding beam_search (Some memory) (Some bias)
      decoder_input mode = Done (Predictions sampled_ids log_probs) ∧
    (n ≤ Z.to_nat (maximum_decode_length hp))%nat ∧
    length sampled_ids = length memory ∧
    Forall (λ o, ∃ row, o = [row] ∧ length row = n) sampled_ids ∧
    Forall (in_vocabulary embedding) sampled_ids ∧
    length log_probs = length memory ∧
    has_length 1 log_probs.
Proof.
  intros Htrain Hwidth Hs Hbatch Hpos Hmax.
  unfold _build. rewrite Htrain. cbn.
  rewrite bool_decide_eq_true_2 by done.
  unfold tf_fill. rewrite Hbatch.
  set (start_tokens := replicate (length memory) 1).
  assert (length memory = length start_tokens) as Hlen
    by (unfold start_tokens; by rewrite length_replicate).
  unfold _greedy_decode, greedy_loop.
  destruct (greedy_loop_argmax net hp embedding start_tokens (eos_idx hp)
    (maximum_decode_length hp) memory bias
    (S (Z.to_nat (maximum_decode_length hp))) 0
    (greedy_init hp start_tokens memory bias))
    as (n & v & Hloop & Hv); [done|lia|done| | | |].
  - by apply greedy_init_inv.
  - unfold in_vocabulary. cbn. apply Forall_replicate. constructor.
  - lia.
  - rewrite Hloop. cbn.
    apply while_loop_Done in Hloop as (Hrun & _ & Hbefore).
    destruct (steps_shape net hp embedding start_tokens (eos_idx hp)
                (maximum_decode_length hp) memory bias n v Hrun)
      as (_ & Hd & Hdn & Hlp).
    eexists _, _, n. split; [reflexivity|].
    rewrite !length_map, Hd, Hlp, <- Hlen. repeat split; try done.
    + destruct n as [|n]; [lia|].
      destruct (Hbefore n) as (vn & Hvn & Hcond); [lia|].
      apply is_not_finished_true in Hcond as [Hlt _].
      rewrite (steps_step net hp embedding _ _ _ _ _ _ _ Hvn) in Hlt. lia.
    + apply Forall_map. eapply Forall_impl; [exact Hdn|].
      intros row Hrow. by exists row.
    + apply Forall_map. eapply Forall_impl; [exact Hv|].
      intros row Hrow. by repeat constructor.
    + unfold has_length. apply Forall_map. by apply Forall_true.
Qed.
End BuildInference.

(** ** The inference call on the concrete decoder *)

Section BuildInferenceExamples.
Import TransformerDecoder DecoderExample.

Lemma build_inference_greedy_witness :
  ∃ sampled_ids log_probs n,
    _build net hp embedding no_beam_search (Some memory) (Some zero_bias)
      None (Some "infer"%string) = Done (Predictions sampled_ids log_probs) ∧
    (n ≤ Z.to_nat 3)%nat ∧
    length sampled_ids = 2%nat ∧
    Forall (λ o : list (list Z), ∃ row, o = [row] ∧ length row = n) sampled_ids ∧
    Forall (in_vocabulary embedding) sampled_ids ∧
    length log_probs = 2%nat ∧
    has_length 1 log_probs.
Proof.
  apply (build_inference_greedy net hp embedding no_beam_search memory
           zero_bias None (Some "infer"%string)).
  - reflexivity.
  - cbn. lia.
  - reflexivity.
  - reflexivity.
  - cbn. lia.
  - cbn. lia.
Defined.
End BuildInferenceExamples.

(** ** A beam of one hypothesis *)

Section BeamProperties.
Import TransformerDecoder BeamSearch.
Context {R : Type} `{Scalar R} {Bias : Type}.
Variable net : network R Bias.
Variable hp : hparams R.
Variable embedding : embedding_matrix R.

(** A loop that returns has fuel left for the iterations it made. *)
Lemma while_loop_iterations {St} (cond : St → bool) (body : St → result St)
    (fuel : nat) (s : St) (n : nat) (s' : St) :
  while_loop fuel cond body s = Done (n, s') → (n < fuel)%nat.
Proof.
  revert s n. induction fuel as [|fuel IH]; intros s n Hw; [done|].
  cbn in Hw. destruct (cond s); [|injection Hw as <- <-; lia].
  destruct (body s) as [s1| |]; cbn in Hw; [|done..].
  destruct (while_loop fuel cond body s1) as [[n1 s2]| |] eqn:Hw1;
    cbn in Hw; [|done..].
  injection Hw as <- <-. specialize (IH _ _ Hw1). lia.
Qed.

(** The converse of [while_loop_Done]: with fuel for [n] iterations, a
    condition that holds before each of them and fails after the last,
    the loop returns after [n] iterations. *)
Lemma while_loop_intro {St} (cond : St → bool) (body : St → result St)
    (fuel : nat) (s : St) (n : nat) (s' : St) :
  (n < fuel)%nat →
  run_body body n s = Done s' →
  cond s' = false →
  (∀ k, (k < n)%nat → ∃ sk, run_body body k s = Done sk ∧ cond sk = true) →
  while_loop fuel cond body s = Done (n, s').
Proof.
  revert s fuel. induction n as [|n IH]; intros s [|fuel] Hlt Hrun Hc Hk;
    try lia.
  - cbn in Hrun. injection Hrun as ->. cbn. by rewrite Hc.
  - destruct (Hk 0%nat) as (s0 & Hs0 & Hc0); [lia|].
    cbn in Hs0. injection Hs0 as <-. cbn. rewrite Hc0.
    cbn in Hrun. destruct (body s) as [s1| |] eqn:Hbody; cbn in Hrun; [|done..].
    cbn. rewrite (IH s1 fuel); [done|lia|done|done|].
    intros k Hlt'. destruct (Hk (S k)) as (sk & Hsk & Hck); [lia|].
    cbn in Hsk. rewrite Hbody in Hsk. by exists sk.
Qed.

Lemma argmax_from_map (f : R → R) (row : list R) (best : R) (besti i : nat) :
  (∀ a b, rltb (f a) (f b) = rltb a b) →
  argmax_from (f best) besti i (map f row) = argmax_from best besti i row.
Proof.
  intros Hf. revert best besti i.
  induction row as [|x row IH]; intros best besti i; cbn; [done|].
  rewrite Hf. destruct (rltb best x); apply IH.
Qed.

Lemma tf_argmax_map (f : R → R) (row : list R) :
  (∀ a b, rltb (f a) (f b) = rltb a b) →
  tf_argmax (map f row) = tf_argmax row.
Proof.
  intros Hf. destruct row as [|x row]; [done|]. cbn. by apply argmax_from_map.
Qed.

(** The best continuation of a hypothesis is the arg-max token. *)
Lemma top_1_expand (alpha : R) (parent : nat) (h : hypothesis) (row : list R)
    (r : R) :
  penalty_off alpha → shift_monotone →
  row !! tf_argmax row = Some r →
  let lse := logsumexp row in
  top_k 1 (expand (length row) alpha parent h (map (λ x, rsub x lse) row)) =
    [ {| cand_parent := parent;
         cand_tokens := hyp_tokens h ++ [Z.of_nat (tf_argmax row)];
         cand_log_prob := radd (hyp_log_prob h) (rsub r lse);
         cand_score := radd (hyp_log_prob h) (rsub r lse) |} ].
Proof.
  intros Hpen Hmono Hr lse. unfold expand.
  rewrite take_ge by by rewrite length_map.
  cbn [top_k].
  rewrite fmap_imap. unfold compose. cbn [cand_score].
  assert (imap (λ (i : nat) (x : R),
            rdiv (radd (hyp_log_prob h) x)
              (length_penalty alpha (length (hyp_tokens h ++ [Z.of_nat i]) - 1)))
            (map (λ x, rsub x lse) row)
          = map (λ a, radd (hyp_log_prob h) (rsub a lse)) row) as ->.
  { rewrite <- (imap_const (λ a, radd (hyp_log_prob h) (rsub a lse))).
    rewrite imap_fmap. apply imap_ext. intros i x _. cbn. apply Hpen. }
  rewrite tf_argmax_map by (intros a b; apply Hmono).
  rewrite list_lookup_imap, list_lookup_fmap, Hr. cbn.
  by rewrite Hpen.
Qed.

(** A step of the beams of a batch in which every item has one live
    hypothesis and none that is retired. *)
Lemma advance_singles (vocab_size : nat) (al : R) (eos : Z)
    (log_probs : list (list R)) (offset : nat) (hs : list hypothesis) :
  advance 1 vocab_size al eos log_probs offset
    (map (λ h, [h]) hs) (replicate (length hs) []) =
  (imap (λ j h, filter (λ c, ends_with eos c = false)
           (top_k 1 (expand vocab_size al (offset + j) h
                       (default [] (log_probs !! (offset + j)%nat))))) hs,
   imap (λ j h, filter (λ c, ends_with eos c = true)
           (top_k 1 (expand vocab_size al (offset + j) h
                       (default [] (log_probs !! (offset + j)%nat))))) hs).
Proof.
  revert offset. induction hs as [|h hs IH]; intros offset; [done|].
  cbn [map length replicate advance imap concat tail head default].
  rewrite IH. rewrite app_nil_r. cbn [app].
  f_equal; (f_equal; apply imap_ext; intros j x _; unfold compose;
            by replace (offset + 1 + j)%nat with (offset + S j)%nat by lia).
Qed.

#[local] Arguments _symbols_to_logits_fn : simpl never.
#[local] Arguments top_k : simpl never.
#[local] Arguments advance : simpl never.
#[local] Arguments expand : simpl never.
#[local] Arguments gather_cache : simpl never.
#[local] Arguments tf_argmax : simpl never.
#[local] Arguments to_int32 : simpl never.

Abbreviation step_fn decode_length :=
  (_symbols_to_logits_fn net hp embedding
     (_prepare_tokens_to_embeds embedding) (decode_length + 1)).

Abbreviation body start_tokens eos decode_length :=
  (_body net hp (step_fn decode_length) (length start_tokens) eos).

Abbreviation steps t start_tokens eos decode_length memory bias :=
  (greedy_steps net hp embedding t (_prepare_tokens_to_embeds embedding)
     start_tokens eos decode_length memory bias).

Lemma last_column_tokens (items : list (@item R)) :
  last_column (map (λ x, it_start x :: it_decoded x) items)
    = last_column (map (λ x, [it_last x]) items).
Proof.
  unfold last_column. rewrite !map_map. apply map_ext. intros [s d p].
  unfold it_last. cbn.
  destruct (decide (d = [])) as [->|Hd]; [reflexivity|].
  destruct (exists_last Hd) as (d' & a & ->).
  rewrite last_snoc, length_app. cbn.
  replace (length d' + 1 - 0)%nat with (S (length d')) by lia.
  cbn. by rewrite drop_app_length.
Qed.

Lemma ends_with_candidate (eos : Z) (k : nat) (x : @item R) :
  it_decoded x ≠ [] → ends_with eos (it_candidate k x) = it_ended eos x.
Proof.
  intros Hd. unfold ends_with, it_ended. cbn. rewrite last_cons.
  destruct (last (it_decoded x)) eqn:Hlast; [done|].
  by apply last_None in Hlast.
Qed.

(** What a beam of one keeps of the continuations of an item: the item
    with its arg-max token. *)
Lemma kept_items {A} (G : nat → list (@candidate R) → A) (al : R)
    (items : list (@item R)) (logits : list (list R)) :
  penalty_off al → shift_monotone →
  (0 < _vocab_size embedding)%nat →
  length items = length logits →
  Forall (λ row, length row = _vocab_size embedding) logits →
  imap (λ j h,
      G j (top_k 1 (expand (_vocab_size embedding) al (0 + j) h
             (default []
                (map (λ row, map (λ x, rsub x (logsumexp row)) row) logits
                   !! (0 + j)%nat)))))
    (map it_hypothesis items)
  = imap (λ j x, G j [it_candidate j x]) (zip_with it_step items logits).
Proof.
  intros Hpen Hmono Hvoc Hlen Hrows. apply list_eq. intros k.
  rewrite !list_lookup_imap, (list_lookup_fmap it_hypothesis), lookup_zip_with.
  destruct (items !! k) as [x|] eqn:Hx; [|done]. cbn.
  destruct (lookup_lt_is_Some_2 logits k) as [row Hrow].
  { rewrite <- Hlen. by eapply lookup_lt_Some. }
  rewrite list_lookup_fmap, Hrow. cbn. f_equal. f_equal.
  pose proof (Forall_lookup_1 _ _ _ _ Hrows Hrow) as Hvocab. cbn in Hvocab.
  assert (tf_argmax row < length row)%nat as Hlt.
  { apply tf_argmax_lt. intros ->. cbn in Hvocab. lia. }
  destruct (lookup_lt_is_Some_2 row (tf_argmax row)) as [r Hr]; [done|].
  rewrite <- Hvocab.
  rewrite (top_1_expand al k (it_hypothesis x) row r Hpen Hmono Hr).
  unfold it_candidate, it_step. cbn. by rewrite Hr.
Qed.

Lemma gather_seq {A} (x : list (list A)) : gather (seq 0 (length x)) x = x.
Proof.
  unfold gather. apply list_eq. intros k. rewrite list_lookup_fmap.
  destruct (decide (k < length x)%nat) as [Hlt|Hge].
  - rewrite lookup_seq_lt by done. cbn.
    destruct (lookup_lt_is_Some_2 x k Hlt) as [r Hr]. by rewrite Hr.
  - rewrite lookup_seq_ge by lia. cbn. symmetry. apply lookup_ge_None_2. lia.
Qed.

(** Reindexing a cache by all of its rows in their order changes
    nothing. *)
Lemma gather_cache_seq (B : nat) (c : cache R Bias) :
  cache_rows B c →
  bias_gather net (seq 0 B) (cache_encoder_decoder_attention_bias c)
    = cache_encoder_decoder_attention_bias c →
  gather_cache net (seq 0 B) c = c.
Proof.
  intros [Hmem Hrows] Hbias. destruct c as [m b layers]. unfold gather_cache.
  cbn [cache_memory cache_encoder_decoder_attention_bias cache_layers] in *.
  rewrite Hbias. rewrite <- Hmem at 1. rewrite gather_seq. f_equal.
  apply map_eq. intros l. rewrite lookup_fmap.
  destruct (layers !! l) as [lc|] eqn:Hl; [|done].
  cbn [fmap option_fmap option_map]. f_equal.
  destruct (Hrows l lc Hl) as (Hk & Hv & Hmk & Hmv).
  destruct lc as [k v mk mv]. unfold gather_layer.
  cbn [self_keys self_values memory_keys memory_values] in *.
  rewrite <- Hk at 1. rewrite <- Hv at 1. rewrite <- Hmk at 1.
  rewrite <- Hmv at 1. by rewrite !gather_seq.
Qed.

Lemma concat_imap_singleton {A B} (f : nat → A → B) (l : list A) :
  concat (imap (λ j x, [f j x]) l) = imap f l.
Proof.
  revert f. induction l as [|x l IH]; intros f; [done|].
  cbn. f_equal. apply (IH (f ∘ S)).
Qed.

Lemma init_cache_rows (memory : list (list (list R))) (bias : Bias) :
  cache_rows (length memory) (_init_cache hp memory bias).
Proof.
  split; [done|]. intros l lc. unfold _init_cache. cbn.
  rewrite foldl_insert_lookup. case_decide; [|done].
  intros [= <-]. unfold layer_rows. cbn. by rewrite length_replicate.
Qed.

(** The log-probabilities that the greedy body gathers are those of the
    arg-max tokens. *)
Lemma gather_nd_argmax (logits : list (list R)) :
  (0 < _vocab_size embedding)%nat →
  Forall (λ row, length row = _vocab_size embedding) logits →
  tf_gather_nd (map (λ row, map (λ x, rsub x (logsumexp row)) row) logits)
    (zip (map Z.of_nat (seq 0 (length logits)))
       (map (λ row, Z.of_nat (tf_argmax row)) logits))
  = map (λ row, rsub (default rzero (row !! tf_argmax row)) (logsumexp row))
      logits.
Proof.
  intros Hvoc Hrows. unfold tf_gather_nd. apply list_eq. intros k.
  rewrite !list_lookup_fmap, lookup_zip_with, !list_lookup_fmap.
  destruct (logits !! k) as [row|] eqn:Hrow.
  - rewrite lookup_seq_lt by by eapply lookup_lt_Some. cbn.
    unfold lookupZ.
    rewrite !bool_decide_eq_true_2 by lia. rewrite !Nat2Z.id.
    rewrite list_lookup_fmap, Hrow. cbn.
    pose proof (Forall_lookup_1 _ _ _ _ Hrows Hrow) as Hvocab. cbn in Hvocab.
    assert (tf_argmax row < length row)%nat as Hlt.
    { apply tf_argmax_lt. intros ->. cbn in Hvocab. lia. }
    destruct (lookup_lt_is_Some_2 row (tf_argmax row)) as [r Hr]; [done|].
    by rewrite list_lookup_fmap, Hr.
  - rewrite lookup_seq_ge by by apply lookup_ge_None. done.
Qed.

(** The loop variables of the greedy body after a step, item by item. *)
Lemma items_step_finished (eos : Z) (items : list (@item R))
    (logits : list (list R)) :
  Forall (λ x, it_ended eos x = false) items →
  zip_with orb (map (it_ended eos) items)
    (map (λ t, bool_decide (t = eos))
       (map (λ row, Z.of_nat (tf_argmax row)) logits))
  = map (it_ended eos) (zip_with it_step items logits).
Proof.
  intros Hlive. revert logits.
  induction Hlive as [|x items Hx _ IH]; intros [|row logits]; cbn; try done.
  f_equal; [|apply IH]. rewrite Hx. cbn. unfold it_ended. cbn.
  rewrite last_snoc. apply bool_decide_ext.
  split; [by intros ->|by intros [= ->]].
Qed.

Lemma items_step_decoded (items : list (@item R)) (logits : list (list R)) :
  zip_with app (map it_decoded items)
    (map (λ t, [t]) (map (λ row, Z.of_nat (tf_argmax row)) logits))
  = map it_decoded (zip_with it_step items logits).
Proof.
  revert logits. induction items as [|x items IH]; intros [|row logits]; cbn;
    try done.
  f_equal. apply IH.
Qed.

Lemma items_step_log_prob (items : list (@item R)) (logits : list (list R)) :
  zip_with radd (map it_log_prob items)
    (map (λ row, rsub (default rzero (row !! tf_argmax row)) (logsumexp row))
       logits)
  = map it_log_prob (zip_with it_step items logits).
Proof.
  revert logits. induction items as [|x items IH]; intros [|row logits]; cbn;
    try done.
  f_equal. apply IH.
Qed.

Lemma items_step_next_id (items : list (@item R)) (logits : list (list R)) :
  length items = length logits →
  map (λ t, [t]) (map (λ row, Z.of_nat (tf_argmax row)) logits)
  = map (λ x, [it_last x]) (zip_with it_step items logits).
Proof.
  revert logits. induction items as [|x items IH]; intros [|row logits] Hlen;
    cbn in *; try done.
  f_equal; [|apply IH; lia]. unfold it_last. cbn. by rewrite last_snoc.
Qed.

Lemma items_step_decoded_nonempty (items : list (@item R))
    (logits : list (list R)) :
  Forall (λ x, it_decoded x ≠ []) (zip_with it_step items logits).
Proof.
  revert logits. induction items as [|x items IH]; intros [|row logits]; cbn;
    try by constructor.
  constructor; [|apply IH]. cbn. by destruct (it_decoded x).
Qed.

(** The beam after a step, item by item. *)
Lemma alive_items (eos : Z) (items : list (@item R)) :
  Forall (λ x, it_decoded x ≠ []) items →
  map (map (λ c, {| hyp_tokens := cand_tokens c;
                    hyp_log_prob := cand_log_prob c |}))
    (imap (λ j x, filter (λ c, ends_with eos c = false) [it_candidate j x])
       items)
  = map (λ x, if it_ended eos x then [] else [it_hypothesis x]) items.
Proof.
  intros Hd. rewrite fmap_imap. rewrite <- imap_const.
  apply imap_ext. intros j x Hx. unfold compose, const.
  pose proof (Forall_lookup_1 _ _ _ _ Hd Hx) as Hdx. cbn in Hdx.
  rewrite filter_cons, filter_nil, ends_with_candidate by done.
  by destruct (it_ended eos x).
Qed.

Lemma finished_items (eos : Z) (items : list (@item R)) :
  Forall (λ x, it_decoded x ≠ []) items →
  imap (λ j x, filter (λ c, ends_with eos c = true) [it_candidate j x]) items
  = imap (λ k x, if it_ended eos x then [it_candidate k x] else []) items.
Proof.
  intros Hd. apply imap_ext. intros j x Hx.
  pose proof (Forall_lookup_1 _ _ _ _ Hd Hx) as Hdx. cbn in Hdx.
  rewrite filter_cons, filter_nil, ends_with_candidate by done.
  by destruct (it_ended eos x).
Qed.

Lemma parents_items (eos : Z) (items : list (@item R)) :
  Forall (λ x, it_decoded x ≠ []) items →
  Forall (λ x, it_ended eos x = false) items →
  map cand_parent
    (concat
       (imap (λ j x, filter (λ c, ends_with eos c = false) [it_candidate j x])
          items))
  = seq 0 (length items).
Proof.
  intros Hd Hlive.
  rewrite (imap_ext _ (λ j x, [it_candidate j x])).
  - rewrite concat_imap_singleton, fmap_imap.
    rewrite <- (list_fmap_id (seq 0 (length items))).
    by rewrite <- (imap_seq_0 items id).
  - intros j x Hx.
    pose proof (Forall_lookup_1 _ _ _ _ Hd Hx) as Hdx. cbn in Hdx.
    pose proof (Forall_lookup_1 _ _ _ _ Hlive Hx) as Hlx. cbn in Hlx.
    rewrite filter_cons, filter_nil, ends_with_candidate, Hlx by done.
    done.
Qed.

Lemma concat_singletons {A} (l : list A) : concat (map (λ x, [x]) l) = l.
Proof. induction l as [|x l IH]; cbn; [done|]. by rewrite IH. Qed.

(** One iteration of both loops from states that hold the same items,
    none of them ended: the two make the same call of the step function,
    choose the same tokens and add the same log-probabilities. *)
Lemma sim_step (start_tokens : list Z) (eos decode_length : Z)
    (memory : list (list (list R))) (bias : Bias) (al : R) (t : nat)
    (items : list item) (v : loop_vars) (b : beam_state) :
  sampling_method hp = "argmax"%string →
  penalty_off al → shift_monotone →
  (0 < _vocab_size embedding)%nat →
  Z.of_nat (_vocab_size embedding) ≤ 2^31 →
  bias_gather net (seq 0 (length start_tokens)) bias = bias →
  greedy_inv hp (length start_tokens) memory bias t v →
  cache_rows (length start_tokens) (lv_cache v) →
  beam_sim eos items v b →
  Forall (λ x, it_ended eos x = false) items →
  bs_cache b = lv_cache v →
  Z.of_nat t < decode_length →
  ∃ v' b' items',
    body start_tokens eos decode_length v = Done v' ∧
    beam_step net (step_fn decode_length) 1 (_vocab_size embedding) al eos b
      = Done b' ∧
    greedy_inv hp (length start_tokens) memory bias (S t) v' ∧
    cache_rows (length start_tokens) (lv_cache v') ∧
    beam_sim eos items' v' b' ∧
    (Forall (λ x, it_ended eos x = false) items' → bs_cache b' = lv_cache v').
Proof.
  intros Hs Hpen Hmono Hvoc Hvoc31 Hgather Hinv Hrows
    (Hfin & Hnext & Hdec & Hlp & Halive & Hbfin & Hbstep) Hlive Hbcache Ht.
  pose proof Hinv as
    (Hstep & _ & Hnextlen & Hnext1 & _ & _ & _ & Hc & Hmem & Hbias).
  assert (length items = length start_tokens) as Hitems.
  { rewrite <- Hnextlen, Hnext. by rewrite length_map. }
  destruct (step_fn_ok net hp embedding (decode_length + 1) (lv_next_id v)
    (lv_step v) (lv_cache v) t)
    as (logits & c' & Hfn & Hlog & Hc' & Hm' & Hb' & Hr' & Hvocab).
  { by rewrite Hnextlen. }
  { eapply Forall_impl; [exact Hnext1|]. intros row Hrow ->. done. }
  { lia. }
  rewrite Hnextlen in Hlog, Hr'.
  set (items' := zip_with it_step items logits).
  assert (length items' = length start_tokens) as Hitems'.
  { unfold items'. rewrite length_zip_with. lia. }
  pose proof (items_step_decoded_nonempty items logits) as Hne.
  fold items' in Hne.
  assert (map (λ row, to_int32 (Z.of_nat (tf_argmax row))) logits
          = map (λ row, Z.of_nat (tf_argmax row)) logits) as Hcast.
  { apply Forall_fmap_ext. eapply Forall_impl; [exact Hvocab|].
    intros row Hrow. cbn in Hrow.
    assert (tf_argmax row < length row)%nat as Hlt.
    { apply tf_argmax_lt. intros ->. cbn in Hrow. lia. }
    rewrite to_int32_small; lia. }
  assert (body start_tokens eos decode_length v =
    Done {| lv_step := lv_step v + 1;
            lv_finished := map (it_ended eos) items';
            lv_next_id := map (λ x, [it_last x]) items';
            lv_decoded_ids := map it_decoded items';
            lv_cache := c';
            lv_log_prob := map it_log_prob items' |}) as Hbody.
  { unfold _body. rewrite Hfn. cbn. rewrite Hs. cbn. rewrite Hcast.
    unfold tf_concat_axis1.
    rewrite decide_True by (rewrite Hdec, !length_map; lia).
    cbn. rewrite <- Hlog, gather_nd_argmax by done.
    rewrite Hfin, Hdec, Hlp.
    rewrite items_step_finished, items_step_decoded, items_step_log_prob by done.
    by rewrite (items_step_next_id items) by lia. }
  assert (bs_alive b = map (λ h, [h]) (map it_hypothesis items)) as Halive'.
  { rewrite Halive, map_map. apply Forall_fmap_ext.
    eapply Forall_impl; [exact Hlive|]. intros x Hx. cbn in Hx. by rewrite Hx. }
  assert (bs_finished b = replicate (length (map it_hypothesis items)) [])
    as Hbfin'.
  { rewrite Hbfin, length_map. apply list_eq. intros k.
    rewrite list_lookup_imap.
    destruct (items !! k) as [x|] eqn:Hx; cbn.
    - rewrite lookup_replicate_2 by by eapply lookup_lt_Some.
      pose proof (Forall_lookup_1 _ _ _ _ Hlive Hx) as Hlx. cbn in Hlx.
      by rewrite Hlx.
    - symmetry. apply lookup_ge_None_2. rewrite length_replicate.
      by apply lookup_ge_None. }
  pose proof (kept_items (λ _ kept, filter (λ c, ends_with eos c = false) kept)
                al items logits Hpen Hmono Hvoc ltac:(lia) Hvocab) as Hkept1.
  pose proof (kept_items (λ _ kept, filter (λ c, ends_with eos c = true) kept)
                al items logits Hpen Hmono Hvoc ltac:(lia) Hvocab) as Hkept2.
  cbn beta in Hkept1, Hkept2. fold items' in Hkept1, Hkept2.
  assert (beam_step net (step_fn decode_length) 1 (_vocab_size embedding) al
            eos b =
    Done {| bs_step := lv_step v + 1;
            bs_alive :=
              map (λ x, if it_ended eos x then [] else [it_hypothesis x]) items';
            bs_finished :=
              imap (λ k x, if it_ended eos x then [it_candidate k x] else [])
                items';
            bs_cache :=
              gather_cache net
                (map cand_parent
                   (concat
                      (imap (λ j x, filter (λ c, ends_with eos c = false)
                                      [it_candidate j x]) items')))
                c' |}) as Hbeam.
  { unfold beam_step. rewrite Halive', Hbfin', Hbstep, Hbcache.
    rewrite concat_singletons.
    rewrite (step_fn_last_column net hp embedding _ _ _ (lv_next_id v))
      by (rewrite Hnext, (map_map it_hypothesis); apply last_column_tokens).
    rewrite Hfn. cbn [mbind result_bind].
    rewrite advance_singles, Hkept1, Hkept2.
    by rewrite alive_items, finished_items. }
  eexists _, _, items'. split; [exact Hbody|]. split; [exact Hbeam|].
  split.
  { by destruct (body_inv net hp embedding start_tokens eos decode_length
                   memory bias t v _ (or_introl Hs) Hinv Ht Hbody). }
  split; [by apply Hr'|]. split; [done|].
  intros Hlive'. cbn [bs_cache lv_cache].
  rewrite parents_items, Hitems' by done.
  apply gather_cache_seq; [by apply Hr'|]. by rewrite Hb', Hbias.
Qed.

Lemma eos_only_last_lookup (eos : Z) (row : list Z) :
  eos_only_last eos row ↔ ∀ i, row !! i = Some eos → S i = length row.
Proof.
  unfold eos_only_last. rewrite elem_of_take. split.
  - intros Hn i Hi. pose proof (lookup_lt_Some _ _ _ Hi) as Hlt.
    destruct (decide (S i = length row)) as [|Hne]; [done|].
    exfalso. apply Hn. exists i. split; [done|lia].
  - intros Hl (i & Hi & Hlt). specialize (Hl i Hi). lia.
Qed.

(** The sequences only grow: after [d] more iterations every sequence
    has [d] more tokens. *)
Lemma steps_prefix (start_tokens : list Z) (eos decode_length : Z)
    (memory : list (list (list R))) (bias : Bias) (i d : nat)
    (v v' : loop_vars) :
  steps i start_tokens eos decode_length memory bias = Done v →
  steps (i + d) start_tokens eos decode_length memory bias = Done v' →
  Forall2 (λ row row', ∃ ext, row' = row ++ ext ∧ length ext = d)
    (lv_decoded_ids v) (lv_decoded_ids v').
Proof.
  intros Hv. revert v'. induction d as [|d IH]; intros v' Hv'.
  - rewrite Nat.add_0_r, Hv in Hv'. injection Hv' as <-.
    induction (lv_decoded_ids v) as [|row rows IHrows]; constructor; [|done].
    exists []. by rewrite app_nil_r.
  - rewrite Nat.add_succ_r in Hv'.
    apply steps_S_inv in Hv' as (vm & Hvm & Hbody).
    specialize (IH vm Hvm).
    apply body_shape in Hbody as (ids & Hlen & _ & -> & _).
    revert ids Hlen.
    induction IH as [|row row' rows rows' (ext & -> & Hext) _ IH'];
      intros [|i0 ids] Hlen; cbn in *; try done; constructor.
    + exists (ext ++ [i0]). rewrite length_app, app_assoc. cbn. split; [done|lia].
    + apply IH'. lia.
Qed.

(** A sequence that goes on has not met the end token, when the end
    token is nowhere but at the end of the sequences returned. *)
Lemma no_early_eos (start_tokens : list Z) (eos decode_length : Z)
    (memory : list (list (list R))) (bias : Bias) (i n : nat)
    (v v' : loop_vars) :
  steps i start_tokens eos decode_length memory bias = Done v →
  steps n start_tokens eos decode_length memory bias = Done v' →
  (i < n)%nat →
  Forall (eos_only_last eos) (lv_decoded_ids v') →
  Forall (λ row, eos ∉ row) (lv_decoded_ids v).
Proof.
  intros Hv Hv' Hlt. replace n with (i + (n - i))%nat in Hv' by lia.
  pose proof (steps_prefix _ _ _ _ _ _ _ _ _ Hv Hv') as Hpre.
  induction Hpre as [|row row' rows rows' (ext & -> & Hext) _ IH];
    intros Hlast; [constructor|].
  apply Forall_cons in Hlast as [Hrow Hlast]. constructor; [|by apply IH].
  intros (j & Hj)%list_elem_of_lookup_1.
  pose proof (lookup_lt_Some _ _ _ Hj) as Hjlt.
  rewrite eos_only_last_lookup in Hrow. specialize (Hrow j). rewrite lookup_app_l in Hrow by done.
  specialize (Hrow Hj). rewrite length_app in Hrow. lia.
Qed.

(** Both loops go on or stop together. *)
Lemma beam_cond (eos decode_length : Z) (items : list (@item R))
    (v : @loop_vars R Bias) (b : @beam_state R Bias) :
  beam_sim eos items v b →
  beam_not_finished decode_length b = is_not_finished decode_length v.
Proof.
  intros (Hfin & _ & _ & _ & Halive & _ & Hbstep).
  unfold beam_not_finished, is_not_finished. rewrite Hbstep, Hfin, Halive.
  f_equal. f_equal. clear.
  induction items as [|x items IH]; cbn; [done|].
  rewrite IH. by destruct (it_ended eos x).
Qed.

(** The rows that the beam search returns for the items are the
    sequences and log-probabilities of the greedy loop. *)
Lemma beam_output (al : R) (eos : Z) (items : list (@item R))
    (v : @loop_vars R Bias) (b : @beam_state R Bias) (t : nat) :
  penalty_off al →
  beam_sim eos items v b →
  has_length t (lv_decoded_ids v) →
  lv_step v = Z.of_nat t →
  let rows := zip_with (ranked 1 al) (bs_finished b) (bs_alive b) in
  map (map (drop 1))
    (map (map (λ c, pad_to (S (Z.to_nat (bs_step b))) (cand_tokens c))) rows)
    = map (λ row, [row]) (lv_decoded_ids v) ∧
  map (map cand_score) rows = map (λ x, [x]) (lv_log_prob v).
Proof.
  intros Hpen (_ & _ & Hdec & Hlp & Halive & Hbfin & Hbstep) Ht Hstep rows.
  assert (rows = imap (λ k x, [if it_ended eos x then it_candidate k x
                               else live_candidate al (it_hypothesis x)])
                   items) as ->.
  { unfold rows. rewrite Hbfin, Halive. apply list_eq. intros k.
    rewrite lookup_zip_with, !list_lookup_imap, list_lookup_fmap.
    destruct (items !! k) as [x|]; [|done]. cbn.
    by destruct (it_ended eos x). }
  rewrite Hbstep, Hstep, Nat2Z.id, Hdec, Hlp, !map_map, !fmap_imap.
  rewrite <- !imap_const. rewrite Hdec in Ht.
  split; apply imap_ext; intros k x Hx; unfold compose, const; cbn.
  - assert (length (it_decoded x) = t) as Hlen.
    { apply (Forall_lookup_1 _ _ k _ Ht). by rewrite list_lookup_fmap, Hx. }
    f_equal. unfold pad_to.
    assert (cand_tokens (if it_ended eos x then it_candidate k x
                         else live_candidate al (it_hypothesis x))
            = it_start x :: it_decoded x) as -> by by destruct (it_ended eos x).
    cbn [length]. rewrite Hlen, Nat.sub_diag. cbn. by rewrite app_nil_r.
  - f_equal. destruct (it_ended eos x); [done|]. cbn. apply Hpen.
Qed.

Lemma replicate_map {A B} (l : list A) (c : B) :
  replicate (length l) c = map (λ _, c) l.
Proof. induction l as [|x l IH]; cbn; [done|]. by rewrite IH. Qed.

(** Both loops start with the same items. *)
Lemma init_sim (eos : Z) (start_tokens : list Z)
    (memory : list (list (list R))) (bias : Bias) :
  beam_sim eos
    (map (λ s, {| it_start := s; it_decoded := []; it_log_prob := rzero |})
       start_tokens)
    (greedy_init hp start_tokens memory bias)
    (beam_init start_tokens (_init_cache hp memory bias)).
Proof.
  unfold beam_sim, greedy_init, beam_init. cbn.
  rewrite !replicate_map, !map_map, imap_fmap. unfold compose.
  repeat split; try done.
  by rewrite <- (imap_const (λ _, [])).
Qed.

(** The two loops in step, as long as the greedy loop goes on. *)
Lemma steps_sim (start_tokens : list Z) (eos decode_length : Z)
    (memory : list (list (list R))) (bias : Bias) (al : R) (n : nat)
    (v_n : loop_vars) :
  sampling_method hp = "argmax"%string →
  penalty_off al → shift_monotone →
  (0 < _vocab_size embedding)%nat →
  Z.of_nat (_vocab_size embedding) ≤ 2^31 →
  bias_gather net (seq 0 (length start_tokens)) bias = bias →
  length memory = length start_tokens →
  steps n start_tokens eos decode_length memory bias = Done v_n →
  Forall (eos_only_last eos) (lv_decoded_ids v_n) →
  (∀ k, (k < n)%nat →
     ∃ vk, steps k start_tokens eos decode_length memory bias = Done vk ∧
           is_not_finished decode_length vk = true) →
  ∀ i, (i ≤ n)%nat →
    ∃ v b items,
      steps i start_tokens eos decode_length memory bias = Done v ∧
      run_body
        (beam_step net (step_fn decode_length) 1 (_vocab_size embedding) al eos)
        i (beam_init start_tokens (_init_cache hp memory bias)) = Done b ∧
      beam_sim eos items v b ∧
      ((i < n)%nat →
         greedy_inv hp (length start_tokens) memory bias i v ∧
         cache_rows (length start_tokens) (lv_cache v) ∧
         Forall (λ x, it_ended eos x = false) items ∧
         bs_cache b = lv_cache v).
Proof.
  intros Hs Hpen Hmono Hvoc Hvoc31 Hgather Hmem Hn Hlast Hbefore i.
  induction i as [|i IH]; intros Hi.
  - eexists _, _, _. split; [reflexivity|]. split; [reflexivity|].
    split; [apply init_sim|]. intros _.
    split; [by apply greedy_init_inv|].
    split; [rewrite <- Hmem; apply init_cache_rows|].
    split; [|done]. apply Forall_map. by apply Forall_true.
  - destruct IH as (v & b & items & Hv & Hb & Hsim & Hlive); [lia|].
    destruct Hlive as (Hinv & Hrows & Hlive & Hcache); [lia|].
    destruct (Hbefore i) as (v0 & Hv0 & Hcond); [lia|].
    rewrite Hv in Hv0. injection Hv0 as <-.
    apply is_not_finished_true in Hcond as [Hlt _].
    pose proof Hinv as (Hstep & _). rewrite Hstep in Hlt.
    destruct (sim_step start_tokens eos decode_length memory bias al i items
                v b Hs Hpen Hmono Hvoc Hvoc31 Hgather Hinv Hrows Hsim Hlive
                Hcache Hlt)
      as (v' & b' & items' & Hbody & Hbeam & Hinv' & Hrows' & Hsim' & Hcache').
    assert (steps (S i) start_tokens eos decode_length memory bias = Done v')
      as Hv'.
    { unfold greedy_steps in *. by rewrite run_body_S_back, Hv. }
    exists v', b', items'. split; [done|].
    split; [by rewrite run_body_S_back, Hb|].
    split; [done|]. intros Hlt'. split; [done|]. split; [done|].
    assert (Forall (λ x, it_ended eos x = false) items') as Hlive'.
    { pose proof (no_early_eos _ _ _ _ _ _ _ _ _ Hv' Hn Hlt' Hlast) as Hno.
      destruct Hsim' as (_ & _ & Hdec' & _). rewrite Hdec' in Hno.
      apply Forall_lookup_2. intros k x Hx.
      assert (eos ∉ it_decoded x) as Hnx.
      { apply (Forall_lookup_1 _ _ k _ Hno). by rewrite list_lookup_fmap, Hx. }
      unfold it_ended. apply bool_decide_eq_false_2.
      intros Hl. apply Hnx. by apply last_Some_elem_of. }
    split; [done|]. by apply Hcache'.
Qed.

(** C7, amended.  On every batch for which the sequences that the greedy
    decoder with arg-max sampling returns hold the end token nowhere but
    at their end (no item goes on after its end token while another
    item is decoded), and in exact arithmetic (the length penalty with
    exponent [alpha] leaves scores as they are, and shifting two scores by
    the same amounts keeps their order), the beam decoder with
    [beam_width = 1] returns the token sequences and the
    log-probabilities that the greedy decoder returns. *)
Theorem beam_one_matches_greedy (start_tokens : list Z) (eos decode_length : Z)
    (memory : list (list (list R))) (bias : Bias)
    (outputs : list (list (list Z))) (log_probs : list (list R)) :
  sampling_method hp = "argmax"%string →
  penalty_off (alpha hp) → shift_monotone →
  (0 < _vocab_size embedding)%nat →
  Z.of_nat (_vocab_size embedding) ≤ 2^31 →
  bias_gather net (seq 0 (length start_tokens)) bias = bias →
  length memory = length start_tokens →
  _greedy_decode net hp embedding (_prepare_tokens_to_embeds embedding)
    start_tokens eos decode_length memory bias = Done (outputs, log_probs) →
  Forall (Forall (eos_only_last eos)) outputs →
  _beam_decode net hp embedding (beam_search net)
    (_prepare_tokens_to_embeds embedding)
    start_tokens eos memory bias decode_length 1 = Done (outputs, log_probs).
Proof.
  intros Hs Hpen Hmono Hvoc Hvoc31 Hgather Hmem Hgreedy Hlast.
  unfold _greedy_decode, greedy_loop in Hgreedy.
  destruct (while_loop _ _ _ _) as [[n v]| |] eqn:Hloop; cbn in Hgreedy;
    [|done..].
  injection Hgreedy as <- <-.
  pose proof (while_loop_iterations _ _ _ _ _ _ Hloop) as Hfuel.
  apply while_loop_Done in Hloop as (Hrun & Hcond & Hbefore).
  assert (Forall (eos_only_last eos) (lv_decoded_ids v)) as Hlast'.
  { apply Forall_lookup_2. intros k row Hrow.
    assert (Forall (eos_only_last eos) [row]) as Hr.
    { apply (Forall_lookup_1 _ _ k _ Hlast). by rewrite list_lookup_fmap, Hrow. }
    by apply Forall_cons in Hr as [Hr _]. }
  pose proof (steps_sim start_tokens eos decode_length memory bias (alpha hp)
                n v Hs Hpen Hmono Hvoc Hvoc31 Hgather Hmem Hrun Hlast' Hbefore)
    as Hsim.
  destruct (Hsim n) as (v' & b & items & Hv' & Hb & Hbs & _); [lia|].
  unfold greedy_steps in Hv'. rewrite Hrun in Hv'. injection Hv' as <-.
  assert (beam_loop net (S (Z.to_nat decode_length)) (step_fn decode_length)
            start_tokens 1 decode_length (_vocab_size embedding) (alpha hp)
            (_init_cache hp memory bias) eos = Done (n, b)) as Hbl.
  { unfold beam_loop. apply while_loop_intro; [done|exact Hb| |].
    - by rewrite (beam_cond _ _ _ _ _ Hbs).
    - intros k Hk.
      destruct (Hsim k) as (vk & bk & itk & Hvk & Hbk & Hsk & _); [lia|].
      exists bk. split; [done|]. rewrite (beam_cond _ _ _ _ _ Hsk).
      destruct (Hbefore k Hk) as (vk' & Hvk' & Hck).
      unfold greedy_steps in Hvk. rewrite Hvk in Hvk'. by injection Hvk' as <-. }
  unfold _beam_decode, beam_search. rewrite Hbl. cbn [mbind result_bind].
  destruct (beam_output (alpha hp) eos items v b n Hpen Hbs) as [Hout Hsc].
  { by destruct (steps_shape net hp embedding start_tokens eos decode_length
                   memory bias n v Hrun) as (_ & _ & Hdn & _). }
  { exact (steps_step net hp embedding _ _ _ _ _ _ _ Hrun). }
  change (Z.to_nat 1) with 1%nat. by rewrite Hout, Hsc.
Qed.

(** A batch of one item is such a batch: its loop stops with the end
    token. *)
Lemma single_item_eos_only_last (start_token eos decode_length : Z)
    (memory : list (list (list R))) (bias : Bias)
    (outputs : list (list (list Z))) (log_probs : list (list R)) :
  _greedy_decode net hp embedding (_prepare_tokens_to_embeds embedding)
    [start_token] eos decode_length memory bias = Done (outputs, log_probs) →
  Forall (Forall (eos_only_last eos)) outputs.
Proof.
  unfold _greedy_decode, greedy_loop. intros Hgreedy.
  destruct (while_loop _ _ _ _) as [[n v]| |] eqn:Hloop; cbn in Hgreedy;
    [|done..].
  injection Hgreedy as <- <-.
  apply while_loop_Done in Hloop as (Hrun & _ & Hbefore).
  destruct (steps_shape net hp embedding [start_token] eos decode_length
              memory bias n v Hrun) as (_ & Hd & Hdn & _).
  apply Forall_fmap, Forall_lookup_2. intros k row Hrow. cbn.
  constructor; [|done]. apply eos_only_last_lookup. intros j Hj.
  pose proof (lookup_lt_Some _ _ _ Hj) as Hjlt.
  pose proof (Forall_lookup_1 _ _ _ _ Hdn Hrow) as Hlen. cbn in Hlen.
  destruct (decide (S j = length row)) as [|Hne]; [done|]. exfalso.
  destruct (Hbefore (S j)) as (vj & Hvj & Hcj); [lia|].
  apply is_not_finished_true in Hcj as [_ Hnf].
  destruct (steps_shape net hp embedding [start_token] eos decode_length
              memory bias (S j) vj Hvj) as (Hfj & Hdj & Hdjn & _).
  pose proof (steps_finished_iff_eos net hp embedding [start_token] eos
                decode_length memory bias (S j) vj Hvj) as Hiff.
  assert (steps (S j + (n - S j)) [start_token] eos decode_length memory bias
          = Done v) as Hrun'.
  { replace (S j + (n - S j))%nat with n by lia. exact Hrun. }
  pose proof (steps_prefix _ _ _ _ _ _ _ _ _ Hvj Hrun') as Hpre.
  cbn in Hfj, Hdj, Hd.
  destruct (lv_finished vj) as [|f [|? ?]]; try done.
  destruct (lv_decoded_ids vj) as [|rj [|? ?]]; try done.
  destruct (lv_decoded_ids v) as [|r [|? ?]]; try done.
  destruct k as [|k]; [|done]. cbn in Hrow. injection Hrow as ->.
  apply Forall2_cons in Hpre as [(ext & -> & _) _].
  apply Forall2_cons in Hiff as [Hiff _].
  apply Forall_cons in Hdjn as [Hrj _]. cbn in Hrj.
  rewrite lookup_app_l in Hj by lia.
  cbn in Hnf. rewrite andb_true_r in Hnf. unfold id in Hnf.
  rewrite (proj2 Hiff) in Hnf; [done|]. by eapply list_elem_of_lookup_2.
Qed.
End BeamProperties.

(** ** The beam of one on the concrete decoder *)

Section BeamExamples.
Import TransformerDecoder BeamSearch DecoderExample BeamExample.

Lemma example_penalty_off : penalty_off (alpha hp).
Proof.
  intros x n. unfold length_penalty. cbn. rewrite Z.pow_0_r. apply Z.div_1_r.
Qed.

Lemma example_shift_monotone : @shift_monotone Z _.
Proof.
  intros c l a b. cbn.
  destruct (Z.ltb_spec (c + (a - l)) (c + (b - l)));
    destruct (Z.ltb_spec a b); done || lia.
Qed.

(** C7 fails on a batch of two.  The first item meets the end token at
    step 0: the beam retires it there with its score and fills its
    sequence up with 0, while the greedy loop, which runs until the second
    item is finished as well, goes on choosing a token for it and adding
    its log-probability. *)
Lemma beam_one_differs_from_greedy :
  beam_width hp = 1 ∧ alpha hp = 0 ∧ sampling_method hp = "argmax"%string ∧
  _greedy_decode net hp embedding (_prepare_tokens_to_embeds embedding)
    [1; 1] 2 3 memory zero_bias
    = Done ([[[2; 1]]; [[0; 2]]], [[-4]; [-4]]) ∧
  _beam_decode net hp embedding (beam_search net)
    (_prepare_tokens_to_embeds embedding) [1; 1] 2 memory zero_bias 3 1
    = Done ([[[2; 0]]; [[0; 2]]], [[-2]; [-4]]) ∧
  _beam_decode net hp embedding (beam_search net)
    (_prepare_tokens_to_embeds embedding) [1; 1] 2 memory zero_bias 3 1
    ≠ _greedy_decode net hp embedding (_prepare_tokens_to_embeds embedding)
        [1; 1] 2 3 memory zero_bias ∧
  ¬ Forall (Forall (eos_only_last 2)) [[[2; 1]]; [[0; 2]]].
Proof.
  split; [done|]. split; [done|]. split; [done|].
  assert (_greedy_decode net hp embedding (_prepare_tokens_to_embeds embedding)
            [1; 1] 2 3 memory zero_bias
          = Done ([[[2; 1]]; [[0; 2]]], [[-4]; [-4]])) as Hg
    by (vm_compute; reflexivity).
  assert (_beam_decode net hp embedding (beam_search net)
            (_prepare_tokens_to_embeds embedding) [1; 1] 2 memory zero_bias 3 1
          = Done ([[[2; 0]]; [[0; 2]]], [[-2]; [-4]])) as Hb
    by (vm_compute; reflexivity).
  split; [done|]. split; [done|]. split; [by rewrite Hg, Hb|].
  intros Hlast. apply Forall_cons in Hlast as [Hlast _].
  apply Forall_cons in Hlast as [Hlast _]. apply Hlast. cbn. by left.
Qed.

Lemma beam_one_matches_greedy_witness :
  _beam_decode net hp embedding (beam_search net)
    (_prepare_tokens_to_embeds embedding)
    [1; 1] 2 memory_same_step zero_bias 3 1
    = Done ([[[0; 2]]; [[1; 2]]], [[-4]; [-2]]).
Proof.
  apply (beam_one_matches_greedy net hp embedding [1; 1] 2 3
           memory_same_step zero_bias [[[0; 2]]; [[1; 2]]] [[-4]; [-2]]).
  - reflexivity.
  - exact example_penalty_off.
  - exact example_shift_monotone.
  - cbn. lia.
  - cbn. lia.
  - reflexivity.
  - reflexivity.
  - vm_compute. reflexivity.
  - repeat constructor; by apply (bool_decide_unpack _).
Defined.

(** The two decoders agree as well where the loop ends on
    [decode_length]: after one step the first item has met the end token
    and the second has not. *)
Example beam_and_greedy_stop_at_decode_length :
  _greedy_decode net hp embedding (_prepare_tokens_to_embeds embedding)
    [1; 1] 2 1 memory zero_bias = Done ([[[2]]; [[0]]], [[-2]; [-2]]) ∧
  _beam_decode net hp embedding (beam_search net)
    (_prepare_tokens_to_embeds embedding) [1; 1] 2 memory zero_bias 1 1
    = Done ([[[2]]; [[0]]], [[-2]; [-2]]).
Proof. split; vm_compute; reflexivity. Qed.
End BeamExamples.
